(** * network_analysis: the conversion utilities of [utils.py]

    A shallow embedding of [kiara_modules/network_analysis/utils.py]:
    the GraphML type mapper and parser, the node/edge table extractor,
    the schema-mapping inserter and the tabular view adapter, followed by
    the properties the specification states about them.

    Python dictionaries keep their insertion order and several of the
    functions iterate over them, so a dictionary is an association list
    whose operations follow [dict]'s: assignment overwrites in place or
    appends, [pop] removes the key. *)

From Stdlib Require Import String Ascii List ListSet ZArith Bool Lia Arith.
From Stdlib Require Import Sorting.Sorted Sorting.Permutation.
Import ListNotations.
Local Open Scope string_scope.
Local Open Scope list_scope.

Set Implicit Arguments.

(* ------------------------------------------------------------------ *)
(** ** Python values, exceptions and results *)

(** The values that travel through tables and graph attributes.  [PyNaN]
    is [float("nan")], the placeholder the table extractor pads with. *)
Inductive pyvalue : Type :=
| PyInt (z : Z)
| PyStr (s : string)
| PyNaN.

Definition pyvalue_eq_dec (a b : pyvalue) : {a = b} + {a <> b}.
Proof.
  decide equality; [apply Z.eq_dec | apply string_dec].
Defined.

(** The exceptions the module raises or lets through. [Exception] carries
    the message of a bare [raise Exception(...)]. *)
Inductive exn : Type :=
| KeyError (key : string)
| Exception (msg : string)
| NetworkXError (msg : string)
| ValueError (msg : string)
| AttributeError (msg : string)
| IndexError
| StoreError (msg : string)
| ArrowInvalid
| ArrowTypeError.

Inductive result (A : Type) : Type :=
| Ok (a : A)
| Raise (e : exn).

Arguments Ok {A} a.
Arguments Raise {A} e.

(** Code that talks to the relational store changes the store and may
    raise: a computation takes the store and returns its result or its
    exception together with the store it leaves behind. *)
Definition M (S A : Type) : Type := S -> result A * S.

Definition ret {S A : Type} (a : A) : M S A := fun s => (Ok a, s).

Definition raise {S A : Type} (e : exn) : M S A := fun s => (Raise e, s).

Definition bind {S A B : Type} (m : M S A) (k : A -> M S B) : M S B :=
  fun s =>
    match m s with
    | (Ok a, s') => k a s'
    | (Raise e, s') => (Raise e, s')
    end.

Declare Scope store_scope.
Delimit Scope store_scope with store.
Notation "x <- m ;; k" := (bind m (fun x => k))
  (at level 61, m at next level, right associativity) : store_scope.

(** A pure step that may raise, run inside [M]. *)
Definition lift {S A : Type} (r : result A) : M S A :=
  match r with
  | Ok a => ret a
  | Raise e => raise e
  end.

(* ------------------------------------------------------------------ *)
(** ** Insertion-ordered dictionaries with string keys *)

Module PyDict.

Section Ops.
Variable V : Type.

Definition t := list (string * V).

Definition empty : t := [].

(** [d.get(k)] *)
Fixpoint get (d : t) (k : string) : option V :=
  match d with
  | [] => None
  | (k', v) :: d' => if String.eqb k k' then Some v else get d' k
  end.

(** [k in d.keys()] *)
Definition contains (d : t) (k : string) : bool :=
  match get d k with Some _ => true | None => false end.

(** [d[k]], which raises [KeyError] on a missing key *)
Definition getitem (d : t) (k : string) : result V :=
  match get d k with Some v => Ok v | None => Raise (KeyError k) end.

(** [d[k] = v]: overwrite where the key sits, or append a new entry *)
Fixpoint set (d : t) (k : string) (v : V) : t :=
  match d with
  | [] => [(k, v)]
  | (k', v') :: d' =>
      if String.eqb k k' then (k, v) :: d' else (k', v') :: set d' k v
  end.

(** the dictionary left by [d.pop(k)] *)
Definition remove (d : t) (k : string) : t :=
  filter (fun e => negb (String.eqb k (fst e))) d.

(** [d.pop(k)]: the value and the remaining dictionary *)
Definition pop (d : t) (k : string) : result (V * t) :=
  match get d k with
  | Some v => Ok (v, remove d k)
  | None => Raise (KeyError k)
  end.

Definition keys (d : t) : list string := map fst d.
Definition values (d : t) : list V := map snd d.
Definition items (d : t) : list (string * V) := d.

(** [d.update(e)] *)
Definition update (d e : t) : t :=
  fold_left (fun acc kv => set acc (fst kv) (snd kv)) e d.

(** A list is a dictionary when no key occurs twice. *)
Definition wf (d : t) : Prop := NoDup (keys d).
End Ops.

Arguments empty {V}.

End PyDict.

(* ------------------------------------------------------------------ *)
(** ** The type mapper *)

Definition type_map : PyDict.t string :=
  [ ("boolean", "INTEGER");
    ("int", "INTEGER");
    ("long", "INTEGER");
    ("float", "REAL");
    ("double", "REAL");
    ("string", "TEXT") ].

Definition convert_graphml_type_to_sqlite (data_type : string) : result string :=
  PyDict.getitem type_map data_type.

(* ------------------------------------------------------------------ *)
(** ** The XML document object model the parser reads

    [minidom] hands the parser a tree of nodes.  An element has a tag, its
    attributes and its children; character data (text, CDATA, comments)
    carries a [data] string. *)

#[warnings="-register-all"]
Inductive dom_node : Type :=
| Element (tagName : string) (attributes : PyDict.t string)
          (childNodes : list dom_node)
| Text (data : string).

Record Document : Type := { documentElement : dom_node }.

(** [n.getAttribute(name)]: the empty string when the attribute is absent *)
Definition getAttribute (n : dom_node) (name : string) : string :=
  match n with
  | Element _ attrs _ =>
      match PyDict.get attrs name with Some v => v | None => "" end
  | Text _ => ""
  end.

(** The elements named [name] among [n] and its descendants, in document
    order. *)
Fixpoint elements_by_tag (name : string) (n : dom_node) : list dom_node :=
  match n with
  | Element tag _ children =>
      (if String.eqb tag name then [n] else [])
        ++ flat_map (elements_by_tag name) children
  | Text _ => []
  end.

(** [n.getElementsByTagName(name)] on an element: its descendants only *)
Definition getElementsByTagName (n : dom_node) (name : string) : list dom_node :=
  match n with
  | Element _ _ children => flat_map (elements_by_tag name) children
  | Text _ => []
  end.

(** [dom.getElementsByTagName(name)] on the document *)
Definition document_getElementsByTagName (dom : Document) (name : string)
  : list dom_node :=
  elements_by_tag name (documentElement dom).

(** [n.firstChild] ([None] when there is no child) *)
Definition firstChild (n : dom_node) : option dom_node :=
  match n with
  | Element _ _ (c :: _) => Some c
  | _ => None
  end.

(** [n.data], which only character data has *)
Definition node_data (n : dom_node) : result string :=
  match n with
  | Text d => Ok d
  | Element _ _ _ => Raise (AttributeError "data")
  end.

(** [l[0]] *)
Definition item0 {A : Type} (l : list A) : result A :=
  match l with
  | x :: _ => Ok x
  | [] => Raise IndexError
  end.

(** A [for] loop whose body may raise: the first exception ends it. *)
Fixpoint for_each {A S : Type} (body : S -> A -> result S) (l : list A) (s : S)
  : result S :=
  match l with
  | [] => Ok s
  | a :: l' =>
      match body s a with
      | Ok s' => for_each body l' s'
      | Raise e => Raise e
      end
  end.

(** [sorted(l)] on strings: ascending, by insertion *)
Fixpoint insert_sorted (x : string) (l : list string) : list string :=
  match l with
  | [] => [x]
  | y :: l' => if String.leb x y then x :: l else y :: insert_sorted x l'
  end.

Definition sorted (l : list string) : list string :=
  fold_right insert_sorted [] l.

(* ------------------------------------------------------------------ *)
(** ** The in-memory graph the parser fills

    The graph library is a collaborator; it is modelled by the interface
    the parser uses: a node is added with its identifier and, as the
    library gives every node it adds one, an empty label attribute; an
    edge is added without attributes between the first nodes that carry
    the two identifiers; and items hold a dictionary of attributes. An
    edge refers to its end nodes by their position in the graph's node
    list. *)

Record Node : Type := { node_id : string; node_attr : PyDict.t string }.

Record Edge : Type :=
  { edge_node1 : nat; edge_node2 : nat; edge_attr : PyDict.t string }.

Record Graph : Type :=
  { graph_name : string; graph_nodes : list Node; graph_edges : list Edge }.

Definition new_graph (name : string) : Graph :=
  {| graph_name := name; graph_nodes := []; graph_edges := [] |}.

(** The node of [g.add_node(id=id)], before the parser sets anything *)
Definition new_node (id : string) : Node :=
  {| node_id := id; node_attr := [("label", "")] |}.

Definition add_node (g : Graph) (n : Node) : Graph :=
  {| graph_name := graph_name g;
     graph_nodes := graph_nodes g ++ [n];
     graph_edges := graph_edges g |}.

Fixpoint find_node (nodes : list Node) (id : string) : option nat :=
  match nodes with
  | [] => None
  | n :: rest =>
      if String.eqb (node_id n) id then Some 0%nat
      else option_map S (find_node rest id)
  end.

(** The two end nodes of [g.add_edge_by_id(id1, id2)] *)
Definition edge_ends (g : Graph) (id1 id2 : string) : result (nat * nat) :=
  match find_node (graph_nodes g) id1, find_node (graph_nodes g) id2 with
  | Some n1, Some n2 => Ok (n1, n2)
  | None, _ => Raise (ValueError id1)
  | _, None => Raise (ValueError id2)
  end.

Definition add_edge (g : Graph) (e : Edge) : Graph :=
  {| graph_name := graph_name g;
     graph_nodes := graph_nodes g;
     graph_edges := graph_edges g ++ [e] |}.

(* ------------------------------------------------------------------ *)
(** ** The GraphML parser *)

Definition Schema := PyDict.t (PyDict.t string).

(** The four dictionaries the scan of the [<key>] elements fills. *)
Record key_tables : Type :=
  { edge_map : PyDict.t string;
    node_map : PyDict.t string;
    edge_props : Schema;
    node_props : Schema }.

Definition no_keys : key_tables :=
  {| edge_map := []; node_map := []; edge_props := []; node_props := [] |}.

(** The body of [for attr in root.getElementsByTagName("key")] *)
Definition scan_key (kt : key_tables) (attr : dom_node) : result key_tables :=
  let n_id := getAttribute attr "id" in
  let name := getAttribute attr "attr.name" in
  let for_type := getAttribute attr "for" in
  let attr_type := getAttribute attr "attr.type" in
  if String.eqb for_type "edge" then
    let edge_map' := PyDict.set (edge_map kt) n_id name in
    match convert_graphml_type_to_sqlite attr_type with
    | Raise e => Raise e
    | Ok ty =>
        Ok {| edge_map := edge_map';
              node_map := node_map kt;
              edge_props := PyDict.set (edge_props kt) name [("data_type", ty)];
              node_props := node_props kt |}
    end
  else
    let node_map' := PyDict.set (node_map kt) n_id name in
    match convert_graphml_type_to_sqlite attr_type with
    | Raise e => Raise e
    | Ok ty =>
        Ok {| edge_map := edge_map kt;
              node_map := node_map';
              edge_props := edge_props kt;
              node_props := PyDict.set (node_props kt) name [("data_type", ty)] |}
    end.

(** [for key in sorted(m.keys()): props_sorted[m[key]] = props[m[key]]] *)
Definition sort_props (m : PyDict.t string) (props : Schema) : result Schema :=
  for_each
    (fun acc key =>
       match PyDict.getitem m key with
       | Raise e => Raise e
       | Ok name =>
           match PyDict.getitem props name with
           | Raise e => Raise e
           | Ok p => Ok (PyDict.set acc name p)
           end
       end)
    (sorted (PyDict.keys m)) PyDict.empty.

(** The body of [for attr in item.getElementsByTagName("data")]: the
    attribute named by the key is set to the text of the element, or to the
    empty string when the element has no child. *)
Definition set_data (m : PyDict.t string) (item : PyDict.t string)
  (attr : dom_node) : result (PyDict.t string) :=
  let key := getAttribute attr "key" in
  match PyDict.getitem m key with
  | Raise e => Raise e
  | Ok mapped =>
      match firstChild attr with
      | Some c =>
          match node_data c with
          | Raise e => Raise e
          | Ok d => Ok (PyDict.set item mapped d)
          end
      | None => Ok (PyDict.set item mapped "")
      end
  end.

(** The attributes an item without attributes ends up with, as an edge
    does. *)
Definition read_data (m : PyDict.t string) (item : dom_node)
  : result (PyDict.t string) :=
  for_each (set_data m) (getElementsByTagName item "data") PyDict.empty.

(** The attributes a [<node>] element ends up with: those of the new node
    and what the data elements set. *)
Definition read_node_data (m : PyDict.t string) (node : dom_node)
  : result (PyDict.t string) :=
  for_each (set_data m) (getElementsByTagName node "data")
    (node_attr (new_node (getAttribute node "id"))).

(** The body of [for node in graph.getElementsByTagName("node")].  The
    node is appended once its attributes are read: nothing looks at the
    graph in between. *)
Definition parse_node (m : PyDict.t string) (g : Graph) (node : dom_node)
  : result Graph :=
  match read_node_data m node with
  | Raise e => Raise e
  | Ok attrs =>
      Ok (add_node g {| node_id := getAttribute node "id"; node_attr := attrs |})
  end.

(** The body of [for edge in graph.getElementsByTagName("edge")] *)
Definition parse_edge (m : PyDict.t string) (g : Graph) (edge : dom_node)
  : result Graph :=
  let source := getAttribute edge "source" in
  let dest := getAttribute edge "target" in
  match edge_ends g source dest with
  | Raise e => Raise e
  | Ok (n1, n2) =>
      match read_data m edge with
      | Raise e => Raise e
      | Ok attrs =>
          Ok (add_edge g {| edge_node1 := n1; edge_node2 := n2; edge_attr := attrs |})
      end
  end.

(** The [<graph>] element the parser works on *)
Definition graph_element (dom : Document) : result (dom_node * dom_node) :=
  match item0 (document_getElementsByTagName dom "graphml") with
  | Raise e => Raise e
  | Ok root =>
      match item0 (getElementsByTagName root "graph") with
      | Raise e => Raise e
      | Ok graph => Ok (root, graph)
      end
  end.

(** [parse_graphml_file], from the parsed document on.  It returns the
    graph, the edge schema and the node schema. *)
Definition parse_graphml_file (dom : Document) : result (Graph * Schema * Schema) :=
  match graph_element dom with
  | Raise e => Raise e
  | Ok (root, graph) =>
      let name := getAttribute graph "id" in
      let g := new_graph name in
      match for_each scan_key (getElementsByTagName root "key") no_keys with
      | Raise e => Raise e
      | Ok kt =>
          match sort_props (node_map kt) (node_props kt) with
          | Raise e => Raise e
          | Ok node_props_sorted =>
              match sort_props (edge_map kt) (edge_props kt) with
              | Raise e => Raise e
              | Ok edge_props_sorted =>
                  match for_each (parse_node (node_map kt))
                          (getElementsByTagName graph "node") g with
                  | Raise e => Raise e
                  | Ok g1 =>
                      match for_each (parse_edge (edge_map kt))
                              (getElementsByTagName graph "edge") g1 with
                      | Raise e => Raise e
                      | Ok g2 => Ok (g2, edge_props_sorted, node_props_sorted)
                      end
                  end
              end
          end
      end
  end.

(* ------------------------------------------------------------------ *)
(** ** Reserved column names

    Modelled from the spec: [defaults.py], which defines the reserved
    identifier, label, source and target column names, is not among the
    sources.  The functions take the four names as a parameter;
    [defaults] gives them the values the specification's examples use. *)

Record Defaults : Type :=
  { ID_COLUMN_NAME : string;
    LABEL_COLUMN_NAME : string;
    SOURCE_COLUMN_NAME : string;
    TARGET_COLUMN_NAME : string }.

Definition defaults : Defaults :=
  {| ID_COLUMN_NAME := "id";
     LABEL_COLUMN_NAME := "label";
     SOURCE_COLUMN_NAME := "source";
     TARGET_COLUMN_NAME := "target" |}.

(* ------------------------------------------------------------------ *)
(** ** The table extractor

    The graph handed to the extractor is read through its two views:
    [graph.nodes(data=True)] and [graph.edges(data=True)]. *)

Definition Attrs := PyDict.t pyvalue.

Record nx_Graph : Type :=
  { nodes_data : list (pyvalue * Attrs);
    edges_data : list (pyvalue * pyvalue * Attrs) }.

(** A column table: a column name to the list of the column's cells. *)
Definition ColumnTable := PyDict.t (list pyvalue).

(** The table library is a collaborator, modelled by what
    [pa.Table.from_pydict] does with the values a graph holds here.  It
    makes an array of every column, in the order of the mapping: it
    infers the type of the array from the cells, converts every cell to
    that type and refuses the column at the first cell that does not
    convert; then it refuses columns of unequal lengths.  A table that is
    built is represented by the mapping it was built from; in a column of
    doubles an integer cell stands for the float equal to it.  Python
    integers are unbounded and so is [PyInt]; the 64-bit width of the
    integer columns is not modelled. *)
Inductive arrow_type : Type :=
| arrow_null
| arrow_int64
| arrow_double
| arrow_string.

(** Type inference over the cells.  An integer keeps the scan going, the
    first float or string ends it; then a float seen makes the column a
    column of doubles, else an integer seen one of integers, else a
    string seen one of strings. *)
Fixpoint infer_type (seen_int : bool) (cells : list pyvalue) : arrow_type :=
  match cells with
  | [] => if seen_int then arrow_int64 else arrow_null
  | PyInt _ :: rest => infer_type true rest
  | PyNaN :: _ => arrow_double
  | PyStr _ :: _ => if seen_int then arrow_int64 else arrow_string
  end.

(** The integers a double holds exactly, as the conversion checks them. *)
Definition exact_double (z : Z) : bool := (Z.abs z <=? 2 ^ 53)%Z.

(** The conversion of one cell to the type of its column. *)
Definition convert_cell (ty : arrow_type) (v : pyvalue) : result unit :=
  match ty, v with
  | arrow_null, _ => Ok tt
  | arrow_int64, PyInt _ => Ok tt
  | arrow_int64, _ => Raise ArrowInvalid
  | arrow_double, PyNaN => Ok tt
  | arrow_double, PyInt z => if exact_double z then Ok tt else Raise ArrowInvalid
  | arrow_double, PyStr _ => Raise ArrowInvalid
  | arrow_string, PyStr _ => Ok tt
  | arrow_string, _ => Raise ArrowTypeError
  end.

(** [pa.array(cells)] with the type inferred, as far as it can fail *)
Definition asarray (cells : list pyvalue) : result unit :=
  let ty := infer_type false cells in
  for_each (fun _ v => convert_cell ty v) cells tt.

Definition same_lengths (cols : list (list pyvalue)) : bool :=
  match cols with
  | [] => true
  | c :: cs => forallb (fun c' => Nat.eqb (length c') (length c)) cs
  end.

Definition from_pydict (mapping : PyDict.t (list pyvalue)) : result ColumnTable :=
  match for_each (fun _ col => asarray col) (PyDict.values mapping) tt with
  | Raise e => Raise e
  | Ok _ =>
      if same_lengths (PyDict.values mapping) then Ok mapping
      else Raise ArrowInvalid
  end.

(** The union of the key sets of the dictionaries [ds], each name once
    ([all_attrs] in the source).  The order a
    Python set iterates in is unspecified; only membership is used below. *)
Definition union_keys (ds : list Attrs) : list string :=
  nodup string_dec (flat_map (@PyDict.keys pyvalue) ds).

(** [k in s] *)
Definition in_set (k : string) (s : list string) : bool :=
  existsb (String.eqb k) s.

(** [d.get(k, default)] *)
Definition get_default (d : Attrs) (k : string) (default : pyvalue) : pyvalue :=
  match PyDict.get d k with Some v => v | None => default end.

Definition edge_source (e : pyvalue * pyvalue * Attrs) : pyvalue := fst (fst e).
Definition edge_target (e : pyvalue * pyvalue * Attrs) : pyvalue := snd (fst e).
Definition edge_dict (e : pyvalue * pyvalue * Attrs) : Attrs := snd e.

Definition extract_edges_as_table (cn : Defaults) (graph : nx_Graph)
  : result ColumnTable :=
  let edgelist := edges_data graph in
  let source_nodes := map edge_source edgelist in
  let target_nodes := map edge_target edgelist in
  let all_attrs := union_keys (map edge_dict edgelist) in
  if in_set (SOURCE_COLUMN_NAME cn) all_attrs then
    Raise (NetworkXError
             ("Source name " ++ SOURCE_COLUMN_NAME cn ++ " is an edge attribute name"))
  else if in_set (SOURCE_COLUMN_NAME cn) all_attrs then
    Raise (NetworkXError
             ("Target name " ++ SOURCE_COLUMN_NAME cn ++ " is an edge attribute name"))
  else
    let nan := PyNaN in
    let edge_attr :=
      map (fun k => (k, map (fun e => get_default (edge_dict e) k nan) edgelist))
          all_attrs in
    let edge_lists :=
      PyDict.set (PyDict.set PyDict.empty (SOURCE_COLUMN_NAME cn) source_nodes)
                 (TARGET_COLUMN_NAME cn) target_nodes in
    let edge_lists := PyDict.update edge_lists edge_attr in
    from_pydict edge_lists.

Definition extract_nodes_as_table (cn : Defaults) (graph : nx_Graph)
  : result ColumnTable :=
  let nodelist := nodes_data graph in
  let node_ids := map fst nodelist in
  let all_attrs := union_keys (map snd nodelist) in
  if in_set (ID_COLUMN_NAME cn) all_attrs then
    Raise (NetworkXError
             ("Id column name " ++ ID_COLUMN_NAME cn ++ " is an node attribute name"))
  else if in_set (SOURCE_COLUMN_NAME cn) all_attrs then
    Raise (NetworkXError
             ("Target name " ++ SOURCE_COLUMN_NAME cn ++ " is an edge attribute name"))
  else
    let nan := PyNaN in
    let node_attr :=
      map (fun k => (k, map (fun n => get_default (snd n) k nan) nodelist))
          all_attrs in
    let node_attr := PyDict.set node_attr (ID_COLUMN_NAME cn) node_ids in
    from_pydict node_attr.

(* ------------------------------------------------------------------ *)
(** ** The schema-mapping inserter *)

(** [batch.to_pydict()]: a column name to the cells of the column *)
Definition Batch := PyDict.t (list pyvalue).

(** One record handed to the store *)
Definition Row := PyDict.t pyvalue.

(** A Python set of node identifiers, read through membership only *)
Definition pyset := list pyvalue.

(** [s.update(xs)] *)
Definition set_update (s : pyset) (xs : list pyvalue) : pyset :=
  set_union pyvalue_eq_dec s xs.

(** The column-oriented table type is a collaborator: a table is what its
    [to_batches(chunk_size)] yields, each batch already as a dictionary. *)
Record pa_Table : Type := { to_batches : Z -> list Batch }.

Record SqliteTableSchema : Type := { column_map : PyDict.t string }.

(** The relational store is a collaborator, known by its two insertion
    methods.  [insert_edges] gets the records and the identifiers seen so
    far and returns node identifiers. *)
Class NetworkData (S : Type) : Type :=
  { insert_nodes : list Row -> M S unit;
    insert_edges : list Row -> pyset -> M S (list pyvalue) }.

(** A [for] loop over batches that threads an accumulator through [M]. *)
Fixpoint for_eachM {S A B : Type} (body : B -> A -> M S B) (l : list A) (acc : B)
  : M S B :=
  match l with
  | [] => ret acc
  | a :: l' => bind (body acc a) (for_eachM body l')
  end.

(** [zip] of all the columns: the rows, as long as the shortest column;
    no rows when there is no column *)
Fixpoint zip_star (cols : list (list pyvalue)) : list (list pyvalue) :=
  match cols with
  | [] => []
  | c :: cs =>
      match cs with
      | [] => map (fun x => [x]) c
      | _ :: _ => map (fun p => fst p :: snd p) (combine c (zip_star cs))
      end
  end.

(** [dict(zip(batch_dict, t))] *)
Definition dict_zip (names : list string) (t : list pyvalue) : Row :=
  PyDict.update PyDict.empty (combine names t).

(** [[dict(zip(batch_dict, t)) for t in zip of batch_dict.values()]] *)
Definition to_rows (batch_dict : Batch) : list Row :=
  map (dict_zip (PyDict.keys batch_dict)) (zip_star (PyDict.values batch_dict)).

(** The body of [for k, v in column_map.items()] of the nodes loop.  The
    match on [get] is the test [k in batch_dict.keys()] together with the
    [get] or [pop] that follows it. *)
Definition nodes_column_step (cn : Defaults) (batch_dict : Batch)
  (kv : string * string) : result Batch :=
  let k := fst kv in
  let v := snd kv in
  match PyDict.get batch_dict k with
  | None => Ok batch_dict
  | Some _data =>
      if String.eqb k (ID_COLUMN_NAME cn) && String.eqb v (LABEL_COLUMN_NAME cn)
      then Ok (PyDict.set batch_dict v _data)
      else
        let popped := PyDict.remove batch_dict k in
        if PyDict.contains popped v
        then Raise (Exception "Duplicate nodes column name after mapping: {v}")
        else Ok (PyDict.set popped v _data)
  end.

(** The body of [for k, v in column_map.items()] of the edges loop *)
Definition edges_column_step (batch_dict : Batch) (kv : string * string)
  : result Batch :=
  let k := fst kv in
  let v := snd kv in
  match PyDict.get batch_dict k with
  | None => Ok batch_dict
  | Some _data =>
      let popped := PyDict.remove batch_dict k in
      if PyDict.contains popped v
      then Raise (Exception "Duplicate edges column name after mapping: {v}")
      else Ok (PyDict.set popped v _data)
  end.

(** [schema.column_map if schema else {}] *)
Definition column_map_of (schema : option SqliteTableSchema) : PyDict.t string :=
  match schema with
  | Some sc => column_map sc
  | None => PyDict.empty
  end.

Definition map_nodes_columns (cn : Defaults) (schema : option SqliteTableSchema)
  (batch : Batch) : result Batch :=
  for_each (nodes_column_step cn) (PyDict.items (column_map_of schema)) batch.

Definition map_edges_columns (schema : option SqliteTableSchema) (batch : Batch)
  : result Batch :=
  for_each edges_column_step (PyDict.items (column_map_of schema)) batch.

Local Open Scope store_scope.

(** The body of [for batch in nodes_table.to_batches(chunk_size)] *)
Definition nodes_batch {S : Type} {store : NetworkData S} (cn : Defaults)
  (nodes_schema : option SqliteTableSchema) (added_node_ids : pyset)
  (batch : Batch) : M S pyset :=
  batch_dict <- lift (map_nodes_columns cn nodes_schema batch) ;;
  ids <- lift (PyDict.getitem batch_dict (ID_COLUMN_NAME cn)) ;;
  let data := to_rows batch_dict in
  _ <- insert_nodes data ;;
  ret (set_update added_node_ids ids).

(** The body of [for batch in edges_table.to_batches(chunk_size)] *)
Definition edges_batch {S : Type} {store : NetworkData S}
  (edges_schema : option SqliteTableSchema) (added_node_ids : pyset)
  (batch : Batch) : M S pyset :=
  batch_dict <- lift (map_edges_columns edges_schema batch) ;;
  let data := to_rows batch_dict in
  all_node_ids <- insert_edges data added_node_ids ;;
  ret (set_update added_node_ids all_node_ids).

(** [insert_table_data_into_network_graph].  The Python function returns
    nothing; the model returns the final [added_node_ids]. *)
Definition insert_table_data_into_network_graph {S : Type} {store : NetworkData S}
  (cn : Defaults)
  (edges_table : pa_Table) (edges_schema : option SqliteTableSchema)
  (nodes_table : option pa_Table) (nodes_schema : option SqliteTableSchema)
  (chunk_size : Z) : M S pyset :=
  let added_node_ids : pyset := [] in
  added_node_ids <-
    match nodes_table with
    | Some nt =>
        for_eachM (nodes_batch cn nodes_schema) (to_batches nt chunk_size)
                  added_node_ids
    | None => ret added_node_ids
    end ;;
  for_eachM (edges_batch edges_schema) (to_batches edges_table chunk_size)
            added_node_ids.

Local Close Scope store_scope.

(** Modelled from the spec: the store itself ([metadata_models.py]) is not
    among the sources.  The specification says that the store takes node
    records, and that it takes edge records with the identifiers seen so
    far, creates every end point that is not among them, and returns the
    identifiers it created.  An edge record without a source or target
    cell is refused. *)
Record SpecStore : Type :=
  { stored_nodes : list Row; stored_edges : list Row }.

Definition end_points (cn : Defaults) (edges : list Row) : result (list pyvalue) :=
  for_each
    (fun acc edge =>
       match PyDict.getitem edge (SOURCE_COLUMN_NAME cn) with
       | Raise e => Raise e
       | Ok s =>
           match PyDict.getitem edge (TARGET_COLUMN_NAME cn) with
           | Raise e => Raise e
           | Ok t => Ok (set_update acc [s; t])
           end
       end)
    edges [].

Definition spec_insert_nodes (nodes : list Row) : M SpecStore unit :=
  fun s =>
    (Ok tt, {| stored_nodes := stored_nodes s ++ nodes;
               stored_edges := stored_edges s |}).

Definition spec_insert_edges (cn : Defaults) (edges : list Row)
  (existing_node_ids : pyset) : M SpecStore (list pyvalue) :=
  fun s =>
    match end_points cn edges with
    | Raise e => (Raise e, s)
    | Ok required =>
        let created := set_diff pyvalue_eq_dec required existing_node_ids in
        (Ok created,
         {| stored_nodes :=
              stored_nodes s
                ++ map (fun n => [(ID_COLUMN_NAME cn, n)]) created;
            stored_edges := stored_edges s ++ edges |})
    end.

Definition spec_store (cn : Defaults) : NetworkData SpecStore :=
  {| insert_nodes := spec_insert_nodes;
     insert_edges := spec_insert_edges cn |}.

(* ------------------------------------------------------------------ *)
(** ** The tabular view adapter

    The adapter reads a table of the store with [SELECT] queries.  The
    query engine is a collaborator: a query is kept as its clauses and
    [execute] gives it the meaning SQLite gives the text, an offset
    skipping rows before the limit cuts them, a negative limit cutting
    nothing. *)

(** Modelled from the spec: [TableType] of [defaults.py] is not among the
    sources; it names the two tables of the store. *)
Inductive TableType : Type := EDGES | NODES.

Definition TableType_value (t : TableType) : string :=
  match t with
  | EDGES => "edges"
  | NODES => "nodes"
  end.

Record SqlTable : Type :=
  { sql_columns : list string; sql_rows : list (list pyvalue) }.

Definition Database := PyDict.t SqlTable.

Record select_query : Type :=
  { select_from : string;
    select_limit : option Z;
    select_offset : option Z }.

Definition execute (db : Database) (q : select_query)
  : result (list (list pyvalue)) :=
  match PyDict.get db (select_from q) with
  | None => Raise (StoreError "no such table")
  | Some t =>
      let rows := sql_rows t in
      let rows :=
        match select_offset q with
        | Some o => skipn (Z.to_nat o) rows
        | None => rows
        end in
      let rows :=
        match select_limit q with
        | Some n => if (n <? 0)%Z then rows else firstn (Z.to_nat n) rows
        | None => rows
        end in
      Ok rows
  end.

Record NetworkDataTabularWrap : Type :=
  { _db : Database; _table_type : TableType }.

Definition _table_name (self : NetworkDataTabularWrap) : string :=
  TableType_value (_table_type self).

(** [SELECT count] over the table *)
Definition retrieve_number_of_rows (self : NetworkDataTabularWrap) : result Z :=
  match PyDict.get (_db self) (_table_name self) with
  | None => Raise (StoreError "no such table")
  | Some t => Ok (Z.of_nat (length (sql_rows t)))
  end.

Definition retrieve_column_names (self : NetworkDataTabularWrap)
  : result (list string) :=
  match PyDict.get (_db self) (_table_name self) with
  | None => Raise (StoreError "no such table")
  | Some t => Ok (sql_columns t)
  end.

(** [enumerate(l)] *)
Definition enumerate {A : Type} (l : list A) : list (nat * A) :=
  combine (seq 0 (length l)) l.

(** [result_dict[cn].append(r[i])] *)
Definition append_cell (r : list pyvalue) (result_dict : PyDict.t (list pyvalue))
  (icn : nat * string) : result (PyDict.t (list pyvalue)) :=
  match PyDict.getitem result_dict (snd icn) with
  | Raise e => Raise e
  | Ok col =>
      match nth_error r (fst icn) with
      | None => Raise IndexError
      | Some x => Ok (PyDict.set result_dict (snd icn) (col ++ [x]))
      end
  end.

(** The column-oriented dictionary built from the rows of a query *)
Definition materialize (column_names : list string) (rows : list (list pyvalue))
  : result (PyDict.t (list pyvalue)) :=
  let result_dict :=
    fold_left (fun d cn => PyDict.set d cn []) column_names PyDict.empty in
  for_each
    (fun d r => for_each (append_cell r) (enumerate column_names) d)
    rows result_dict.

(** [if length:] is false for [None] and for [0] *)
Definition truthy (length : option Z) : bool :=
  match length with
  | Some n => negb (n =? 0)%Z
  | None => false
  end.

(** The query [slice] builds *)
Definition slice_query (self : NetworkDataTabularWrap) (offset : Z)
  (length : option Z) : result select_query :=
  let query :=
    {| select_from := _table_name self;
       select_limit := None; select_offset := None |} in
  match
    (if truthy length then Ok length
     else match retrieve_number_of_rows self with
          | Raise e => Raise e
          | Ok num_rows => Ok (Some num_rows)
          end)
  with
  | Raise e => Raise e
  | Ok limit =>
      let query :=
        {| select_from := select_from query;
           select_limit := limit; select_offset := select_offset query |} in
      let query :=
        if (offset >? 0)%Z
        then {| select_from := select_from query;
                select_limit := select_limit query;
                select_offset := Some offset |}
        else query in
      Ok query
  end.

Definition slice (self : NetworkDataTabularWrap) (offset : Z) (length : option Z)
  : result (PyDict.t (list pyvalue)) :=
  match slice_query self offset length with
  | Raise e => Raise e
  | Ok query =>
      match execute (_db self) query with
      | Raise e => Raise e
      | Ok rows =>
          match retrieve_column_names self with
          | Raise e => Raise e
          | Ok column_names => materialize column_names rows
          end
      end
  end.

Definition to_pydict (self : NetworkDataTabularWrap)
  : result (PyDict.t (list pyvalue)) :=
  let query :=
    {| select_from := _table_name self;
       select_limit := None; select_offset := None |} in
  match execute (_db self) query with
  | Raise e => Raise e
  | Ok rows =>
      match retrieve_column_names self with
      | Raise e => Raise e
      | Ok column_names => materialize column_names rows
      end
  end.

(* ================================================================== *)
(** * Notions the statements use *)

Unset Implicit Arguments.

(** The six GraphML type names the mapper knows. *)
Definition recognized_types : list string :=
  ["boolean"; "int"; "long"; "float"; "double"; "string"].

(** [k] is an attribute name of one of the dictionaries [ds]. *)
Definition attribute_of (ds : list Attrs) (k : string) : Prop :=
  exists d, In d ds /\ In k (PyDict.keys d).

(** The cell of column [k] in row [i] of a table. *)
Definition cell (t : ColumnTable) (k : string) (i : nat) : option pyvalue :=
  match PyDict.get t k with
  | Some col => nth_error col i
  | None => None
  end.

(** Every column of the table has [n] cells. *)
Definition rectangular (t : ColumnTable) (n : nat) : Prop :=
  forall k col, PyDict.get t k = Some col -> length col = n.

(** Row [i] of column [k] holds the value the item [d] has for [k], or the
    not-a-number placeholder when [d] lacks [k]. *)
Definition padded_cell (t : ColumnTable) (k : string) (i : nat) (d : Attrs) : Prop :=
  (forall v, PyDict.get d k = Some v -> cell t k i = Some v) /\
  (PyDict.get d k = None -> cell t k i = Some PyNaN).

(** The columns the table library makes an array of: the columns of
    strings, and the columns of numbers in which, when the placeholder or
    another float makes them doubles, every integer is one a double holds
    exactly. *)
Definition is_str (v : pyvalue) : Prop :=
  match v with PyStr _ => True | _ => False end.

Definition is_num (v : pyvalue) : Prop :=
  match v with PyStr _ => False | _ => True end.

Definition exact (v : pyvalue) : Prop :=
  match v with PyInt z => (Z.abs z <= 2 ^ 53)%Z | _ => True end.

Definition accepted_column (col : list pyvalue) : Prop :=
  Forall is_str col \/
  (Forall is_num col /\ (In PyNaN col -> Forall exact col)).

(** Every column of the mapping is one the table library accepts. *)
Definition accepted_by_arrow (m : PyDict.t (list pyvalue)) : Prop :=
  forall k col, PyDict.get m k = Some col -> accepted_column col.

(** The two loops that apply a column mapping differ in the pairs they
    copy instead of moving and in their message. [column_step] is their
    common shape. *)
Definition column_step (copy : string -> string -> bool) (msg : string)
  (batch_dict : Batch) (kv : string * string) : result Batch :=
  match PyDict.get batch_dict (fst kv) with
  | None => Ok batch_dict
  | Some _data =>
      if copy (fst kv) (snd kv)
      then Ok (PyDict.set batch_dict (snd kv) _data)
      else
        if PyDict.contains (PyDict.remove batch_dict (fst kv)) (snd kv)
        then Raise (Exception msg)
        else Ok (PyDict.set (PyDict.remove batch_dict (fst kv)) (snd kv) _data)
  end.

(** The pair the nodes loop copies: identifier to label. *)
Definition is_id_to_label (cn : Defaults) (k v : string) : bool :=
  String.eqb k (ID_COLUMN_NAME cn) && String.eqb v (LABEL_COLUMN_NAME cn).

Definition duplicate_nodes_column : exn :=
  Exception "Duplicate nodes column name after mapping: {v}".

Definition duplicate_edges_column : exn :=
  Exception "Duplicate edges column name after mapping: {v}".

(** Conditions on a column mapping, relative to the batch it is applied
    to.  A pair is applicable when its source column is in the batch.
    First: the target column of an applicable pair is not one of the
    source columns of the mapping. *)
Definition no_chaining (cmap : PyDict.t string) (b : Batch) : Prop :=
  forall k v k' v',
    In (k, v) cmap -> In k (PyDict.keys b) -> In (k', v') cmap -> v <> k'.

(** No two applicable pairs have the same target column. *)
Definition distinct_targets (cmap : PyDict.t string) (b : Batch) : Prop :=
  forall k k' v,
    In (k, v) cmap -> In (k', v) cmap ->
    In k (PyDict.keys b) -> In k' (PyDict.keys b) -> k = k'.

(** No applicable pair that moves its column targets a column of the
    batch. *)
Definition fresh_targets (copy : string -> string -> bool)
  (cmap : PyDict.t string) (b : Batch) : Prop :=
  forall k v,
    In (k, v) cmap -> In k (PyDict.keys b) -> copy k v = false ->
    ~ In v (PyDict.keys b).

(** The nodes mapping as the specification describes it: the mapping goes
    through, the identifier column stays, the label column holds the
    identifier column's cells, and every other pair whose source is in the
    batch has its source removed and its cells under the target name. *)
Definition mapped_as_described (cn : Defaults) (cmap : PyDict.t string)
  (b : Batch) (r : result Batch) : Prop :=
  exists b',
    r = Ok b' /\
    PyDict.get b' (ID_COLUMN_NAME cn) = PyDict.get b (ID_COLUMN_NAME cn) /\
    PyDict.get b' (LABEL_COLUMN_NAME cn) = PyDict.get b (ID_COLUMN_NAME cn) /\
    forall k v,
      In (k, v) cmap ->
      (k, v) <> (ID_COLUMN_NAME cn, LABEL_COLUMN_NAME cn) ->
      In k (PyDict.keys b) ->
      PyDict.get b' k = None /\ PyDict.get b' v = PyDict.get b k.

Definition schema_of (cmap : PyDict.t string) : option SqliteTableSchema :=
  Some {| column_map := cmap |}.

Definition empty_store : SpecStore := {| stored_nodes := []; stored_edges := [] |}.

(** [x] is an end point of the edge record [r]. *)
Definition end_point_of (cn : Defaults) (r : Row) (x : pyvalue) : Prop :=
  PyDict.get r (SOURCE_COLUMN_NAME cn) = Some x \/
  PyDict.get r (TARGET_COLUMN_NAME cn) = Some x.

Definition has_end_points (cn : Defaults) (r : Row) : Prop :=
  In (SOURCE_COLUMN_NAME cn) (PyDict.keys r) /\
  In (TARGET_COLUMN_NAME cn) (PyDict.keys r).

(** What the specification says of the store's [insert_edges]: given
    records that have their end points, with whatever identifiers seen so
    far, it succeeds, and every end point that was not among the seen
    identifiers is among those it returns. *)
Definition creates_end_points (cn : Defaults) (S : Type) (store : NetworkData S)
  : Prop :=
  forall data existing s,
    Forall (has_end_points cn) data ->
    exists ids s',
      insert_edges data existing s = (Ok ids, s') /\
      forall r x, In r data -> end_point_of cn r x -> In x existing \/ In x ids.

(** An edges batch that, once mapped, is a table with a source and a
    target column. *)
Definition edges_batch_ready (cn : Defaults) (schema : option SqliteTableSchema)
  (b : Batch) : Prop :=
  exists bd n sources targets,
    map_edges_columns schema b = Ok bd /\
    PyDict.wf bd /\
    rectangular bd n /\
    PyDict.get bd (SOURCE_COLUMN_NAME cn) = Some sources /\
    PyDict.get bd (TARGET_COLUMN_NAME cn) = Some targets.

(** [x] is a cell of the source or of the target column of the edges
    batch [b], after its mapping. *)
Definition batch_end_point (cn : Defaults) (schema : option SqliteTableSchema)
  (b : Batch) (x : pyvalue) : Prop :=
  exists bd col,
    map_edges_columns schema b = Ok bd /\
    (PyDict.get bd (SOURCE_COLUMN_NAME cn) = Some col \/
     PyDict.get bd (TARGET_COLUMN_NAME cn) = Some col) /\
    In x col.

(** The first half of [insert_table_data_into_network_graph]: the loop
    over the batches of the nodes table, when there is one. *)
Definition insert_nodes_table {S : Type} {store : NetworkData S} (cn : Defaults)
  (nodes_table : option pa_Table) (nodes_schema : option SqliteTableSchema)
  (chunk_size : Z) : M S pyset :=
  match nodes_table with
  | Some nt =>
      for_eachM (nodes_batch cn nodes_schema) (to_batches nt chunk_size) []
  | None => ret []
  end.

(** The [<key>] declarations of a document, by what they apply to. *)
Definition key_id (k : dom_node) : string := getAttribute k "id".
Definition key_name (k : dom_node) : string := getAttribute k "attr.name".
Definition key_type (k : dom_node) : string := getAttribute k "attr.type".
Definition for_edge (k : dom_node) : bool := String.eqb (getAttribute k "for") "edge".

Definition edge_keys (root : dom_node) : list dom_node :=
  filter for_edge (getElementsByTagName root "key").

Definition node_keys (root : dom_node) : list dom_node :=
  filter (fun k => negb (for_edge k)) (getElementsByTagName root "key").

(** The relational type of a declaration with a recognized type. *)
Definition sqlite_type (k : dom_node) : string :=
  match convert_graphml_type_to_sqlite (key_type k) with
  | Ok ty => ty
  | Raise _ => ""
  end.

(** The schema entry of a declaration. *)
Definition schema_entry (k : dom_node) : string * PyDict.t string :=
  (key_name k, [("data_type", sqlite_type k)]).

(** Ascending order on strings, as [sorted] compares them. *)
Definition str_le (a b : string) : Prop := String.leb a b = true.

(** Sorting items by a string key, by insertion as [sorted] does. *)
Fixpoint insert_by {A : Type} (f : A -> string) (x : A) (l : list A) : list A :=
  match l with
  | [] => [x]
  | y :: l' => if String.leb (f x) (f y) then x :: l else y :: insert_by f x l'
  end.

Definition sort_by {A : Type} (f : A -> string) (l : list A) : list A :=
  fold_right (insert_by f) [] l.

(** A [<data>] element the parser can read against the identifier-to-name
    map [m]: its key is declared, and its first child, if it has one, is
    character data. *)
Definition data_ok (m : PyDict.t string) (d : dom_node) : Prop :=
  In (getAttribute d "key") (PyDict.keys m) /\
  (forall c, firstChild d = Some c -> exists t, c = Text t).

Definition item_ok (m : PyDict.t string) (item : dom_node) : Prop :=
  forall d, In d (getElementsByTagName item "data") -> data_ok m d.

(** What the two loops over the elements of the graph build. *)
Definition node_read (m : PyDict.t string) (el : dom_node) (n : Node) : Prop :=
  node_id n = getAttribute el "id" /\ read_node_data m el = Ok (node_attr n).

Definition edge_read (m : PyDict.t string) (nodes : list Node) (el : dom_node)
  (e : Edge) : Prop :=
  read_data m el = Ok (edge_attr e) /\
  find_node nodes (getAttribute el "source") = Some (edge_node1 e) /\
  find_node nodes (getAttribute el "target") = Some (edge_node2 e).

(** The document of the examples below: an edge declaration and two node
    declarations, the one with the greater identifier and the lesser name
    first; two nodes, the second with an empty data element; and an edge
    between them. *)
Definition sample_graph : dom_node :=
  Element "graph" [("id", "G")]
    [ Element "node" [("id", "n0")]
        [Element "data" [("key", "d0")] [Text "north"]];
      Element "node" [("id", "n1")]
        [Element "data" [("key", "d0")] []];
      Element "edge" [("source", "n0"); ("target", "n1")]
        [Element "data" [("key", "d1")] [Text "1.0"]] ].

Definition sample_root : dom_node :=
  Element "graphml" []
    [ Element "key"
        [("id", "d1"); ("for", "edge"); ("attr.name", "weight");
         ("attr.type", "double")] [];
      Element "key"
        [("id", "d2"); ("for", "node"); ("attr.name", "area");
         ("attr.type", "int")] [];
      Element "key"
        [("id", "d0"); ("for", "node"); ("attr.name", "zone");
         ("attr.type", "string")] [];
      sample_graph ].

Definition sample_document : Document := {| documentElement := sample_root |}.

(** The identifier-to-name map of a list of declarations. *)
Definition declared_map (ks : list dom_node) : PyDict.t string :=
  map (fun k => (key_id k, key_name k)) ks.

(** A well-formed GraphML document, as far as the parser looks at it: it
    has a [graphml] element with a [graph] element; every declared type
    is one of the six; within the node declarations, and within the edge
    declarations, no identifier and no name is declared twice; the data
    elements of nodes and edges refer to declarations of their kind and
    hold text or nothing; and the two ends of every edge are identifiers
    of nodes. *)
Definition well_formed_graphml (dom : Document) (root graph : dom_node) : Prop :=
  graph_element dom = Ok (root, graph) /\
  (forall k, In k (getElementsByTagName root "key") ->
             In (key_type k) recognized_types) /\
  NoDup (map key_id (node_keys root)) /\
  NoDup (map key_name (node_keys root)) /\
  NoDup (map key_id (edge_keys root)) /\
  NoDup (map key_name (edge_keys root)) /\
  (forall n, In n (getElementsByTagName graph "node") ->
             item_ok (declared_map (node_keys root)) n) /\
  (forall e, In e (getElementsByTagName graph "edge") ->
             item_ok (declared_map (edge_keys root)) e /\
             In (getAttribute e "source")
                (map (fun n => getAttribute n "id") (getElementsByTagName graph "node")) /\
             In (getAttribute e "target")
                (map (fun n => getAttribute n "id") (getElementsByTagName graph "node"))).

(** A schema lists the declarations [ks] in ascending order of their
    identifiers. *)
Definition in_key_id_order (ks : list dom_node) (schema : Schema) : Prop :=
  exists ordered,
    Permutation ordered ks /\
    Sorted (fun a b => str_le (key_id a) (key_id b)) ordered /\
    schema = map schema_entry ordered.

(* ------------------------------------------------------------------ *)
(** ** Further notions: the extractor's exceptions and tables *)




(** The column of attribute [k] over a list of items: the item's value, or
    the placeholder. *)
Definition padded_column {A : Type} (attrs : A -> Attrs) (items : list A)
  (k : string) : list pyvalue :=
  map (fun x => get_default (attrs x) k PyNaN) items.

(* ------------------------------------------------------------------ *)
(** ** Further notions: batches and their records *)

(** The length of the shortest of the columns, none for no column. *)
Fixpoint min_length (cols : list (list pyvalue)) : nat :=
  match cols with
  | [] => 0
  | c :: cs =>
      match cs with
      | [] => length c
      | _ :: _ => Nat.min (length c) (min_length cs)
      end
  end.

(** The target columns of a mapping. *)
Definition targets (cmap : PyDict.t string) : list string := map snd cmap.

(** [x] is a cell of the identifier column of one of the nodes batches
    [l], after its mapping. *)
Definition identifier_of_batches (cn : Defaults) (schema : option SqliteTableSchema)
  (l : list Batch) (x : pyvalue) : Prop :=
  exists b bd ids,
    In b l /\
    map_nodes_columns cn schema b = Ok bd /\
    PyDict.get bd (ID_COLUMN_NAME cn) = Some ids /\
    In x ids.

(** The identifiers the store returns to the edges loop when the loop
    runs over the batches [l] from the seen-set [added] and the store [s]:
    batch after batch, what [insert_edges] returns for the records of the
    batch and the set seen until then. *)
Fixpoint returned_in_run {S : Type} {store : NetworkData S}
  (schema : option SqliteTableSchema) (l : list Batch) (added : pyset) (s : S)
  : list pyvalue :=
  match l with
  | [] => []
  | b :: l' =>
      match map_edges_columns schema b with
      | Raise _ => []
      | Ok bd =>
          match insert_edges (to_rows bd) added s with
          | (Ok ids, s1) =>
              ids ++ returned_in_run schema l' (set_update added ids) s1
          | (Raise _, _) => []
          end
      end
  end.

(* ------------------------------------------------------------------ *)
(** ** Further notions: what the parser reads *)

(** The value a data element gives its attribute: its text, or the empty
    string when it has no child. *)
Definition data_value (d : dom_node) : string :=
  match firstChild d with
  | Some (Text t) => t
  | _ => ""
  end.

(** The name the declarations [ks] give the identifier [id]: that of the
    last declaration with this identifier. *)
Definition declared_name (ks : list dom_node) (id : string) : option string :=
  fold_left
    (fun acc k => if String.eqb (key_id k) id then Some (key_name k) else acc)
    ks None.

(** The relational type the declarations [ks] give the name [name]: that
    of the last declaration with this name. *)
Definition declared_type (ks : list dom_node) (name : string) : option string :=
  fold_left
    (fun acc k => if String.eqb (key_name k) name then Some (sqlite_type k) else acc)
    ks None.

(** The data element [d] of the item [el] names the attribute [x], and no
    later data element of [el] does. *)
Definition last_data_for (lookup : string -> option string) (el : dom_node)
  (x : string) (d : dom_node) : Prop :=
  exists pre post,
    getElementsByTagName el "data" = pre ++ d :: post /\
    lookup (getAttribute d "key") = Some x /\
    forall d', In d' post -> lookup (getAttribute d' "key") <> Some x.

(** The attributes [attrs] are those the data elements of [el] name, each
    with the value of the last data element that names it. *)
Definition attributes_of_item (lookup : string -> option string) (el : dom_node)
  (attrs : PyDict.t string) : Prop :=
  forall x v,
    PyDict.get attrs x = Some v <->
    exists d, last_data_for lookup el x d /\ v = data_value d.

(** The attributes [attrs] of a node: those the data elements of [el]
    name, each with the value of the last data element that names it, and
    the empty label every new node has, unless a data element names the
    label. *)
Definition node_attributes_of_item (lookup : string -> option string)
  (el : dom_node) (attrs : PyDict.t string) : Prop :=
  forall x v,
    PyDict.get attrs x = Some v <->
    (exists d, last_data_for lookup el x d /\ v = data_value d) \/
    (x = "label" /\ v = "" /\
     forall d, In d (getElementsByTagName el "data") ->
               lookup (getAttribute d "key") <> Some "label").

(** The three relational types. *)
Definition sqlite_types : list string := ["INTEGER"; "REAL"; "TEXT"].

(** The schema has one entry for every name the declarations [ks] give
    an identifier, and no other; the entry holds the type the declarations
    give the name, one of the three. *)
Definition schema_of_declarations (ks : list dom_node) (schema : Schema) : Prop :=
  PyDict.wf schema /\
  forall name p,
    PyDict.get schema name = Some p <->
    (exists id, declared_name ks id = Some name) /\
    exists ty,
      declared_type ks name = Some ty /\ In ty sqlite_types /\
      p = [("data_type", ty)].

(** The body of the loop that sorts a schema, [sort_props]. *)
Definition sort_props_step (m : PyDict.t string) (props : Schema)
  (acc : Schema) (key : string) : result Schema :=
  match PyDict.getitem m key with
  | Raise e => Raise e
  | Ok name =>
      match PyDict.getitem props name with
      | Raise e => Raise e
      | Ok p => Ok (PyDict.set acc name p)
      end
  end.

(** An end of an edge: the node at position [i] of the graph carries the
    identifier [id]. *)
Definition end_node (g : Graph) (i : nat) (id : string) : Prop :=
  exists n, nth_error (graph_nodes g) i = Some n /\ node_id n = id.

(* ================================================================== *)
(** * Properties *)

(** ** Facts about dictionaries *)

Module PyDictFacts.
Import PyDict.

Section Facts.
Variable V : Type.
Implicit Types (d : PyDict.t V) (k : string) (v : V).

Lemma get_set_same d k v : get (set d k v) k = Some v.
Proof.
  induction d as [|[k' v'] d IH]; simpl.
  - now rewrite String.eqb_refl.
  - destruct (String.eqb k k') eqn:E; simpl.
    + now rewrite String.eqb_refl.
    + now rewrite E.
Qed.

Lemma get_set_other d k v k' : k' <> k -> get (set d k v) k' = get d k'.
Proof.
  intros Hne.
  induction d as [|[k0 v0] d IH]; simpl.
  - destruct (String.eqb_spec k' k); [contradiction | reflexivity].
  - destruct (String.eqb_spec k k0) as [->|Hk]; simpl.
    + destruct (String.eqb_spec k' k0); [contradiction | reflexivity].
    + destruct (String.eqb_spec k' k0); [reflexivity | exact IH].
Qed.

Lemma get_remove_same d k : get (remove d k) k = None.
Proof.
  unfold remove.
  induction d as [|[k' v'] d IH]; simpl; [reflexivity|].
  destruct (String.eqb k k') eqn:E; simpl; [exact IH|].
  now rewrite E.
Qed.

Lemma get_remove_other d k k' : k' <> k -> get (remove d k) k' = get d k'.
Proof.
  intros Hne. unfold remove.
  induction d as [|[k0 v0] d IH]; simpl; [reflexivity|].
  destruct (String.eqb_spec k k0) as [->|Hk]; simpl.
  - destruct (String.eqb_spec k' k0); [contradiction | exact IH].
  - destruct (String.eqb_spec k' k0); [reflexivity | exact IH].
Qed.

Lemma get_none_iff d k : get d k = None <-> ~ In k (keys d).
Proof.
  induction d as [|[k' v'] d IH]; simpl.
  - tauto.
  - destruct (String.eqb_spec k k') as [->|Hk].
    + split; [discriminate | intros H; exfalso; apply H; now left].
    + rewrite IH. split.
      * intros H [E|I]; [now apply Hk | now apply H].
      * intros H I. apply H. now right.
Qed.

Lemma get_some_in_keys d k v : get d k = Some v -> In k (keys d).
Proof.
  intros H. destruct (in_dec string_dec k (keys d)) as [I|N]; [exact I|].
  apply get_none_iff in N. congruence.
Qed.

Lemma in_keys_get d k : In k (keys d) -> exists v, get d k = Some v.
Proof.
  intros I. destruct (get d k) as [v|] eqn:E; [now exists v|].
  apply get_none_iff in E. contradiction.
Qed.

Lemma contains_true_iff d k : contains d k = true <-> In k (keys d).
Proof.
  unfold contains. split.
  - destruct (get d k) eqn:E; [intros _; eapply get_some_in_keys; eauto | discriminate].
  - intros I. destruct (in_keys_get _ _ I) as [v ->]. reflexivity.
Qed.

Lemma contains_false_iff d k : contains d k = false <-> get d k = None.
Proof.
  unfold contains. destruct (get d k); split; congruence.
Qed.

Lemma set_absent d k v : get d k = None -> set d k v = d ++ [(k, v)].
Proof.
  induction d as [|[k' v'] d IH]; simpl; [reflexivity|].
  destruct (String.eqb k k'); [discriminate|].
  intros H. now rewrite IH.
Qed.

Lemma keys_set_present d k v : In k (keys d) -> keys (set d k v) = keys d.
Proof.
  induction d as [|[k' v'] d IH]; simpl; [tauto|].
  destruct (String.eqb_spec k k') as [->|Hk]; simpl; [reflexivity|].
  intros [E|I]; [congruence|]. now rewrite IH.
Qed.

Lemma in_keys_set d k v k' : In k' (keys (set d k v)) <-> k' = k \/ In k' (keys d).
Proof.
  destruct (in_dec string_dec k (keys d)) as [I|N].
  - rewrite keys_set_present by exact I. split; [tauto|]. intros [->|H]; assumption.
  - apply get_none_iff in N. rewrite set_absent by exact N.
    unfold keys. rewrite map_app, in_app_iff. simpl. intuition.
Qed.

Lemma wf_set d k v : wf d -> wf (set d k v).
Proof.
  unfold wf. intros W.
  destruct (in_dec string_dec k (keys d)) as [I|N].
  - now rewrite keys_set_present.
  - pose proof N as N'. apply get_none_iff in N'. rewrite set_absent by exact N'.
    unfold keys. rewrite map_app. simpl.
    apply NoDup_app; [exact W | repeat constructor; simpl; tauto |].
    intros x Hx [E|[]]. subst. contradiction.
Qed.

Lemma in_keys_remove d k k' : In k' (keys (remove d k)) <-> k' <> k /\ In k' (keys d).
Proof.
  unfold remove, keys. rewrite !in_map_iff. split.
  - intros [[a b] [E I]]. apply filter_In in I. destruct I as [I F]. simpl in *. subst.
    split.
    + intros ->. now rewrite String.eqb_refl in F.
    + exists (k', b). auto.
  - intros [Hne [[a b] [E I]]]. simpl in E. subst. exists (k', b). split; [reflexivity|].
    apply filter_In. split; [exact I|]. simpl.
    destruct (String.eqb_spec k k'); [congruence | reflexivity].
Qed.

Lemma wf_remove d k : wf d -> wf (remove d k).
Proof.
  unfold wf, remove, keys.
  induction d as [|[k' v'] d IH]; simpl; intros W; [constructor|].
  inversion W as [|? ? Hn W']; subst.
  destruct (String.eqb k k'); simpl; [now apply IH|].
  constructor; [|now apply IH].
  intros I. apply Hn. apply in_map_iff in I. destruct I as [x [E I]].
  apply filter_In in I. apply in_map_iff. exists x. tauto.
Qed.

End Facts.
End PyDictFacts.

(* ------------------------------------------------------------------ *)
(** ** The type mapper *)

(** C5: the type mapper sends boolean, int and long to INTEGER, float and
    double to REAL and string to TEXT, and on every string outside these
    six it fails with a lookup error ([KeyError]). *)
Theorem C5_type_mapper :
  convert_graphml_type_to_sqlite "boolean" = Ok "INTEGER" /\
  convert_graphml_type_to_sqlite "int" = Ok "INTEGER" /\
  convert_graphml_type_to_sqlite "long" = Ok "INTEGER" /\
  convert_graphml_type_to_sqlite "float" = Ok "REAL" /\
  convert_graphml_type_to_sqlite "double" = Ok "REAL" /\
  convert_graphml_type_to_sqlite "string" = Ok "TEXT" /\
  (forall s, ~ In s recognized_types ->
             convert_graphml_type_to_sqlite s = Raise (KeyError s)) /\
  (forall s t, convert_graphml_type_to_sqlite s = Ok t -> In s recognized_types).
Proof.
  repeat (split; [reflexivity|]).
  assert (H : forall s, ~ In s recognized_types ->
                        convert_graphml_type_to_sqlite s = Raise (KeyError s)).
  { intros s Hs.
    unfold convert_graphml_type_to_sqlite, PyDict.getitem, type_map.
    simpl.
    repeat match goal with
           | |- context [String.eqb s ?c] =>
               destruct (String.eqb_spec s c) as [->|_];
               [exfalso; apply Hs; unfold recognized_types; simpl; tauto|]
           end.
    reflexivity. }
  split; [exact H|].
  intros s t Hst.
  destruct (in_dec string_dec s recognized_types) as [I|N]; [exact I|].
  rewrite (H s N) in Hst. discriminate.
Qed.

(* ------------------------------------------------------------------ *)
(** ** The table extractor *)

Section ExtractorFacts.
Import PyDict PyDictFacts.

Lemma union_keys_spec ds k : In k (union_keys ds) <-> attribute_of ds k.
Proof.
  unfold union_keys, attribute_of. rewrite nodup_In, in_flat_map. reflexivity.
Qed.

Lemma union_keys_NoDup ds : NoDup (union_keys ds).
Proof. apply NoDup_nodup. Qed.

Lemma in_set_true_iff k s : in_set k s = true <-> In k s.
Proof.
  unfold in_set. rewrite existsb_exists. split.
  - intros [x [I E]]. apply String.eqb_eq in E. now subst.
  - intros I. exists k. split; [exact I | apply String.eqb_refl].
Qed.

Lemma in_set_false_iff k s : in_set k s = false <-> ~ In k s.
Proof.
  rewrite <- in_set_true_iff. destruct (in_set k s); split; congruence.
Qed.

Lemma get_keyed (V : Type) (f : string -> V) names k :
  get (map (fun x => (x, f x)) names) k = if in_dec string_dec k names then Some (f k) else None.
Proof.
  induction names as [|x names IH]; simpl; [reflexivity|].
  destruct (String.eqb_spec k x) as [->|Hk].
  - destruct (string_dec x x); [reflexivity | congruence].
  - rewrite IH. destruct (string_dec x k); [congruence|].
    destruct (in_dec string_dec k names); reflexivity.
Qed.

Lemma keys_keyed (V : Type) (f : string -> V) names :
  keys (map (fun x => (x, f x)) names) = names.
Proof.
  unfold keys. rewrite map_map. simpl. apply map_id.
Qed.

Lemma get_update (V : Type) (e d : PyDict.t V) k :
  wf e ->
  get (update d e) k = match get e k with Some v => Some v | None => get d k end.
Proof.
  unfold update, wf. revert d.
  induction e as [|[k0 v0] e IH]; intros d W; simpl; [reflexivity|].
  inversion W as [|? ? Hn W']; subst.
  rewrite IH by exact W'.
  destruct (String.eqb_spec k k0) as [->|Hk].
  - apply get_none_iff in Hn. rewrite Hn. apply get_set_same.
  - rewrite get_set_other by exact Hk. reflexivity.
Qed.

Lemma nth_error_padded (A : Type) (f : A -> Attrs) (l : list A) k i x :
  nth_error l i = Some x ->
  nth_error (map (fun e => get_default (f e) k PyNaN) l) i
  = Some (get_default (f x) k PyNaN).
Proof.
  intros H. rewrite nth_error_map, H. reflexivity.
Qed.

End ExtractorFacts.

(* ------------------------------------------------------------------ *)
(** ** The table library: which mappings become tables *)

Section ArrowFacts.
Import PyDict PyDictFacts.

Lemma for_each_unit (A : Type) (f : A -> result unit) l :
  for_each (fun _ v => f v) l tt = Ok tt <-> Forall (fun v => f v = Ok tt) l.
Proof.
  induction l as [|a l IH]; simpl; [split; [constructor | reflexivity]|].
  destruct (f a) as [[]|e] eqn:E.
  - rewrite IH. split; [now constructor | now inversion 1].
  - split; [discriminate | inversion 1; congruence].
Qed.

Lemma for_each_unit_raises (A : Type) (f : A -> result unit) l e :
  for_each (fun _ v => f v) l tt = Raise e -> exists a, In a l /\ f a = Raise e.
Proof.
  induction l as [|a l IH]; simpl; [discriminate|].
  destruct (f a) as [[]|e'] eqn:E.
  - intros H. destruct (IH H) as [a' [I Ha]]. exists a'. split; [now right | exact Ha].
  - intros H. inversion H; subst. exists a. split; [now left | exact E].
Qed.

Lemma infer_type_seen cells : infer_type true cells <> arrow_null /\
                              infer_type true cells <> arrow_string.
Proof.
  induction cells as [|[z|s|] cells IH]; simpl; try exact IH; split; discriminate.
Qed.

Lemma infer_type_strings b cells :
  Forall is_str cells ->
  cells = [] \/ infer_type b cells = (if b then arrow_int64 else arrow_string).
Proof.
  intros H. destruct H as [|[z|s|] cells Hv _]; [now left | destruct Hv | | destruct Hv].
  right. reflexivity.
Qed.

Lemma infer_type_integers cells : forall b,
  Forall is_num cells -> ~ In PyNaN cells ->
  infer_type b cells = arrow_int64 \/ infer_type b cells = arrow_null.
Proof.
  induction cells as [|[z|s|] cells IH]; intros b H N; simpl.
  - destruct b; [now left | now right].
  - inversion H; subst. apply IH; [assumption|]. intros I. apply N. now right.
  - inversion H as [|? ? Hv _]. destruct Hv.
  - exfalso. apply N. now left.
Qed.

Lemma infer_type_doubles cells : forall b,
  Forall is_num cells -> In PyNaN cells -> infer_type b cells = arrow_double.
Proof.
  induction cells as [|[z|s|] cells IH]; intros b H I; simpl.
  - destruct I.
  - inversion H; subst. destruct I as [E|I]; [discriminate|]. now apply IH.
  - inversion H as [|? ? Hv _]. destruct Hv.
  - reflexivity.
Qed.

Lemma infer_type_double_has_nan cells : forall b,
  infer_type b cells = arrow_double -> In PyNaN cells.
Proof.
  induction cells as [|[z|s|] cells IH]; intros b H; simpl in H.
  - destruct b; discriminate.
  - right. now apply (IH true).
  - destruct b; discriminate.
  - now left.
Qed.

Lemma exact_double_spec z : exact_double z = true <-> (Z.abs z <= 2 ^ 53)%Z.
Proof. unfold exact_double. apply Z.leb_le. Qed.

(** The columns the library makes an array of. *)
Lemma asarray_accepts col : asarray col = Ok tt <-> accepted_column col.
Proof.
  unfold asarray. rewrite for_each_unit. split.
  - intros H. destruct (infer_type false col) eqn:Ty.
    + left. destruct col as [|[z|s|] col]; [constructor| | |]; simpl in Ty;
        try discriminate.
      exfalso. now apply (proj1 (infer_type_seen col)).
    + right. split.
      * eapply Forall_impl; [|exact H]. intros [z|s|]; simpl; try discriminate; auto.
      * intros I. exfalso. rewrite Forall_forall in H.
        specialize (H _ I). discriminate.
    + right. split.
      * eapply Forall_impl; [|exact H]. intros [z|s|]; simpl; try discriminate; auto.
      * intros _. eapply Forall_impl; [|exact H]. intros [z|s|]; simpl; auto.
        destruct (exact_double z) eqn:E; [|discriminate].
        intros _. now apply exact_double_spec.
    + left. eapply Forall_impl; [|exact H].
      intros [z|s|]; simpl; try discriminate; auto.
  - intros [Hs|[Hn Hx]].
    + destruct (infer_type_strings false col Hs) as [-> | ->]; [constructor|].
      eapply Forall_impl; [|exact Hs]. intros [z|s|] Hv; simpl; try destruct Hv.
      reflexivity.
    + destruct (in_dec pyvalue_eq_dec PyNaN col) as [I|N].
      * rewrite (infer_type_doubles col false Hn I).
        specialize (Hx I). rewrite Forall_forall in *.
        intros [z|s|] Iv; simpl; [|destruct (Hn _ Iv)|reflexivity].
        specialize (Hx _ Iv). simpl in Hx. apply exact_double_spec in Hx.
        now rewrite Hx.
      * assert (Hall : Forall (fun v => exists z, v = PyInt z) col).
        { rewrite Forall_forall in *. intros [z|s|] Iv;
            [now exists z | destruct (Hn _ Iv) | contradiction]. }
        destruct (infer_type_integers col false Hn N) as [-> | ->];
          eapply Forall_impl; try exact Hall; intros v [z ->]; reflexivity.
Qed.

Lemma asarray_raises col e :
  asarray col = Raise e -> e = ArrowInvalid \/ e = ArrowTypeError.
Proof.
  unfold asarray. intros H.
  destruct (for_each_unit_raises _ _ _ _ H) as [v [_ Hv]].
  destruct (infer_type false col), v as [z|s|]; simpl in Hv;
    try discriminate; try (inversion Hv; auto; fail).
  destruct (exact_double z); [discriminate | inversion Hv; auto].
Qed.

Lemma in_values_get (V : Type) (d : PyDict.t V) c :
  wf d -> (In c (values d) <-> exists k, get d k = Some c).
Proof.
  intros W. induction d as [|[k0 c0] d IH]; simpl.
  - split; [intros [] | intros [k H]; discriminate].
  - unfold wf in W. simpl in W. apply NoDup_cons_iff in W.
    destruct W as [Hn W']. split.
    + intros [<-|I].
      * exists k0. now rewrite String.eqb_refl.
      * apply (IH W') in I. destruct I as [k Hk]. exists k.
        destruct (String.eqb_spec k k0) as [E|_]; [|exact Hk].
        exfalso. apply Hn. rewrite <- E. eapply get_some_in_keys. exact Hk.
    + intros [k Hk]. revert Hk. destruct (String.eqb k k0); intros Hk.
      * left. now inversion Hk.
      * right. apply (IH W'). now exists k.
Qed.

Lemma rectangular_same_lengths (m : PyDict.t (list pyvalue)) n :
  wf m -> rectangular m n -> same_lengths (values m) = true.
Proof.
  intros W R.
  assert (H : Forall (fun c => length c = n) (values m)).
  { apply Forall_forall. intros c I. apply (in_values_get _ m c W) in I.
    destruct I as [k Hk]. exact (R k c Hk). }
  destruct (values m) as [|c cs]; [reflexivity|]. simpl.
  inversion H as [|? ? Hc Hcs]; subst.
  apply forallb_forall. intros c' I. rewrite Forall_forall in Hcs.
  rewrite (Hcs c' I). apply Nat.eqb_refl.
Qed.

(** A table is built of a rectangular mapping exactly when every column
    is accepted; the table is then the mapping, and else the library
    raises one of its two errors. *)
Lemma from_pydict_spec (m : PyDict.t (list pyvalue)) n :
  wf m -> rectangular m n ->
  (accepted_by_arrow m -> from_pydict m = Ok m) /\
  (forall t, from_pydict m = Ok t -> t = m /\ accepted_by_arrow m) /\
  (forall e, from_pydict m = Raise e -> e = ArrowInvalid \/ e = ArrowTypeError).
Proof.
  intros W R. unfold from_pydict.
  rewrite (rectangular_same_lengths m n W R).
  destruct (for_each (fun _ col => asarray col) (values m) tt) as [[]|e0] eqn:E.
  - apply for_each_unit in E. rewrite Forall_forall in E.
    assert (A : accepted_by_arrow m).
    { intros k col Hk. apply asarray_accepts. apply E.
      apply (in_values_get _ m col W). now exists k. }
    split; [reflexivity|]. split; [|discriminate].
    intros t H. injection H as <-. split; [reflexivity | exact A].
  - split; [|split].
    + intros A. exfalso.
      destruct (for_each_unit_raises _ _ _ _ E) as [col [I Hc]].
      apply (in_values_get _ m col W) in I. destruct I as [k Hk].
      apply A, asarray_accepts in Hk. congruence.
    + discriminate.
    + intros e H. inversion H; subst.
      destruct (for_each_unit_raises _ _ _ _ E) as [col [_ Hc]].
      exact (asarray_raises _ _ Hc).
Qed.

End ArrowFacts.

(** C1: an edge attribute named like the reserved source column makes the
    extraction of the edges table fail with a naming-conflict error, but
    one named like the reserved target column does not: the second guard
    tests the source name again, the extraction succeeds and the
    attribute's values replace the target column. *)
Theorem C1_target_name_is_not_guarded (cn : Defaults) :
  (forall g,
      attribute_of (map edge_dict (edges_data g)) (SOURCE_COLUMN_NAME cn) ->
      extract_edges_as_table cn g
      = Raise (NetworkXError
                 ("Source name " ++ SOURCE_COLUMN_NAME cn ++ " is an edge attribute name"))) /\
  (SOURCE_COLUMN_NAME cn <> TARGET_COLUMN_NAME cn ->
   forall nodes s t v,
     extract_edges_as_table cn
       {| nodes_data := nodes;
          edges_data := [(s, t, [(TARGET_COLUMN_NAME cn, v)])] |}
     = Ok [(SOURCE_COLUMN_NAME cn, [s]); (TARGET_COLUMN_NAME cn, [v])]).
Proof.
  split.
  - intros g H. unfold extract_edges_as_table.
    apply union_keys_spec, in_set_true_iff in H. now rewrite H.
  - intros Hne nodes s t v.
    unfold extract_edges_as_table, union_keys. simpl.
    destruct (String.eqb_spec (SOURCE_COLUMN_NAME cn) (TARGET_COLUMN_NAME cn))
      as [E|_]; [contradiction|].
    simpl. unfold from_pydict, PyDict.update, get_default, edge_dict. simpl.
    destruct (String.eqb_spec (TARGET_COLUMN_NAME cn) (SOURCE_COLUMN_NAME cn))
      as [E|_]; [symmetry in E; contradiction|].
    simpl. rewrite !String.eqb_refl.
    destruct (String.eqb_spec (TARGET_COLUMN_NAME cn) (SOURCE_COLUMN_NAME cn))
      as [E|_]; [symmetry in E; contradiction|].
    unfold edge_source. simpl. destruct s, v; reflexivity.
Qed.

(** The default column names: an edge with an attribute called [target]
    yields a table whose target column holds the attribute, not the end
    node. *)
Lemma C1_target_name_witness :
  extract_edges_as_table defaults
    {| nodes_data := [];
       edges_data := [(PyStr "a", PyStr "b", [("target", PyStr "x")])] |}
  = Ok [("source", [PyStr "a"]); ("target", [PyStr "x"])].
Proof.
  apply (proj2 (C1_target_name_is_not_guarded defaults)).
  simpl. discriminate.
Defined.

Section UpdateFacts.
Import PyDict PyDictFacts.
Variable V : Type.

Lemma wf_update (d e : PyDict.t V) : wf d -> wf (update d e).
Proof.
  unfold update. revert d.
  induction e as [|[k v] e IH]; intros d W; simpl; [exact W|].
  apply IH. now apply wf_set.
Qed.

Lemma in_keys_update (d e : PyDict.t V) k :
  In k (keys (update d e)) <-> In k (keys d) \/ In k (keys e).
Proof.
  unfold update. revert d.
  induction e as [|[k0 v0] e IH]; intros d; simpl; [tauto|].
  rewrite IH, in_keys_set. intuition.
Qed.

End UpdateFacts.

(** A column that holds a string and the placeholder is not accepted. *)
Lemma mixed_cells_refused (m : PyDict.t (list pyvalue)) k i j s :
  cell m k i = Some (PyStr s) -> cell m k j = Some PyNaN ->
  ~ accepted_by_arrow m.
Proof.
  unfold cell. intros Hi Hj A.
  destruct (PyDict.get m k) as [col|] eqn:G; [|discriminate].
  apply nth_error_In in Hi, Hj.
  destruct (A k col G) as [Hs|[Hn _]]; rewrite Forall_forall in *.
  - exact (Hs _ Hj).
  - exact (Hn _ Hi).
Qed.

(** How the extraction ends once the guards are passed and the mapping
    [m] is handed to the table library. *)
Lemma extraction_outcome (m : PyDict.t (list pyvalue)) n (r : result ColumnTable) :
  PyDict.wf m -> rectangular m n -> r = from_pydict m ->
  (accepted_by_arrow m -> r = Ok m) /\
  (forall t, r = Ok t -> t = m /\ accepted_by_arrow m) /\
  (forall e, r = Raise e -> e = ArrowInvalid \/ e = ArrowTypeError) /\
  (forall k i j s,
      cell m k i = Some (PyStr s) -> cell m k j = Some PyNaN ->
      exists e, r = Raise e).
Proof.
  intros W R ->. destruct (from_pydict_spec m n W R) as [A1 [A2 A3]].
  split; [exact A1|]. split; [exact A2|]. split; [exact A3|].
  intros k i j s Hi Hj.
  destruct (from_pydict m) as [t|e] eqn:E; [|now exists e].
  exfalso. apply (mixed_cells_refused m k i j s Hi Hj).
  exact (proj2 (A2 t eq_refl)).
Qed.

(** C7: when no attribute carries a reserved name, the mapping the
    extractor hands to the table library has the reserved columns and
    one column for every attribute name found on any node (any edge), no
    column twice; every column has one cell per node (edge); and in the
    column of an attribute the row of an item that has the attribute holds
    its value, the row of an item that lacks it holds the not-a-number
    placeholder.  A table is returned exactly when the library accepts
    every column, and it is this mapping; otherwise the extraction raises
    the library's error, and it does so whenever an attribute that is a
    string for one item is lacking on another. *)
Theorem C7_extracted_tables (cn : Defaults) (g : nx_Graph) :
  (~ attribute_of (map snd (nodes_data g)) (ID_COLUMN_NAME cn) ->
   ~ attribute_of (map snd (nodes_data g)) (SOURCE_COLUMN_NAME cn) ->
   exists m,
     extract_nodes_as_table cn g = from_pydict m /\
     PyDict.wf m /\
     (forall k, In k (PyDict.keys m) <->
                k = ID_COLUMN_NAME cn \/ attribute_of (map snd (nodes_data g)) k) /\
     rectangular m (length (nodes_data g)) /\
     (forall k, attribute_of (map snd (nodes_data g)) k ->
                forall i n, nth_error (nodes_data g) i = Some n ->
                            padded_cell m k i (snd n)) /\
     (accepted_by_arrow m -> extract_nodes_as_table cn g = Ok m) /\
     (forall t, extract_nodes_as_table cn g = Ok t -> t = m /\ accepted_by_arrow m) /\
     (forall e, extract_nodes_as_table cn g = Raise e ->
                e = ArrowInvalid \/ e = ArrowTypeError) /\
     (forall k i j s,
         cell m k i = Some (PyStr s) -> cell m k j = Some PyNaN ->
         exists e, extract_nodes_as_table cn g = Raise e))
  /\
  (~ attribute_of (map edge_dict (edges_data g)) (SOURCE_COLUMN_NAME cn) ->
   exists m,
     extract_edges_as_table cn g = from_pydict m /\
     PyDict.wf m /\
     (forall k, In k (PyDict.keys m) <->
                k = SOURCE_COLUMN_NAME cn \/ k = TARGET_COLUMN_NAME cn \/
                attribute_of (map edge_dict (edges_data g)) k) /\
     rectangular m (length (edges_data g)) /\
     (forall k, attribute_of (map edge_dict (edges_data g)) k ->
                forall i e, nth_error (edges_data g) i = Some e ->
                            padded_cell m k i (edge_dict e)) /\
     (accepted_by_arrow m -> extract_edges_as_table cn g = Ok m) /\
     (forall t, extract_edges_as_table cn g = Ok t -> t = m /\ accepted_by_arrow m) /\
     (forall e, extract_edges_as_table cn g = Raise e ->
                e = ArrowInvalid \/ e = ArrowTypeError) /\
     (forall k i j s,
         cell m k i = Some (PyStr s) -> cell m k j = Some PyNaN ->
         exists e, extract_edges_as_table cn g = Raise e)).
Proof.
  split.
  - intros Hid Hsrc.
    set (names := union_keys (map snd (nodes_data g))).
    set (col := fun k => map (fun n : pyvalue * Attrs => get_default (snd n) k PyNaN)
                             (nodes_data g)).
    set (m := PyDict.set (map (fun k => (k, col k)) names)
                         (ID_COLUMN_NAME cn) (map fst (nodes_data g))).
    assert (E : extract_nodes_as_table cn g = from_pydict m).
    { unfold extract_nodes_as_table.
      rewrite <- union_keys_spec in Hid, Hsrc.
      apply in_set_false_iff in Hid, Hsrc. now rewrite Hid, Hsrc. }
    assert (W : PyDict.wf m).
    { apply PyDictFacts.wf_set. unfold PyDict.wf. rewrite keys_keyed.
      apply union_keys_NoDup. }
    assert (R : rectangular m (length (nodes_data g))).
    { intros k c Hc. unfold m in Hc.
      destruct (string_dec k (ID_COLUMN_NAME cn)) as [->|Hk].
      - rewrite PyDictFacts.get_set_same in Hc. inversion Hc. apply length_map.
      - rewrite PyDictFacts.get_set_other, get_keyed in Hc by exact Hk.
        destruct (in_dec string_dec k names); [|discriminate].
        inversion Hc. unfold col. apply length_map. }
    exists m. split; [exact E|]. split; [exact W|].
    split; [|split; [exact R|split]].
    + intros k. unfold m. rewrite PyDictFacts.in_keys_set, keys_keyed.
      unfold names. rewrite union_keys_spec. reflexivity.
    + intros k Hk i n Hn.
      apply union_keys_spec in Hk. fold names in Hk.
      assert (Hne : k <> ID_COLUMN_NAME cn).
      { intros ->. apply Hid. now apply union_keys_spec. }
      assert (Hcell : cell m k i = Some (get_default (snd n) k PyNaN)).
      { unfold cell, m. rewrite PyDictFacts.get_set_other, get_keyed by exact Hne.
        destruct (in_dec string_dec k names); [|contradiction].
        unfold col. now apply nth_error_padded. }
      unfold padded_cell. rewrite Hcell. unfold get_default.
      split; [intros v Hv | intros Hv]; now rewrite Hv.
    + exact (extraction_outcome m _ _ W R E).
  - intros Hsrc.
    set (names := union_keys (map edge_dict (edges_data g))).
    set (col := fun k => map (fun e : pyvalue * pyvalue * Attrs =>
                                get_default (edge_dict e) k PyNaN) (edges_data g)).
    set (base := PyDict.set
                   (PyDict.set PyDict.empty (SOURCE_COLUMN_NAME cn)
                               (map edge_source (edges_data g)))
                   (TARGET_COLUMN_NAME cn) (map edge_target (edges_data g))).
    set (m := PyDict.update base (map (fun k => (k, col k)) names)).
    assert (E : extract_edges_as_table cn g = from_pydict m).
    { unfold extract_edges_as_table.
      rewrite <- union_keys_spec in Hsrc.
      apply in_set_false_iff in Hsrc. now rewrite Hsrc. }
    assert (Wk : PyDict.wf (map (fun k => (k, col k)) names)).
    { unfold PyDict.wf. rewrite keys_keyed. apply union_keys_NoDup. }
    assert (W : PyDict.wf m).
    { apply wf_update. unfold base. do 2 apply PyDictFacts.wf_set. constructor. }
    assert (R : rectangular m (length (edges_data g))).
    { intros k c Hc. unfold m in Hc. rewrite get_update, get_keyed in Hc by exact Wk.
      destruct (in_dec string_dec k names).
      - inversion Hc. unfold col. apply length_map.
      - unfold base in Hc.
        destruct (string_dec k (TARGET_COLUMN_NAME cn)) as [->|Ht].
        { rewrite PyDictFacts.get_set_same in Hc. inversion Hc. apply length_map. }
        rewrite PyDictFacts.get_set_other in Hc by exact Ht.
        destruct (string_dec k (SOURCE_COLUMN_NAME cn)) as [->|Hs].
        { rewrite PyDictFacts.get_set_same in Hc. inversion Hc. apply length_map. }
        rewrite PyDictFacts.get_set_other in Hc by exact Hs. discriminate. }
    exists m. split; [exact E|]. split; [exact W|].
    split; [|split; [exact R|split]].
    + intros k. unfold m. rewrite in_keys_update, keys_keyed. unfold base.
      rewrite !PyDictFacts.in_keys_set. unfold names. rewrite union_keys_spec.
      simpl. tauto.
    + intros k Hk i e He.
      apply union_keys_spec in Hk. fold names in Hk.
      assert (Hcell : cell m k i = Some (get_default (edge_dict e) k PyNaN)).
      { unfold cell, m. rewrite get_update, get_keyed by exact Wk.
        destruct (in_dec string_dec k names); [|contradiction].
        unfold col. now apply nth_error_padded. }
      unfold padded_cell. rewrite Hcell. unfold get_default.
      split; [intros v Hv | intros Hv]; now rewrite Hv.
    + exact (extraction_outcome m _ _ W R E).
Qed.

(** Node [A] has a weight, a number, and node [B] has none: the table is
    returned, and the weight column holds [A]'s weight and the placeholder
    for [B].  The example of the description, where node [A] has the
    colour [red], a string, and node [B] has none: the colour column would
    hold the string and the placeholder, the table library refuses it, and
    the extraction raises its type error instead of returning a table. *)
Lemma C7_witness :
  (exists t,
      extract_nodes_as_table defaults
        {| nodes_data := [(PyStr "A", [("weight", PyInt 3)]); (PyStr "B", [])];
           edges_data := [] |} = Ok t /\
      cell t "weight" 0 = Some (PyInt 3) /\
      cell t "weight" 1 = Some PyNaN)
  /\
  extract_nodes_as_table defaults
    {| nodes_data := [(PyStr "A", [("color", PyStr "red")]); (PyStr "B", [])];
       edges_data := [] |} = Raise ArrowTypeError.
Proof.
  split.
  - set (g := {| nodes_data := [(PyStr "A", [("weight", PyInt 3)]); (PyStr "B", [])];
                 edges_data := [] |}).
    destruct (proj1 (C7_extracted_tables defaults g))
      as [m [_ [_ [_ [_ [Hp [_ [Hok _]]]]]]]].
    + intros [d [Hd Hk]]. simpl in Hd.
      destruct Hd as [<-|[<-|[]]]; simpl in Hk; intuition discriminate.
    + intros [d [Hd Hk]]. simpl in Hd.
      destruct Hd as [<-|[<-|[]]]; simpl in Hk; intuition discriminate.
    + assert (X : extract_nodes_as_table defaults g
                  = Ok [("weight", [PyInt 3; PyNaN]); ("id", [PyStr "A"; PyStr "B"])])
        by (vm_compute; reflexivity).
      destruct (Hok _ X) as [<- _].
      eexists. split; [exact X|].
      assert (Ha : attribute_of (map snd (nodes_data g)) "weight").
      { exists [("weight", PyInt 3)]. simpl. auto. }
      split.
      * apply (proj1 (Hp "weight" Ha 0%nat (PyStr "A", [("weight", PyInt 3)])
                        eq_refl)).
        reflexivity.
      * apply (proj2 (Hp "weight" Ha 1%nat (PyStr "B", []) eq_refl)).
        reflexivity.
  - set (g := {| nodes_data := [(PyStr "A", [("color", PyStr "red")]); (PyStr "B", [])];
                 edges_data := [] |}).
    destruct (proj1 (C7_extracted_tables defaults g))
      as [m [_ [_ [_ [_ [Hp [_ [_ [_ Hmixed]]]]]]]]].
    + intros [d [Hd Hk]]. simpl in Hd.
      destruct Hd as [<-|[<-|[]]]; simpl in Hk; intuition discriminate.
    + intros [d [Hd Hk]]. simpl in Hd.
      destruct Hd as [<-|[<-|[]]]; simpl in Hk; intuition discriminate.
    + assert (Ha : attribute_of (map snd (nodes_data g)) "color").
      { exists [("color", PyStr "red")]. simpl. auto. }
      destruct (Hmixed "color" 0%nat 1%nat "red") as [e He].
      * apply (proj1 (Hp "color" Ha 0%nat (PyStr "A", [("color", PyStr "red")])
                        eq_refl)).
        reflexivity.
      * apply (proj2 (Hp "color" Ha 1%nat (PyStr "B", []) eq_refl)).
        reflexivity.
      * rewrite He. vm_compute in He. inversion He. reflexivity.
Defined.

(* ------------------------------------------------------------------ *)
(** ** The tabular view adapter *)

Lemma rest_within_count (A : Type) (rows : list A) (o : nat) :
  firstn (Z.to_nat (Z.of_nat (length rows))) (skipn o rows) = skipn o rows.
Proof.
  rewrite Nat2Z.id. apply firstn_all2. rewrite length_skipn. lia.
Qed.



(* ------------------------------------------------------------------ *)
(** ** The schema-mapping inserter: applying a column mapping *)

Lemma nodes_column_step_shape cn :
  nodes_column_step cn
  = column_step (is_id_to_label cn) "Duplicate nodes column name after mapping: {v}".
Proof. reflexivity. Qed.

Lemma edges_column_step_shape :
  edges_column_step
  = column_step (fun _ _ => false) "Duplicate edges column name after mapping: {v}".
Proof. reflexivity. Qed.

Lemma is_id_to_label_true cn k v :
  is_id_to_label cn k v = true <-> k = ID_COLUMN_NAME cn /\ v = LABEL_COLUMN_NAME cn.
Proof.
  unfold is_id_to_label. rewrite andb_true_iff, !String.eqb_eq. reflexivity.
Qed.

Lemma for_each_app (A St : Type) (body : St -> A -> result St) l1 l2 s :
  for_each body (l1 ++ l2) s
  = match for_each body l1 s with
    | Ok s1 => for_each body l2 s1
    | Raise e => Raise e
    end.
Proof.
  revert s. induction l1 as [|a l1 IH]; intros s; simpl; [reflexivity|].
  destruct (body s a); [apply IH | reflexivity].
Qed.

Section ColumnStep.
Import PyDict PyDictFacts.
Variable copy : string -> string -> bool.
Variable msg : string.
Local Abbreviation step := (column_step copy msg).

(** What one pair does to the batch. *)
Lemma column_step_cases (b : Batch) k v :
  (get b k = None /\ step b (k, v) = Ok b) \/
  (exists data, get b k = Some data /\ copy k v = true /\
                step b (k, v) = Ok (set b v data)) \/
  (exists data, get b k = Some data /\ copy k v = false /\
                In v (keys (remove b k)) /\ step b (k, v) = Raise (Exception msg)) \/
  (exists data, get b k = Some data /\ copy k v = false /\
                ~ In v (keys (remove b k)) /\
                step b (k, v) = Ok (set (remove b k) v data)).
Proof.
  unfold column_step. simpl.
  destruct (get b k) as [data|]; [|now left].
  right. destruct (copy k v).
  - left. now exists data.
  - right. destruct (contains (remove b k) v) eqn:C.
    + left. exists data. apply contains_true_iff in C. auto.
    + right. exists data. repeat split; auto.
      intros I. apply contains_true_iff in I. congruence.
Qed.

(** A step leaves every column but its source and its target alone. *)
Lemma column_step_frame (b b1 : Batch) k v x :
  step b (k, v) = Ok b1 -> x <> k -> x <> v -> get b1 x = get b x.
Proof.
  intros Hs Hk Hv.
  destruct (column_step_cases b k v)
    as [[_ E]|[[d [_ [_ E]]]|[[d [_ [_ [_ E]]]]|[d [_ [_ [_ E]]]]]]];
    rewrite E in Hs; inversion Hs; subst; try reflexivity.
  - now apply get_set_other.
  - rewrite get_set_other by exact Hv. now apply get_remove_other.
Qed.

(** A column that is not the source of the pair stays in the batch. *)
Lemma column_step_keeps (b b1 : Batch) k v x :
  step b (k, v) = Ok b1 -> x <> k -> In x (keys b) -> In x (keys b1).
Proof.
  intros Hs Hk Hx.
  destruct (column_step_cases b k v)
    as [[_ E]|[[d [_ [_ E]]]|[[d [_ [_ [_ E]]]]|[d [_ [_ [_ E]]]]]]];
    rewrite E in Hs; inversion Hs; subst; try assumption.
  - apply in_keys_set. now right.
  - apply in_keys_set. right. apply in_keys_remove. auto.
Qed.

(** A step adds no column but its target. *)
Lemma column_step_adds (b b1 : Batch) k v x :
  step b (k, v) = Ok b1 -> In x (keys b1) -> x = v \/ In x (keys b).
Proof.
  intros Hs Hx.
  destruct (column_step_cases b k v)
    as [[_ E]|[[d [_ [_ E]]]|[[d [_ [_ [_ E]]]]|[d [_ [_ [_ E]]]]]]];
    rewrite E in Hs; inversion Hs; subst; auto.
  - apply in_keys_set in Hx. tauto.
  - apply in_keys_set in Hx. destruct Hx as [Hx|Hx]; [now left|].
    apply in_keys_remove in Hx. tauto.
Qed.

(** The only exception the mapping raises is the duplicate-column one. *)
Lemma column_map_raises cmap (b : Batch) e :
  for_each step cmap b = Raise e -> e = Exception msg.
Proof.
  revert b. induction cmap as [|[k v] cmap IH]; intros b; simpl; [discriminate|].
  destruct (column_step_cases b k v)
    as [[_ E]|[[d [_ [_ E]]]|[[d [_ [_ [_ E]]]]|[d [_ [_ [_ E]]]]]]];
    rewrite E; try apply IH.
  intros H. now inversion H.
Qed.

Lemma column_map_keeps cmap (b b' : Batch) x :
  for_each step cmap b = Ok b' ->
  ~ In x (map fst cmap) -> In x (keys b) -> In x (keys b').
Proof.
  revert b. induction cmap as [|[k v] cmap IH]; intros b; simpl.
  - intros H _ Hx. now inversion H; subst.
  - destruct (step b (k, v)) as [b1|] eqn:E; [|discriminate].
    intros H Hn Hx. apply (IH b1 H).
    + tauto.
    + eapply column_step_keeps; [exact E | intros ->; tauto | exact Hx].
Qed.

End ColumnStep.

Section ColumnMap.
Import PyDict PyDictFacts.
Variable copy : string -> string -> bool.
Variable msg : string.
Local Abbreviation step := (column_step copy msg).

Lemma column_step_raises (b : Batch) kv e :
  step b kv = Raise e -> e = Exception msg.
Proof.
  destruct kv as [k v]. intros H.
  apply (column_map_raises copy msg [(k, v)] b). simpl. now rewrite H.
Qed.

(** After a step whose source is in the batch, the target is too. *)
Lemma column_step_target (b b1 : Batch) k v :
  step b (k, v) = Ok b1 -> In k (keys b) -> In v (keys b1).
Proof.
  intros Hs Hk. apply in_keys_get in Hk. destruct Hk as [d0 Hd0].
  destruct (column_step_cases copy msg b k v)
    as [[N _]|[[d [_ [_ E]]]|[[d [_ [_ [_ E]]]]|[d [_ [_ [_ E]]]]]]];
    [congruence| | |]; rewrite E in Hs; inversion Hs; subst;
    apply in_keys_set; now left.
Qed.

(** A pair whose source is in the batch, whose target differs from its
    source and, when it moves, is not in the batch: the step succeeds, the
    target gets the source's cells, and the source stays only if the pair
    copies. *)
Lemma column_step_renames (b : Batch) k v data :
  get b k = Some data -> k <> v ->
  (copy k v = false -> ~ In v (keys b)) ->
  exists b1,
    step b (k, v) = Ok b1 /\
    get b1 v = Some data /\
    get b1 k = if copy k v then Some data else None.
Proof.
  intros Hk Hne Hfresh.
  destruct (column_step_cases copy msg b k v)
    as [[N _]|[[d [G [C E]]]|[[d [G [C [I E]]]]|[d [G [C [_ E]]]]]]].
  - congruence.
  - exists (set b v d). rewrite C. assert (d = data) by congruence. subst.
    repeat split; [exact E | apply get_set_same |].
    rewrite get_set_other by exact Hne. exact Hk.
  - exfalso. apply (Hfresh C). apply in_keys_remove in I. tauto.
  - exists (set (remove b k) v d). rewrite C. assert (d = data) by congruence. subst.
    repeat split; [exact E | apply get_set_same |].
    rewrite get_set_other by exact Hne. apply get_remove_same.
Qed.

(** A mapping without chaining, whose applicable pairs have targets that
    are distinct and, for the moved ones, new to the batch, is applied
    without an exception: every applicable pair's target holds the cells of
    its source, the source is gone unless the pair copies, and the columns
    the applicable pairs do not name are as they were. *)
Lemma column_map_renames cmap : forall b : Batch,
  NoDup (map fst cmap) ->
  no_chaining cmap b ->
  distinct_targets cmap b ->
  fresh_targets copy cmap b ->
  exists b',
    for_each step cmap b = Ok b' /\
    (forall k v data,
        In (k, v) cmap -> get b k = Some data ->
        get b' v = Some data /\
        get b' k = if copy k v then Some data else None) /\
    (forall x,
        ~ In x (map fst cmap) ->
        (forall k, In (k, x) cmap -> ~ In k (keys b)) ->
        get b' x = get b x).
Proof.
  induction cmap as [|[k0 v0] rest IH]; intros b ND NC DT FT.
  - exists b. simpl. split; [reflexivity|].
    split; [intros k v data [] | reflexivity].
  - simpl in ND. inversion ND as [|? ? Hk0 ND']; subst.
    assert (Hsrc : forall k v, In (k, v) rest -> k <> k0).
    { intros k v I ->. apply Hk0. apply in_map_iff. now exists (k0, v). }
    assert (Hnk0 : forall k v, In (k, v) rest -> In k (keys b) -> v <> k0).
    { intros k v I Ik. apply (NC k v k0 v0); [now right | exact Ik | now left]. }
    destruct (get b k0) as [data0|] eqn:G0.
    + (* the head pair is applicable *)
      assert (Ik0 : In k0 (keys b)) by (eapply get_some_in_keys; eauto).
      assert (Hv0 : forall k v, In (k, v) rest -> k <> v0).
      { intros k v I E.
        apply (NC k0 v0 k v); [now left | exact Ik0 | now right | congruence]. }
      assert (Hv0src : ~ In v0 (map fst rest)).
      { intros I. apply in_map_iff in I. destruct I as [[k v] [E I]]. simpl in E.
        subst. now apply (Hv0 _ _ I). }
      assert (Hk0v0 : k0 <> v0).
      { intros E. apply (NC k0 v0 k0 v0); [now left | exact Ik0 | now left | congruence]. }
      destruct (column_step_renames b k0 v0 data0 G0 Hk0v0) as [b1 [E1 [T1 S1]]].
      { intros C. apply (FT k0 v0); [now left | exact Ik0 | exact C]. }
      assert (Hsub : forall k v, In (k, v) rest -> In k (keys b1) -> In k (keys b)).
      { intros k v I Ik.
        destruct (column_step_adds copy msg _ _ _ _ _ E1 Ik) as [->|Ik']; [|exact Ik'].
        exfalso. now apply (Hv0 _ _ I). }
      assert (Hother : forall k, In (k, v0) rest -> ~ In k (keys b1)).
      { intros k I Ik. apply (Hsrc _ _ I).
        apply (DT k k0 v0); [now right | now left | eapply Hsub; eauto | exact Ik0]. }
      destruct (IH b1 ND') as [b' [E' [P' F']]].
      { intros k v k' v' I Ik I'.
        apply (NC k v k' v'); [now right | eapply Hsub; eauto | now right]. }
      { intros k k' v I I' Ik Ik'.
        apply (DT k k' v); [now right | now right | eapply Hsub; eauto | eapply Hsub; eauto]. }
      { intros k v I Ik C Iv.
        destruct (column_step_adds copy msg _ _ _ _ _ E1 Iv) as [->|Iv'].
        - now apply (Hother k I).
        - apply (FT k v); [now right | eapply Hsub; eauto | exact C | exact Iv']. }
      exists b'. simpl. rewrite E1. split; [exact E'|]. split.
      * intros k v data [E|I] G.
        { inversion E; subst. assert (data = data0) by congruence. subst. split.
          - rewrite (F' v Hv0src); [exact T1 | exact Hother].
          - rewrite (F' k Hk0); [exact S1|].
            intros k' I' Ik'. apply (Hnk0 k' k I'); [eapply Hsub; eauto | reflexivity]. }
        { apply (P' k v data I).
          rewrite (column_step_frame copy msg _ _ _ _ k E1);
            [exact G | eapply Hsrc; eauto | eapply Hv0; eauto]. }
      * intros x Hx Happ. simpl in Hx.
        assert (x <> k0) by (intros ->; tauto).
        assert (x <> v0).
        { intros ->. apply (Happ k0); [now left | exact Ik0]. }
        rewrite F'.
        { now apply (column_step_frame copy msg _ _ _ _ x E1). }
        { tauto. }
        { intros k I Ik. apply (Happ k); [now right | eapply Hsub; eauto]. }
    + (* the head pair is skipped *)
      assert (E1 : step b (k0, v0) = Ok b).
      { unfold column_step. simpl. now rewrite G0. }
      destruct (IH b ND') as [b' [E' [P' F']]].
      { intros k v k' v' I Ik I'. apply (NC k v k' v'); [now right | exact Ik | now right]. }
      { intros k k' v I I'. apply (DT k k' v); now right. }
      { intros k v I. apply (FT k v). now right. }
      exists b'. simpl. rewrite E1. split; [exact E'|]. split.
      * intros k v data [E|I] G; [inversion E; subst; congruence|].
        now apply P'.
      * intros x Hx Happ. simpl in Hx. apply F'; [tauto|].
        intros k I. apply Happ. now right.
Qed.

(** Two pairs with the same target, both sources in the batch, the target
    not itself a source, the later pair one that moves: the mapping raises
    the duplicate-column exception. *)
Lemma column_map_duplicate l1 l2 l3 k1 k2 v (b : Batch) :
  NoDup (map fst (l1 ++ (k1, v) :: l2 ++ (k2, v) :: l3)) ->
  ~ In v (map fst (l1 ++ (k1, v) :: l2 ++ (k2, v) :: l3)) ->
  In k1 (keys b) -> In k2 (keys b) ->
  copy k2 v = false ->
  for_each step (l1 ++ (k1, v) :: l2 ++ (k2, v) :: l3) b = Raise (Exception msg).
Proof.
  intros ND Hv I1 I2 C.
  rewrite map_app in ND, Hv. simpl in ND, Hv. rewrite map_app in ND, Hv.
  simpl in ND, Hv.
  pose proof (NoDup_remove_2 _ _ _ ND) as N1.
  assert (ND2 : NoDup ((map fst l1 ++ k1 :: map fst l2) ++ k2 :: map fst l3)).
  { rewrite <- app_assoc. exact ND. }
  pose proof (NoDup_remove_2 _ _ _ ND2) as N2.
  rewrite !in_app_iff in N1, N2, Hv. simpl in N1, N2, Hv. rewrite !in_app_iff in N1, Hv.
  simpl in N1, Hv.
  rewrite for_each_app.
  destruct (for_each step l1 b) as [b1|e] eqn:E1;
    [|apply column_map_raises in E1; now subst].
  assert (A1 : ~ In k1 (map fst l1)) by tauto.
  assert (A2 : ~ In k2 (map fst l1) /\ k1 <> k2 /\ ~ In k2 (map fst l2)).
  { repeat split; intros X; apply N2; left; apply in_app_iff;
      [left; exact X | right; left; exact X | right; right; exact X]. }
  destruct A2 as [A2 [A3 A4]].
  assert (I1' : In k1 (keys b1))
    by (apply (column_map_keeps copy msg l1 b b1 k1 E1); assumption).
  assert (I2' : In k2 (keys b1))
    by (apply (column_map_keeps copy msg l1 b b1 k2 E1); assumption).
  simpl.
  destruct (step b1 (k1, v)) as [b2|e] eqn:E2;
    [|apply column_step_raises in E2; now subst].
  assert (Iv2 : In v (keys b2))
    by (apply (column_step_target b1 b2 k1 v E2 I1')).
  assert (I2'' : In k2 (keys b2)).
  { apply (column_step_keeps copy msg b1 b2 k1 v k2 E2); [congruence | exact I2']. }
  rewrite for_each_app.
  destruct (for_each step l2 b2) as [b3|e] eqn:E3;
    [|apply column_map_raises in E3; now subst].
  assert (Iv3 : In v (keys b3))
    by (apply (column_map_keeps copy msg l2 b2 b3 v E3); [tauto | exact Iv2]).
  assert (I23 : In k2 (keys b3))
    by (apply (column_map_keeps copy msg l2 b2 b3 k2 E3); assumption).
  simpl.
  destruct (column_step_cases copy msg b3 k2 v)
    as [[N _]|[[d [_ [C' _]]]|[[d [_ [_ [_ E]]]]|[d [_ [_ [Hn _]]]]]]].
  - apply get_none_iff in N. contradiction.
  - congruence.
  - now rewrite E.
  - exfalso. apply Hn. apply in_keys_remove. split; [|exact Iv3].
    intros ->. tauto.
Qed.

End ColumnMap.

(* ------------------------------------------------------------------ *)
(** ** The schema-mapping inserter: the claims about the mapping *)

(** C2, as the code has it: for a nodes batch with an identifier column
    and a mapping (a dictionary) that sends identifier to label, in which
    no applicable pair's target is a source of the mapping, no two
    applicable pairs share a target and no applicable pair other than
    identifier-to-label targets a column of the batch, applying the
    mapping succeeds, keeps the identifier column, puts a copy of it under
    the label name, and renames every other applicable pair's column. *)
Theorem C2_identifier_is_copied_others_renamed
  (cn : Defaults) (cmap : PyDict.t string) (b : Batch) :
  PyDict.wf cmap ->
  In (ID_COLUMN_NAME cn, LABEL_COLUMN_NAME cn) cmap ->
  In (ID_COLUMN_NAME cn) (PyDict.keys b) ->
  no_chaining cmap b ->
  distinct_targets cmap b ->
  fresh_targets (is_id_to_label cn) cmap b ->
  mapped_as_described cn cmap b (map_nodes_columns cn (schema_of cmap) b).
Proof.
  intros W Hin Hid NC DT FT.
  unfold map_nodes_columns, schema_of, column_map_of, PyDict.items. simpl.
  rewrite nodes_column_step_shape.
  destruct (column_map_renames (is_id_to_label cn)
              "Duplicate nodes column name after mapping: {v}" cmap b W NC DT FT)
    as [b' [E [P _]]].
  exists b'. split; [exact E|].
  apply PyDictFacts.in_keys_get in Hid. destruct Hid as [ids Hids].
  assert (Hc : is_id_to_label cn (ID_COLUMN_NAME cn) (LABEL_COLUMN_NAME cn) = true)
    by (apply is_id_to_label_true; auto).
  destruct (P _ _ ids Hin Hids) as [Pl Pi]. rewrite Hc in Pi.
  rewrite Hids. split; [exact Pi|]. split; [exact Pl|].
  intros k v Hkv Hne Hk.
  apply PyDictFacts.in_keys_get in Hk. destruct Hk as [data Hd].
  destruct (P _ _ data Hkv Hd) as [Pv Pk]. rewrite Hd. split; [|exact Pv].
  destruct (is_id_to_label cn k v) eqn:C; [|exact Pk].
  apply is_id_to_label_true in C. destruct C; subst. now contradiction Hne.
Qed.

(** A batch with identifiers and names, and the mapping of the
    specification's example extended with a renaming of the name column. *)
Lemma C2_witness :
  mapped_as_described defaults [("id", "label"); ("name", "title")]
    [("id", [PyInt 1; PyInt 2]); ("name", [PyStr "a"; PyStr "b"])]
    (Ok [("id", [PyInt 1; PyInt 2]); ("label", [PyInt 1; PyInt 2]);
         ("title", [PyStr "a"; PyStr "b"])]).
Proof.
  apply (C2_identifier_is_copied_others_renamed defaults
           [("id", "label"); ("name", "title")]
           [("id", [PyInt 1; PyInt 2]); ("name", [PyStr "a"; PyStr "b"])]).
  - repeat constructor; simpl; intuition discriminate.
  - simpl. auto.
  - simpl. auto.
  - intros k v k' v' I _ I'. simpl in I, I'.
    destruct I as [I|[I|[]]]; destruct I' as [I'|[I'|[]]];
      inversion I; inversion I'; subst; discriminate.
  - intros k k' v I I' _ _. simpl in I, I'.
    destruct I as [I|[I|[]]]; destruct I' as [I'|[I'|[]]];
      inversion I; inversion I'; subst; try reflexivity; discriminate.
  - intros k v I Ik C Iv. simpl in I, Iv.
    destruct I as [I|[I|[]]]; inversion I; subst;
      [discriminate C | intuition discriminate].
Defined.

(** The example of the specification: columns [id] and [name], mapping
    identifier to label.  The label column is added after the two
    columns, which both stay. *)
Example nodes_mapping_of_id_and_name :
  map_nodes_columns defaults (schema_of [("id", "label")])
    [("id", [PyInt 1; PyInt 2]); ("name", [PyStr "a"; PyStr "b"])]
  = Ok [("id", [PyInt 1; PyInt 2]); ("name", [PyStr "a"; PyStr "b"]);
        ("label", [PyInt 1; PyInt 2])].
Proof. reflexivity. Qed.

(** Without those conditions the description fails on mappings that send
    identifier to label:
    when another pair's target is already a column the mapping raises;
    when another pair also targets the label its cells are overwritten by
    the identifiers; and when the label is itself renamed afterwards no
    label column is left. *)
Lemma C2_counterexample :
  ~ mapped_as_described defaults [("id", "label"); ("name", "title")]
      [("id", [PyInt 1]); ("name", [PyStr "a"]); ("title", [PyStr "t"])]
      (map_nodes_columns defaults (schema_of [("id", "label"); ("name", "title")])
         [("id", [PyInt 1]); ("name", [PyStr "a"]); ("title", [PyStr "t"])])
  /\
  ~ mapped_as_described defaults [("name", "label"); ("id", "label")]
      [("id", [PyInt 1]); ("name", [PyStr "a"])]
      (map_nodes_columns defaults (schema_of [("name", "label"); ("id", "label")])
         [("id", [PyInt 1]); ("name", [PyStr "a"])])
  /\
  ~ mapped_as_described defaults [("id", "label"); ("label", "title")]
      [("id", [PyInt 1])]
      (map_nodes_columns defaults (schema_of [("id", "label"); ("label", "title")])
         [("id", [PyInt 1])]).
Proof.
  repeat split.
  - intros [b' [E _]]. vm_compute in E. discriminate.
  - intros [b' [E [_ [_ H]]]]. vm_compute in E. inversion E; subst.
    destruct (H "name" "label") as [_ H'];
      [simpl; auto | discriminate | simpl; auto |].
    vm_compute in H'. discriminate.
  - intros [b' [E [_ [H _]]]]. vm_compute in E. inversion E; subst.
    vm_compute in H. discriminate.
Qed.

(** When identifier-to-label is the only applicable pair and the batch
    has a label column already, the mapping goes through and only the
    label column changes. *)
Lemma id_to_label_overwrites (cn : Defaults) cmap : forall (b : Batch) ids,
  (forall k v, In (k, v) cmap -> In k (PyDict.keys b) ->
               k = ID_COLUMN_NAME cn /\ v = LABEL_COLUMN_NAME cn) ->
  PyDict.get b (ID_COLUMN_NAME cn) = Some ids ->
  In (LABEL_COLUMN_NAME cn) (PyDict.keys b) ->
  exists b',
    for_each (nodes_column_step cn) cmap b = Ok b' /\
    PyDict.keys b' = PyDict.keys b /\
    PyDict.get b' (ID_COLUMN_NAME cn) = Some ids /\
    (forall x, x <> LABEL_COLUMN_NAME cn -> PyDict.get b' x = PyDict.get b x) /\
    (In (ID_COLUMN_NAME cn, LABEL_COLUMN_NAME cn) cmap \/
     PyDict.get b (LABEL_COLUMN_NAME cn) = Some ids ->
     PyDict.get b' (LABEL_COLUMN_NAME cn) = Some ids).
Proof.
  induction cmap as [|[k v] rest IH]; intros b ids Honly Hid Hlabel.
  - exists b. simpl. repeat split; auto. intros [[]|H]; exact H.
  - simpl. unfold nodes_column_step at 1. simpl.
    destruct (PyDict.get b k) as [data|] eqn:G.
    + destruct (Honly k v (or_introl eq_refl)) as [-> ->].
      { eapply PyDictFacts.get_some_in_keys; eauto. }
      assert (data = ids) by congruence. subst data.
      rewrite !String.eqb_refl. simpl.
      set (b1 := PyDict.set b (LABEL_COLUMN_NAME cn) ids).
      assert (K1 : PyDict.keys b1 = PyDict.keys b)
        by (apply PyDictFacts.keys_set_present; exact Hlabel).
      assert (L1 : PyDict.get b1 (LABEL_COLUMN_NAME cn) = Some ids)
        by apply PyDictFacts.get_set_same.
      assert (F1 : forall x, x <> LABEL_COLUMN_NAME cn ->
                             PyDict.get b1 x = PyDict.get b x)
        by (intros x Hx; now apply PyDictFacts.get_set_other).
      assert (I1 : PyDict.get b1 (ID_COLUMN_NAME cn) = Some ids).
      { destruct (string_dec (ID_COLUMN_NAME cn) (LABEL_COLUMN_NAME cn)) as [E|N].
        - rewrite E. exact L1.
        - rewrite F1 by exact N. exact Hid. }
      destruct (IH b1 ids) as [b' [E' [K' [I' [F' L']]]]].
      { intros k' v' I Ik. rewrite K1 in Ik. apply (Honly k' v'); [now right | exact Ik]. }
      { exact I1. }
      { now rewrite K1. }
      exists b'. split; [exact E'|]. split; [congruence|]. split; [exact I'|].
      split.
      * intros x Hx. rewrite F' by exact Hx. now apply F1.
      * intros _. apply L'. now right.
    + destruct (IH b ids) as [b' [E' [K' [I' [F' L']]]]]; auto.
      { intros k' v' I. apply (Honly k' v'). now right. }
      exists b'. repeat split; auto.
      intros [[E|I]|L]; apply L'; auto.
      inversion E; subst. congruence.
Qed.

Section StoreLoops.
Context {S : Type} {store : NetworkData S}.

Lemma for_eachM_app (A B : Type) (body : B -> A -> M S B) l1 l2 acc s :
  for_eachM body (l1 ++ l2) acc s
  = match for_eachM body l1 acc s with
    | (Ok acc1, s1) => for_eachM body l2 acc1 s1
    | (Raise e, s1) => (Raise e, s1)
    end.
Proof.
  revert acc s. induction l1 as [|a l1 IH]; intros acc s; simpl; [reflexivity|].
  unfold bind. destruct (body acc a s) as [[acc1|e] s1]; [apply IH | reflexivity].
Qed.

(** A batch whose mapping raises leaves the store as it found it. *)
Lemma nodes_batch_raises cn schema added (b : Batch) e (s : S) :
  map_nodes_columns cn schema b = Raise e ->
  nodes_batch cn schema added b s = (Raise e, s).
Proof.
  intros H. unfold nodes_batch, bind, lift. now rewrite H.
Qed.

Lemma edges_batch_raises schema added (b : Batch) e (s : S) :
  map_edges_columns schema b = Raise e ->
  edges_batch schema added b s = (Raise e, s).
Proof.
  intros H. unfold edges_batch, bind, lift. now rewrite H.
Qed.

(** A loop that reaches a raising batch stops there, with the store the
    earlier batches left. *)
Lemma for_eachM_raises (A B : Type) (body : B -> A -> M S B) pre b post
  acc acc1 s s1 e :
  for_eachM body pre acc s = (Ok acc1, s1) ->
  body acc1 b s1 = (Raise e, s1) ->
  for_eachM body (pre ++ b :: post) acc s = (Raise e, s1).
Proof.
  intros Hpre Hb. rewrite for_eachM_app, Hpre. simpl. unfold bind. now rewrite Hb.
Qed.

End StoreLoops.

Lemma insert_table_data_two_loops (S : Type) (store : NetworkData S) cn
  edges_table edges_schema nodes_table nodes_schema chunk_size :
  insert_table_data_into_network_graph cn edges_table edges_schema
    nodes_table nodes_schema chunk_size
  = bind (insert_nodes_table cn nodes_table nodes_schema chunk_size)
         (for_eachM (edges_batch edges_schema) (to_batches edges_table chunk_size)).
Proof. reflexivity. Qed.

(** C10: with a label column already in the batch, the identifier-to-label
    pair raises no duplicate-column error: the step overwrites the label
    column with the identifier's cells, and when no other pair of the
    mapping applies the batch goes to the store with its label column
    replaced and everything else as it was. *)
Theorem C10_existing_label_is_overwritten
  (cn : Defaults) (b : Batch) (ids old : list pyvalue) :
  PyDict.get b (ID_COLUMN_NAME cn) = Some ids ->
  PyDict.get b (LABEL_COLUMN_NAME cn) = Some old ->
  nodes_column_step cn b (ID_COLUMN_NAME cn, LABEL_COLUMN_NAME cn)
  = Ok (PyDict.set b (LABEL_COLUMN_NAME cn) ids)
  /\
  forall cmap,
    In (ID_COLUMN_NAME cn, LABEL_COLUMN_NAME cn) cmap ->
    (forall k v, In (k, v) cmap -> In k (PyDict.keys b) ->
                 k = ID_COLUMN_NAME cn /\ v = LABEL_COLUMN_NAME cn) ->
    exists b',
      map_nodes_columns cn (schema_of cmap) b = Ok b' /\
      PyDict.get b' (LABEL_COLUMN_NAME cn) = Some ids /\
      PyDict.get b' (ID_COLUMN_NAME cn) = Some ids /\
      PyDict.keys b' = PyDict.keys b /\
      (forall x, x <> LABEL_COLUMN_NAME cn -> PyDict.get b' x = PyDict.get b x) /\
      forall (S : Type) (store : NetworkData S) (added : pyset) (s : S),
        nodes_batch cn (schema_of cmap) added b s
        = bind (insert_nodes (to_rows b')) (fun _ => ret (set_update added ids)) s.
Proof.
  intros Hid Hold. split.
  - unfold nodes_column_step. simpl. now rewrite Hid, !String.eqb_refl.
  - intros cmap Hin Honly.
    destruct (id_to_label_overwrites cn cmap b ids Honly Hid)
      as [b' [E [K [I [F L]]]]].
    { eapply PyDictFacts.get_some_in_keys; eauto. }
    exists b'. unfold map_nodes_columns, schema_of, column_map_of, PyDict.items.
    simpl. split; [exact E|]. split; [apply L; now left|].
    split; [exact I|]. split; [exact K|]. split; [exact F|].
    intros S store added s.
    unfold nodes_batch, map_nodes_columns, schema_of, column_map_of, PyDict.items.
    simpl. unfold bind at 1. unfold lift at 1. rewrite E. unfold ret at 1.
    unfold bind at 1. unfold lift, PyDict.getitem. rewrite I. reflexivity.
Qed.

(** A batch that has a label column, mapped with identifier to label. *)
Lemma C10_witness :
  nodes_column_step defaults
    [("id", [PyInt 1; PyInt 2]); ("label", [PyStr "x"; PyStr "y"])]
    ("id", "label")
  = Ok [("id", [PyInt 1; PyInt 2]); ("label", [PyInt 1; PyInt 2])].
Proof.
  apply (proj1 (C10_existing_label_is_overwritten defaults
                  [("id", [PyInt 1; PyInt 2]); ("label", [PyStr "x"; PyStr "y"])]
                  [PyInt 1; PyInt 2] [PyStr "x"; PyStr "y"] eq_refl eq_refl)).
Defined.

(** C3, as the code has it: when the mapping (a dictionary) holds two
    pairs with the same target whose sources are both columns of the
    batch, the target is not itself a source of the mapping and, for a
    nodes batch, the later of the two pairs is not identifier-to-label,
    the loop over the batches raises the duplicate-column exception at
    that batch and the store is left as the earlier batches left it: it
    receives no record of the batch.  So does the inserter as a whole,
    whether the batch belongs to the edges table or to the nodes table. *)
Theorem C3_duplicate_target_aborts_batch
  (S : Type) (store : NetworkData S) (cn : Defaults)
  (l1 l2 l3 : PyDict.t string) (k1 k2 v : string) (b : Batch) :
  let cmap := l1 ++ (k1, v) :: l2 ++ (k2, v) :: l3 in
  PyDict.wf cmap ->
  ~ In v (PyDict.keys cmap) ->
  In k1 (PyDict.keys b) ->
  In k2 (PyDict.keys b) ->
  (forall pre post added acc1 s s1,
      for_eachM (edges_batch (schema_of cmap)) pre added s = (Ok acc1, s1) ->
      for_eachM (edges_batch (schema_of cmap)) (pre ++ b :: post) added s
      = (Raise duplicate_edges_column, s1))
  /\
  (forall edges_table nodes_table nodes_schema chunk_size pre post seen acc1 s s0 s1,
      to_batches edges_table chunk_size = pre ++ b :: post ->
      insert_nodes_table cn nodes_table nodes_schema chunk_size s = (Ok seen, s0) ->
      for_eachM (edges_batch (schema_of cmap)) pre seen s0 = (Ok acc1, s1) ->
      insert_table_data_into_network_graph cn edges_table (schema_of cmap)
        nodes_table nodes_schema chunk_size s
      = (Raise duplicate_edges_column, s1))
  /\
  (is_id_to_label cn k2 v = false ->
   (forall pre post added acc1 s s1,
       for_eachM (nodes_batch cn (schema_of cmap)) pre added s = (Ok acc1, s1) ->
       for_eachM (nodes_batch cn (schema_of cmap)) (pre ++ b :: post) added s
       = (Raise duplicate_nodes_column, s1))
   /\
   (forall edges_table edges_schema nodes_table chunk_size pre post acc1 s s1,
       to_batches nodes_table chunk_size = pre ++ b :: post ->
       for_eachM (nodes_batch cn (schema_of cmap)) pre [] s = (Ok acc1, s1) ->
       insert_table_data_into_network_graph cn edges_table edges_schema
         (Some nodes_table) (schema_of cmap) chunk_size s
       = (Raise duplicate_nodes_column, s1))).
Proof.
  intros cmap W Hv I1 I2.
  assert (He : forall pre post added acc1 s s1,
             for_eachM (edges_batch (schema_of cmap)) pre added s = (Ok acc1, s1) ->
             for_eachM (edges_batch (schema_of cmap)) (pre ++ b :: post) added s
             = (Raise duplicate_edges_column, s1)).
  { intros pre post added acc1 s s1 Hpre.
    apply for_eachM_raises with (acc1 := acc1); [exact Hpre|].
    apply edges_batch_raises.
    unfold map_edges_columns, schema_of, column_map_of, PyDict.items. simpl.
    rewrite edges_column_step_shape.
    now apply column_map_duplicate. }
  split; [exact He|]. split.
  - intros edges_table nodes_table nodes_schema chunk_size pre post seen acc1
           s s0 s1 Hb Hnodes Hpre.
    rewrite insert_table_data_two_loops. unfold bind. rewrite Hnodes, Hb.
    now apply He with (acc1 := acc1).
  - intros C.
    assert (Hn : forall pre post added acc1 s s1,
               for_eachM (nodes_batch cn (schema_of cmap)) pre added s = (Ok acc1, s1) ->
               for_eachM (nodes_batch cn (schema_of cmap)) (pre ++ b :: post) added s
               = (Raise duplicate_nodes_column, s1)).
    { intros pre post added acc1 s s1 Hpre.
      apply for_eachM_raises with (acc1 := acc1); [exact Hpre|].
      apply nodes_batch_raises.
      unfold map_nodes_columns, schema_of, column_map_of, PyDict.items. simpl.
      rewrite nodes_column_step_shape.
      now apply column_map_duplicate. }
    split; [exact Hn|].
    intros edges_table edges_schema nodes_table chunk_size pre post acc1 s s1 Hb Hpre.
    rewrite insert_table_data_two_loops. unfold bind, insert_nodes_table.
    rewrite Hb. now rewrite (Hn pre post [] acc1 s s1 Hpre).
Qed.

(** An edges batch with the columns [from] and [src], both mapped to the
    source column: the first batch raises and the store stays empty. *)
Lemma C3_witness :
  for_eachM (edges_batch (store := spec_store defaults)
               (schema_of [("from", "source"); ("src", "source")]))
    [[("from", [PyInt 1]); ("src", [PyInt 2]); ("target", [PyInt 3])]]
    [] empty_store
  = (Raise duplicate_edges_column, empty_store).
Proof.
  apply (proj1 (C3_duplicate_target_aborts_batch SpecStore (spec_store defaults)
                  defaults [] [] [] "from" "src" "source"
                  [("from", [PyInt 1]); ("src", [PyInt 2]); ("target", [PyInt 3])]
                  ltac:(repeat constructor; simpl; intuition discriminate)
                  ltac:(simpl; intuition discriminate)
                  ltac:(simpl; auto) ltac:(simpl; auto))
           [] [] [] [] empty_store empty_store eq_refl).
Defined.

(** Without those conditions the exception is not raised.  A nodes batch
    whose name and identifier columns are both mapped to the label raises
    nothing: the record goes to the store, its label the identifier.  An
    edges batch whose columns [a] and [b] are both mapped to [source],
    with [source] renamed in between, raises nothing either. *)
Lemma C3_counterexample :
  (In "name" (PyDict.keys [("id", [PyInt 1]); ("name", [PyStr "a"])]) /\
   In "id" (PyDict.keys [("id", [PyInt 1]); ("name", [PyStr "a"])]) /\
   nodes_batch (store := spec_store defaults) defaults
     (schema_of [("name", "label"); ("id", "label")]) []
     [("id", [PyInt 1]); ("name", [PyStr "a"])] empty_store
   = (Ok [PyInt 1],
      {| stored_nodes := [[("id", PyInt 1); ("label", PyInt 1)]];
         stored_edges := [] |}) /\
   nodes_batch (store := spec_store defaults) defaults
     (schema_of [("name", "label"); ("id", "label")]) []
     [("id", [PyInt 1]); ("name", [PyStr "a"])] empty_store
   <> (Raise duplicate_nodes_column, empty_store))
  /\
  (In "a" (PyDict.keys [("a", [PyInt 1]); ("b", [PyInt 2])]) /\
   In "b" (PyDict.keys [("a", [PyInt 1]); ("b", [PyInt 2])]) /\
   edges_batch (store := spec_store defaults)
     (schema_of [("a", "source"); ("source", "target"); ("b", "source")]) []
     [("a", [PyInt 1]); ("b", [PyInt 2])] empty_store
   = (Ok [PyInt 1; PyInt 2],
      {| stored_nodes := [[("id", PyInt 2)]; [("id", PyInt 1)]];
         stored_edges := [[("target", PyInt 1); ("source", PyInt 2)]] |}) /\
   edges_batch (store := spec_store defaults)
     (schema_of [("a", "source"); ("source", "target"); ("b", "source")]) []
     [("a", [PyInt 1]); ("b", [PyInt 2])] empty_store
   <> (Raise duplicate_edges_column, empty_store)).
Proof.
  split; (split; [simpl; auto|]); (split; [simpl; auto|]);
    (split; [vm_compute; reflexivity | vm_compute; discriminate]).
Qed.

(* ------------------------------------------------------------------ *)
(** ** The schema-mapping inserter: records and the seen identifiers *)

Section Rows.
Import PyDict PyDictFacts.

Lemma nth_error_combine (A B : Type) (l1 : list A) (l2 : list B) i a b :
  nth_error (combine l1 l2) i = Some (a, b) <->
  nth_error l1 i = Some a /\ nth_error l2 i = Some b.
Proof.
  revert l2 i. induction l1 as [|x l1 IH]; intros l2 i.
  - simpl. destruct i; simpl; split; [discriminate | intros [H _]; discriminate
                                      | discriminate | intros [H _]; discriminate].
  - destruct l2 as [|y l2]; simpl.
    + destruct i; simpl; split; try discriminate; intros [_ H]; discriminate.
    + destruct i; simpl; [|apply IH].
      split; [intros H; inversion H; auto | intros [H1 H2]; congruence].
Qed.

(** Row [i] of the zipped columns holds cell [i] of each column. *)
Lemma zip_star_row cols : forall i t,
  nth_error (zip_star cols) i = Some t ->
  Forall2 (fun c x => nth_error c i = Some x) cols t.
Proof.
  induction cols as [|c cs IH]; intros i t H.
  - simpl in H. destruct i; discriminate.
  - simpl in H. destruct cs as [|c' cs'].
    + rewrite nth_error_map in H. destruct (nth_error c i) as [x|] eqn:E;
        [|discriminate]. simpl in H. inversion H; subst. repeat constructor. exact E.
    + rewrite nth_error_map in H.
      destruct (nth_error (combine c (zip_star (c' :: cs'))) i) as [[x r]|] eqn:E;
        [|discriminate].
      simpl in H. inversion H; subst.
      apply nth_error_combine in E. destruct E as [E1 E2].
      constructor; [exact E1 | now apply IH].
Qed.

Lemma zip_star_length cols n :
  cols <> [] -> Forall (fun c => length c = n) cols -> length (zip_star cols) = n.
Proof.
  induction cols as [|c cs IH]; intros Hne Hall; [congruence|].
  inversion Hall as [|? ? Hc Hcs]; subst. simpl. destruct cs as [|c' cs'].
  - apply length_map.
  - rewrite length_map, length_combine, IH; [apply Nat.min_id | discriminate | exact Hcs].
Qed.

(** Filling an empty dictionary with pairs of distinct keys gives the
    pairs, in their order. *)
Lemma update_fresh (V : Type) (e d : PyDict.t V) :
  wf (d ++ e) -> update d e = d ++ e.
Proof.
  unfold update, wf, keys. revert d.
  induction e as [|[k v] e IH]; intros d W; simpl; [now rewrite app_nil_r|].
  rewrite set_absent.
  - rewrite IH; rewrite <- app_assoc; [reflexivity | exact W].
  - apply get_none_iff. unfold keys. rewrite map_app in W. simpl in W.
    apply NoDup_remove_2 in W. rewrite in_app_iff in W. tauto.
Qed.

(** In the record made of row [t], a column's cell is the cell of [t]
    that lines up with the column. *)
Lemma get_combine_row (d : Batch) : forall (t : list pyvalue) i k col,
  Forall2 (fun c x => nth_error c i = Some x) (values d) t ->
  get d k = Some col ->
  exists x, nth_error col i = Some x /\ get (combine (keys d) t) k = Some x.
Proof.
  induction d as [|[k0 c0] d IH]; intros t i k col F G; [discriminate|].
  simpl in F. inversion F as [|? x ? t' Hx F']; subst. simpl in *.
  destruct (String.eqb k k0).
  - inversion G; subst. now exists x.
  - now apply IH.
Qed.

Lemma keys_combine_row (d : Batch) (t : list pyvalue) i :
  Forall2 (fun c x => nth_error c i = Some x) (values d) t ->
  keys (combine (keys d) t) = keys d.
Proof.
  revert t. induction d as [|[k0 c0] d IH]; intros t F; [reflexivity|].
  simpl in F. inversion F as [|? x ? t' Hx F']; subst. simpl.
  f_equal. now apply IH.
Qed.

(** A record of a batch has, for every column of the batch, the cell of
    its row. *)
Lemma to_rows_cell (bd : Batch) i r k col :
  wf bd ->
  nth_error (to_rows bd) i = Some r ->
  get bd k = Some col ->
  exists x, nth_error col i = Some x /\ get r k = Some x.
Proof.
  intros W Hr Hk. unfold to_rows in Hr. rewrite nth_error_map in Hr.
  destruct (nth_error (zip_star (values bd)) i) as [t|] eqn:E; [|discriminate].
  simpl in Hr. inversion Hr; subst.
  apply zip_star_row in E. unfold dict_zip.
  rewrite update_fresh.
  - simpl. eapply get_combine_row; eauto.
  - simpl. unfold wf. erewrite keys_combine_row; eauto.
Qed.

Lemma to_rows_length (bd : Batch) n :
  bd <> [] -> rectangular bd n -> wf bd -> length (to_rows bd) = n.
Proof.
  intros Hne R W. unfold to_rows. rewrite length_map.
  apply zip_star_length.
  - destruct bd; [congruence | discriminate].
  - apply Forall_forall. intros c Hc. unfold values in Hc.
    apply in_map_iff in Hc. destruct Hc as [[k c'] [E I]]. simpl in E. subst.
    apply (R k).
    clear Hne R. induction bd as [|[k0 c0] bd IH]; [destruct I|].
    unfold wf in W. simpl in W. inversion W as [|? ? Hn W']; subst.
    simpl. destruct I as [I|I].
    + inversion I; subst. now rewrite String.eqb_refl.
    + destruct (String.eqb_spec k k0) as [->|_]; [|now apply IH].
      exfalso. apply Hn. apply in_map_iff. now exists (k0, c).
Qed.

End Rows.

Lemma set_update_spec (s : pyset) xs x :
  In x (set_update s xs) <-> In x s \/ In x xs.
Proof. unfold set_update. apply set_union_iff. Qed.

Lemma end_points_spec (cn : Defaults) data : forall acc,
  Forall (has_end_points cn) data ->
  exists required,
    for_each
      (fun acc edge =>
         match PyDict.getitem edge (SOURCE_COLUMN_NAME cn) with
         | Raise e => Raise e
         | Ok s =>
             match PyDict.getitem edge (TARGET_COLUMN_NAME cn) with
             | Raise e => Raise e
             | Ok t => Ok (set_update acc [s; t])
             end
         end) data acc = Ok required /\
    (forall x, In x acc -> In x required) /\
    (forall r x, In r data -> end_point_of cn r x -> In x required).
Proof.
  induction data as [|r data IH]; intros acc Hall.
  - exists acc. simpl. repeat split; auto. intros r x [].
  - inversion Hall as [|? ? [Hs Ht] Hall']; subst. simpl.
    apply PyDictFacts.in_keys_get in Hs, Ht.
    destruct Hs as [s Hs], Ht as [t Ht].
    unfold PyDict.getitem. rewrite Hs, Ht.
    destruct (IH (set_update acc [s; t]) Hall') as [required [E [Hacc Hreq]]].
    exists required. split; [exact E|]. split.
    + intros x Hx. apply Hacc. apply set_update_spec. now left.
    + intros r' x [<-|I] Hx; [|now apply (Hreq r')].
      apply Hacc. apply set_update_spec. right. simpl.
      destruct Hx as [Hx|Hx]; rewrite Hx in *; [left | right; left]; congruence.
Qed.

(** The store modelled from the specification does what the
    specification says. *)
Lemma spec_store_creates_end_points (cn : Defaults) :
  creates_end_points cn SpecStore (spec_store cn).
Proof.
  intros data existing s Hall. simpl. unfold spec_insert_edges, end_points.
  destruct (end_points_spec cn data [] Hall) as [required [E [_ Hreq]]].
  rewrite E. eexists. eexists. split; [reflexivity|].
  intros r x Hr Hx.
  destruct (in_dec pyvalue_eq_dec x existing) as [I|N]; [now left|].
  right. apply set_diff_intro; [eapply Hreq; eauto | exact N].
Qed.

Section SeenSet.
Context {S : Type} {store : NetworkData S}.

(** A batch that goes through leaves a seen-set that contains the one it
    started from and the identifiers the store returned. *)
Lemma edges_batch_ok schema added (b : Batch) added' (s s' : S) :
  edges_batch schema added b s = (Ok added', s') ->
  exists bd ids,
    map_edges_columns schema b = Ok bd /\
    insert_edges (to_rows bd) added s = (Ok ids, s') /\
    added' = set_update added ids.
Proof.
  unfold edges_batch, bind, lift.
  destruct (map_edges_columns schema b) as [bd|e]; [|discriminate]. simpl.
  destruct (insert_edges (to_rows bd) added s) as [[ids|e] s1] eqn:E; [|discriminate].
  unfold ret. intros H. inversion H; subst. exists bd, ids. repeat split. exact E.
Qed.

Lemma nodes_batch_ok cn schema added (b : Batch) added' (s s' : S) :
  nodes_batch cn schema added b s = (Ok added', s') ->
  exists bd ids,
    map_nodes_columns cn schema b = Ok bd /\
    PyDict.get bd (ID_COLUMN_NAME cn) = Some ids /\
    insert_nodes (to_rows bd) s = (Ok tt, s') /\
    added' = set_update added ids.
Proof.
  unfold nodes_batch, bind, lift, PyDict.getitem.
  destruct (map_nodes_columns cn schema b) as [bd|e]; [|discriminate]. simpl.
  destruct (PyDict.get bd (ID_COLUMN_NAME cn)) as [ids|] eqn:G; [|discriminate]. simpl.
  destruct (insert_nodes (to_rows bd) s) as [[[]|e] s1] eqn:E; [|discriminate].
  unfold ret. intros H. inversion H; subst. exists bd, ids. repeat split.
  - exact G.
  - exact E.
Qed.

(** A loop whose body only adds to the accumulator only adds to it. *)
Lemma for_eachM_grows (A : Type) (body : pyset -> A -> M S pyset) :
  (forall acc a s acc' s', body acc a s = (Ok acc', s') -> incl acc acc') ->
  forall l acc s acc' s',
    for_eachM body l acc s = (Ok acc', s') -> incl acc acc'.
Proof.
  intros Hbody. induction l as [|a l IH]; intros acc s acc' s' H; simpl in H.
  - unfold ret in H. inversion H; subst. apply incl_refl.
  - unfold bind in H. destruct (body acc a s) as [[acc1|e] s1] eqn:E; [|discriminate].
    eapply incl_tran; [eapply Hbody; eauto | eapply IH; eauto].
Qed.

End SeenSet.

(** A loop over batches whose body only adds to the seen-set, cut in two:
    the second part starts from what the first part gathered, which
    contains what the loop started from and is contained in what it ends
    with. *)
Lemma for_eachM_split (S : Type) (A : Type) (body : pyset -> A -> M S pyset) :
  (forall acc a s acc' s', body acc a s = (Ok acc', s') -> incl acc acc') ->
  forall l1 l2 acc s final s',
    for_eachM body (l1 ++ l2) acc s = (Ok final, s') ->
    exists mid s1,
      for_eachM body l1 acc s = (Ok mid, s1) /\
      for_eachM body l2 mid s1 = (Ok final, s') /\
      incl acc mid /\ incl mid final.
Proof.
  intros Hbody l1 l2 acc s final s' H. rewrite for_eachM_app in H.
  destruct (for_eachM body l1 acc s) as [[mid|e] s1] eqn:E1; [|discriminate].
  exists mid, s1. split; [reflexivity|]. split; [exact H|]. split.
  - eapply for_eachM_grows; [exact Hbody | exact E1].
  - eapply for_eachM_grows; [exact Hbody | exact H].
Qed.

(** A loop over batches whose body only adds to the seen-set, at one of
    its batches: the body is run on that batch with the set and the store
    the batches before it left, which contains what the loop started
    from, and what the body leaves is contained in the final set. *)
Lemma for_eachM_at (S : Type) (A : Type) (body : pyset -> A -> M S pyset) :
  (forall acc a s acc' s', body acc a s = (Ok acc', s') -> incl acc acc') ->
  forall pre b post acc s final s',
    for_eachM body (pre ++ b :: post) acc s = (Ok final, s') ->
    exists mid s1 mid' s2,
      for_eachM body pre acc s = (Ok mid, s1) /\
      body mid b s1 = (Ok mid', s2) /\
      for_eachM body post mid' s2 = (Ok final, s') /\
      incl acc mid /\ incl mid mid' /\ incl mid' final.
Proof.
  intros Hbody pre b post acc s final s' H.
  destruct (for_eachM_split S A body Hbody pre (b :: post) acc s final s' H)
    as [mid [s1 [H1 [H2 [I1 _]]]]].
  simpl in H2. unfold bind in H2.
  destruct (body mid b s1) as [[mid'|e] s2] eqn:E; [|discriminate].
  exists mid, s1, mid', s2.
  split; [exact H1|]. split; [exact E|]. split; [exact H2|].
  split; [exact I1|]. split; [eapply Hbody; eauto|].
  eapply for_eachM_grows; [exact Hbody | exact H2].
Qed.

Section SeenSetOfARun.
Context {S : Type} {store : NetworkData S}.
Variable cn : Defaults.
Variables edges_schema nodes_schema : option SqliteTableSchema.

Lemma edges_batch_grows added b (s : S) added' s' :
  edges_batch edges_schema added b s = (Ok added', s') -> incl added added'.
Proof.
  intros H. destruct (edges_batch_ok _ _ _ _ _ _ H) as [bd [ids [_ [_ ->]]]].
  intros x Hx. apply set_update_spec. now left.
Qed.

Lemma nodes_batch_grows added b (s : S) added' s' :
  nodes_batch cn nodes_schema added b s = (Ok added', s') -> incl added added'.
Proof.
  intros H. destruct (nodes_batch_ok _ _ _ _ _ _ _ H) as [bd [ids [_ [_ [_ ->]]]]].
  intros x Hx. apply set_update_spec. now left.
Qed.

(** With a store that creates the end points it has not seen, a ready
    batch goes through whatever was seen, and its end points are seen
    afterwards. *)
Lemma edges_batch_creates added b (s : S) :
  creates_end_points cn S store ->
  edges_batch_ready cn edges_schema b ->
  exists added' s',
    edges_batch edges_schema added b s = (Ok added', s') /\
    incl added added' /\
    forall x, batch_end_point cn edges_schema b x -> In x added'.
Proof.
  intros Hstore [bd [n [sources [targets [Hm [W [R [Hs Ht]]]]]]]].
  assert (Hne : bd <> []) by (intros ->; discriminate).
  pose proof (to_rows_length bd n Hne R W) as Hlen.
  assert (Hrows : Forall (has_end_points cn) (to_rows bd)).
  { apply Forall_forall. intros r Hr.
    apply In_nth_error in Hr. destruct Hr as [i Hr].
    destruct (to_rows_cell bd i r _ _ W Hr Hs) as [x [_ Gs]].
    destruct (to_rows_cell bd i r _ _ W Hr Ht) as [y [_ Gt]].
    split; eapply PyDictFacts.get_some_in_keys; eauto. }
  destruct (Hstore (to_rows bd) added s Hrows) as [ids [s' [Hi Hids]]].
  assert (Hcol : forall k col,
             PyDict.get bd k = Some col ->
             (forall r x, PyDict.get r k = Some x -> end_point_of cn r x) ->
             incl col (set_update added ids)).
  { intros k col Hk Hend x Hx.
    apply In_nth_error in Hx. destruct Hx as [i Hx].
    assert (Hi' : (i < length (to_rows bd))%nat).
    { rewrite Hlen, <- (R k col Hk). apply nth_error_Some. congruence. }
    destruct (nth_error (to_rows bd) i) as [r|] eqn:Hr;
      [|apply nth_error_Some in Hi'; congruence].
    destruct (to_rows_cell bd i r _ _ W Hr Hk) as [x' [Hx' Gr]].
    assert (x' = x) by congruence. subst x'.
    apply set_update_spec.
    apply (Hids r x); [eapply nth_error_In; eauto | now apply Hend]. }
  exists (set_update added ids), s'.
  split; [|split].
  - unfold edges_batch, bind, lift. rewrite Hm. simpl. now rewrite Hi.
  - intros x Hx. apply set_update_spec. now left.
  - intros x [bd' [col [Hm' [Hc Hx]]]].
    assert (bd' = bd) by congruence. subst bd'.
    destruct Hc as [Hc|Hc].
    + apply (Hcol _ _ Hc); [intros r y G; now left | exact Hx].
    + apply (Hcol _ _ Hc); [intros r y G; now right | exact Hx].
Qed.

(** And so does a whole list of ready batches: the loop goes through,
    and the end points of every batch are in the final set. *)
Lemma edges_loop_creates l :
  creates_end_points cn S store ->
  Forall (edges_batch_ready cn edges_schema) l ->
  forall added (s : S),
    exists final s',
      for_eachM (edges_batch edges_schema) l added s = (Ok final, s') /\
      incl added final /\
      forall b x, In b l -> batch_end_point cn edges_schema b x -> In x final.
Proof.
  intros Hstore. induction l as [|b l IH]; intros Hall added s.
  - exists added, s. split; [reflexivity|]. split; [apply incl_refl|].
    intros b x [].
  - inversion Hall as [|? ? Hb Hl]; subst.
    destruct (edges_batch_creates added b s Hstore Hb) as [mid [s1 [E [I1 P1]]]].
    destruct (IH Hl mid s1) as [final [s' [E2 [I2 P2]]]].
    exists final, s'. split; [|split].
    + simpl. unfold bind. rewrite E. exact E2.
    + eapply incl_tran; eauto.
    + intros b' x [<-|I] Hx; [apply I2; now apply P1 | now apply (P2 b')].
Qed.

(** The identifier cells of every nodes batch are in the set the nodes
    loop leaves. *)
Lemma nodes_loop_ids l added (s : S) final s' :
  for_eachM (nodes_batch cn nodes_schema) l added s = (Ok final, s') ->
  forall b, In b l ->
    exists bd ids,
      map_nodes_columns cn nodes_schema b = Ok bd /\
      PyDict.get bd (ID_COLUMN_NAME cn) = Some ids /\
      incl ids final.
Proof.
  intros H b I. apply in_split in I. destruct I as [pre [post ->]].
  destruct (for_eachM_at S Batch _ nodes_batch_grows pre b post added s final s' H)
    as [mid [s1 [mid' [s2 [_ [Hb [_ [_ [_ I3]]]]]]]]].
  destruct (nodes_batch_ok _ _ _ _ _ _ _ Hb) as [bd [ids [Hm [Hg [_ ->]]]]].
  exists bd, ids. split; [exact Hm|]. split; [exact Hg|].
  intros x Hx. apply I3. apply set_update_spec. now right.
Qed.

End SeenSetOfARun.

(** C4: with a store that creates the end points it has not seen, as the
    specification describes it, an edges batch whose end points are not in
    the seen-set is inserted all the same, and the seen-set after the
    batch contains the one before it and every cell of the batch's source
    and target columns; and a whole edges table of such batches is
    inserted, after whatever nodes table, with the end points of every
    batch in the final set.  For any store, an edges or nodes batch that
    goes through only adds to the seen-set: the identifiers the store
    returned, the cells of the identifier column.  In a loop that goes
    through, every batch is run with the set the batches before it left,
    which contains the set the loop started from, and what the batch
    leaves is contained in the final set.  And in a run that goes through
    the edges loop starts from the set the nodes loop left, which holds
    the identifier cells of every nodes batch. *)
Theorem C4_seen_set_grows
  (S : Type) (store : NetworkData S) (cn : Defaults)
  (edges_schema nodes_schema : option SqliteTableSchema) :
  (creates_end_points cn S store ->
   forall added b bd n sources targets s,
     map_edges_columns edges_schema b = Ok bd ->
     PyDict.wf bd ->
     rectangular bd n ->
     PyDict.get bd (SOURCE_COLUMN_NAME cn) = Some sources ->
     PyDict.get bd (TARGET_COLUMN_NAME cn) = Some targets ->
     exists added' s',
       edges_batch edges_schema added b s = (Ok added', s') /\
       incl added added' /\ incl sources added' /\ incl targets added')
  /\
  (creates_end_points cn S store ->
   forall edges_table nodes_table chunk_size s seen_nodes s0,
     Forall (edges_batch_ready cn edges_schema) (to_batches edges_table chunk_size) ->
     insert_nodes_table cn nodes_table nodes_schema chunk_size s
     = (Ok seen_nodes, s0) ->
     exists final s',
       insert_table_data_into_network_graph cn edges_table edges_schema
         nodes_table nodes_schema chunk_size s = (Ok final, s') /\
       incl seen_nodes final /\
       forall b x,
         In b (to_batches edges_table chunk_size) ->
         batch_end_point cn edges_schema b x -> In x final)
  /\
  (forall added b s added' s',
      edges_batch edges_schema added b s = (Ok added', s') ->
      incl added added' /\
      exists bd ids,
        map_edges_columns edges_schema b = Ok bd /\
        insert_edges (to_rows bd) added s = (Ok ids, s') /\
        incl ids added')
  /\
  (forall added b s added' s',
      nodes_batch cn nodes_schema added b s = (Ok added', s') ->
      incl added added' /\
      exists bd ids,
        map_nodes_columns cn nodes_schema b = Ok bd /\
        PyDict.get bd (ID_COLUMN_NAME cn) = Some ids /\
        incl ids added')
  /\
  (forall pre b post added s final s',
      for_eachM (edges_batch edges_schema) (pre ++ b :: post) added s
      = (Ok final, s') ->
      exists mid s1 mid' s2,
        for_eachM (edges_batch edges_schema) pre added s = (Ok mid, s1) /\
        edges_batch edges_schema mid b s1 = (Ok mid', s2) /\
        for_eachM (edges_batch edges_schema) post mid' s2 = (Ok final, s') /\
        incl added mid /\ incl mid mid' /\ incl mid' final)
  /\
  (forall pre b post added s final s',
      for_eachM (nodes_batch cn nodes_schema) (pre ++ b :: post) added s
      = (Ok final, s') ->
      exists mid s1 mid' s2,
        for_eachM (nodes_batch cn nodes_schema) pre added s = (Ok mid, s1) /\
        nodes_batch cn nodes_schema mid b s1 = (Ok mid', s2) /\
        for_eachM (nodes_batch cn nodes_schema) post mid' s2 = (Ok final, s') /\
        incl added mid /\ incl mid mid' /\ incl mid' final)
  /\
  (forall edges_table nodes_table chunk_size s final s',
      insert_table_data_into_network_graph cn edges_table edges_schema
        nodes_table nodes_schema chunk_size s = (Ok final, s') ->
      exists seen_nodes s0,
        insert_nodes_table cn nodes_table nodes_schema chunk_size s
        = (Ok seen_nodes, s0) /\
        for_eachM (edges_batch edges_schema) (to_batches edges_table chunk_size)
          seen_nodes s0 = (Ok final, s') /\
        incl seen_nodes final /\
        forall nt b,
          nodes_table = Some nt -> In b (to_batches nt chunk_size) ->
          exists bd ids,
            map_nodes_columns cn nodes_schema b = Ok bd /\
            PyDict.get bd (ID_COLUMN_NAME cn) = Some ids /\
            incl ids seen_nodes /\ incl ids final).
Proof.
  split; [|split; [|split; [|split; [|split; [|split]]]]].
  - intros Hstore added b bd n sources targets s Hm W R Hs Ht.
    destruct (edges_batch_creates cn edges_schema added b s Hstore)
      as [added' [s' [E [I P]]]].
    { exists bd, n, sources, targets. repeat split; assumption. }
    exists added', s'. split; [exact E|]. split; [exact I|].
    split; intros x Hx; apply P; exists bd.
    + exists sources. split; [exact Hm|]. split; [now left | exact Hx].
    + exists targets. split; [exact Hm|]. split; [now right | exact Hx].
  - intros Hstore edges_table nodes_table chunk_size s seen_nodes s0 Hall Hn.
    destruct (edges_loop_creates cn edges_schema _ Hstore Hall seen_nodes s0)
      as [final [s' [E [I P]]]].
    exists final, s'. split; [|split; [exact I | exact P]].
    rewrite insert_table_data_two_loops. unfold bind at 1. rewrite Hn. exact E.
  - intros added b s added' s' H.
    destruct (edges_batch_ok _ _ _ _ _ _ H) as [bd [ids [Hm [Hi ->]]]].
    split; [intros x Hx; apply set_update_spec; now left|].
    exists bd, ids. repeat split; auto.
    intros x Hx. apply set_update_spec. now right.
  - intros added b s added' s' H.
    destruct (nodes_batch_ok _ _ _ _ _ _ _ H) as [bd [ids [Hm [Hg [_ ->]]]]].
    split; [intros x Hx; apply set_update_spec; now left|].
    exists bd, ids. repeat split; auto.
    intros x Hx. apply set_update_spec. now right.
  - exact (for_eachM_at S Batch _ (edges_batch_grows edges_schema)).
  - exact (for_eachM_at S Batch _ (nodes_batch_grows cn nodes_schema)).
  - intros edges_table nodes_table chunk_size s final s' H.
    rewrite insert_table_data_two_loops in H. unfold bind at 1 in H.
    destruct (insert_nodes_table cn nodes_table nodes_schema chunk_size s)
      as [[seen_nodes|e] s0] eqn:En; [|discriminate].
    assert (I : incl seen_nodes final).
    { eapply for_eachM_grows; [|exact H].
      intros acc a t acc' t'. apply edges_batch_grows. }
    exists seen_nodes, s0. split; [reflexivity|]. split; [exact H|].
    split; [exact I|].
    intros nt b -> Ib. simpl in En.
    destruct (nodes_loop_ids cn nodes_schema _ _ _ _ _ En b Ib)
      as [bd [ids [Hm [Hg Hi]]]].
    exists bd, ids. split; [exact Hm|]. split; [exact Hg|].
    split; [exact Hi | eapply incl_tran; eauto].
Qed.

(** Two edges batches, from 1 to 2 and from 2 to 3, inserted into an
    empty store without a nodes table: the run goes through and the three
    end points are seen at the end. *)
Lemma C4_witness :
  exists final s',
    insert_table_data_into_network_graph (store := spec_store defaults) defaults
      {| to_batches := fun _ =>
           [[("source", [PyInt 1]); ("target", [PyInt 2])];
            [("source", [PyInt 2]); ("target", [PyInt 3])]] |}
      None None None 1 empty_store
    = (Ok final, s') /\
    In (PyInt 1) final /\ In (PyInt 2) final /\ In (PyInt 3) final.
Proof.
  destruct (proj1 (proj2 (C4_seen_set_grows SpecStore (spec_store defaults) defaults
                            None None))
              (spec_store_creates_end_points defaults)
              {| to_batches := fun _ =>
                   [[("source", [PyInt 1]); ("target", [PyInt 2])];
                    [("source", [PyInt 2]); ("target", [PyInt 3])]] |}
              None 1%Z empty_store [] empty_store)
    as [final [s' [E [_ P]]]].
  - repeat constructor.
    + exists [("source", [PyInt 1]); ("target", [PyInt 2])], 1%nat,
        [PyInt 1], [PyInt 2].
      split; [reflexivity|].
      split; [repeat constructor; simpl; intuition discriminate|].
      split; [|split; reflexivity].
      intros k col H. simpl in H.
      destruct (String.eqb k "source"); [inversion H; reflexivity|].
      destruct (String.eqb k "target"); [inversion H; reflexivity | discriminate].
    + exists [("source", [PyInt 2]); ("target", [PyInt 3])], 1%nat,
        [PyInt 2], [PyInt 3].
      split; [reflexivity|].
      split; [repeat constructor; simpl; intuition discriminate|].
      split; [|split; reflexivity].
      intros k col H. simpl in H.
      destruct (String.eqb k "source"); [inversion H; reflexivity|].
      destruct (String.eqb k "target"); [inversion H; reflexivity | discriminate].
  - reflexivity.
  - exists final, s'. split; [exact E|].
    split; [|split].
    + apply (P [("source", [PyInt 1]); ("target", [PyInt 2])]); [simpl; auto|].
      exists [("source", [PyInt 1]); ("target", [PyInt 2])], [PyInt 1].
      split; [reflexivity|]. split; [left; reflexivity | simpl; auto].
    + apply (P [("source", [PyInt 1]); ("target", [PyInt 2])]); [simpl; auto|].
      exists [("source", [PyInt 1]); ("target", [PyInt 2])], [PyInt 2].
      split; [reflexivity|]. split; [right; reflexivity | simpl; auto].
    + apply (P [("source", [PyInt 2]); ("target", [PyInt 3])]); [simpl; auto|].
      exists [("source", [PyInt 2]); ("target", [PyInt 3])], [PyInt 3].
      split; [reflexivity|]. split; [right; reflexivity | simpl; auto].
Defined.

(* ------------------------------------------------------------------ *)
(** ** The GraphML parser *)

Section Sorting.
Variable A : Type.
Variable f : A -> string.

Lemma insert_by_perm x l : Permutation (insert_by f x l) (x :: l).
Proof.
  induction l as [|y l IH]; simpl; [reflexivity|].
  destruct (String.leb (f x) (f y)); [reflexivity|].
  rewrite IH. apply perm_swap.
Qed.

Lemma sort_by_perm l : Permutation (sort_by f l) l.
Proof.
  induction l as [|x l IH]; simpl; [reflexivity|].
  rewrite insert_by_perm. now constructor.
Qed.

Lemma insert_by_sorted x l :
  Sorted (fun a b => str_le (f a) (f b)) l ->
  Sorted (fun a b => str_le (f a) (f b)) (insert_by f x l).
Proof.
  induction l as [|y l IH]; intros Hs; simpl.
  - repeat constructor.
  - destruct (String.leb (f x) (f y)) eqn:E.
    + constructor; [exact Hs | constructor; exact E].
    + inversion Hs as [|? ? Hs' Hd]; subst.
      constructor; [now apply IH|].
      assert (Hyx : str_le (f y) (f x)).
      { unfold str_le. destruct (String.leb_total (f x) (f y)); congruence. }
      destruct l as [|z l]; simpl.
      * constructor. exact Hyx.
      * destruct (String.leb (f x) (f z)); constructor;
          [exact Hyx | now inversion Hd].
Qed.

Lemma sort_by_sorted l : Sorted (fun a b => str_le (f a) (f b)) (sort_by f l).
Proof.
  induction l as [|x l IH]; simpl; [constructor | now apply insert_by_sorted].
Qed.

(** Sorting the items by their key lists the keys as [sorted] does. *)
Lemma map_insert_by x l : map f (insert_by f x l) = insert_sorted (f x) (map f l).
Proof.
  induction l as [|y l IH]; simpl; [reflexivity|].
  destruct (String.leb (f x) (f y)); simpl; [reflexivity | now rewrite IH].
Qed.

Lemma map_sort_by l : map f (sort_by f l) = sorted (map f l).
Proof.
  induction l as [|x l IH]; simpl; [reflexivity|].
  rewrite map_insert_by. unfold sorted in IH. now rewrite IH.
Qed.

End Sorting.

Section ParserFacts.
Import PyDict PyDictFacts.

Lemma recognized_type_converts s :
  In s recognized_types -> exists ty, convert_graphml_type_to_sqlite s = Ok ty.
Proof.
  unfold recognized_types. simpl.
  intros [<-|[<-|[<-|[<-|[<-|[<-|[]]]]]]]; eexists; reflexivity.
Qed.

Lemma get_of_NoDup (A V : Type) (f : A -> string) (g : A -> V) l x :
  NoDup (map f l) -> In x l ->
  get (map (fun y => (f y, g y)) l) (f x) = Some (g x).
Proof.
  induction l as [|y l IH]; intros ND I; [destruct I|].
  simpl in ND. inversion ND as [|? ? Hn ND']; subst. simpl.
  destruct I as [->|I]; [now rewrite String.eqb_refl|].
  destruct (String.eqb_spec (f x) (f y)) as [E|_]; [|now apply IH].
  exfalso. apply Hn. rewrite <- E. now apply in_map.
Qed.

(** The scan of the declarations, when every declared type is recognized
    and neither identifiers nor names repeat within the node declarations
    or within the edge declarations: the four dictionaries list the
    declarations in document order. *)
Lemma scan_keys_spec ks : forall kt0,
  (forall k, In k ks -> In (key_type k) recognized_types) ->
  NoDup (keys (edge_map kt0) ++ map key_id (filter for_edge ks)) ->
  NoDup (keys (edge_props kt0) ++ map key_name (filter for_edge ks)) ->
  NoDup (keys (node_map kt0) ++ map key_id (filter (fun k => negb (for_edge k)) ks)) ->
  NoDup (keys (node_props kt0) ++ map key_name (filter (fun k => negb (for_edge k)) ks)) ->
  exists kt,
    for_each scan_key ks kt0 = Ok kt /\
    edge_map kt
    = edge_map kt0 ++ map (fun k => (key_id k, key_name k)) (filter for_edge ks) /\
    edge_props kt = edge_props kt0 ++ map schema_entry (filter for_edge ks) /\
    node_map kt
    = node_map kt0
        ++ map (fun k => (key_id k, key_name k))
               (filter (fun k => negb (for_edge k)) ks) /\
    node_props kt
    = node_props kt0 ++ map schema_entry (filter (fun k => negb (for_edge k)) ks).
Proof.
  induction ks as [|k ks IH]; intros kt0 Hty N1 N2 N3 N4.
  - exists kt0. simpl. now rewrite !app_nil_r.
  - destruct (recognized_type_converts (key_type k)) as [ty Hc];
      [apply Hty; now left|].
    assert (Hst : sqlite_type k = ty) by (unfold sqlite_type; now rewrite Hc).
    assert (Hty' : forall k', In k' ks -> In (key_type k') recognized_types)
      by (intros k' I; apply Hty; now right).
    simpl. unfold scan_key at 1. fold (key_type k).
    fold (for_edge k). fold (key_id k). fold (key_name k). subst ty.
    simpl in N1, N2, N3, N4.
    destruct (for_edge k) eqn:Fe; simpl in N1, N2, N3, N4; rewrite Hc.
    + assert (G1 : get (edge_map kt0) (key_id k) = None).
      { apply get_none_iff. apply NoDup_remove_2 in N1. rewrite in_app_iff in N1. tauto. }
      assert (G2 : get (edge_props kt0) (key_name k) = None).
      { apply get_none_iff. apply NoDup_remove_2 in N2. rewrite in_app_iff in N2. tauto. }
      rewrite (set_absent _ _ _ _ G1), (set_absent _ _ _ _ G2).
      edestruct IH as [kt [E [H1 [H2 [H3 H4]]]]]; [exact Hty' | | | | |].
      5:{ exists kt. split; [exact E|]. simpl in H1, H2, H3, H4.
          rewrite H1, H2, H3, H4, <- !app_assoc. simpl.
          repeat split. }
      all: simpl; unfold keys; rewrite ?map_app, <- ?app_assoc; simpl; assumption.
    + assert (G1 : get (node_map kt0) (key_id k) = None).
      { apply get_none_iff. apply NoDup_remove_2 in N3. rewrite in_app_iff in N3. tauto. }
      assert (G2 : get (node_props kt0) (key_name k) = None).
      { apply get_none_iff. apply NoDup_remove_2 in N4. rewrite in_app_iff in N4. tauto. }
      rewrite (set_absent _ _ _ _ G1), (set_absent _ _ _ _ G2).
      edestruct IH as [kt [E [H1 [H2 [H3 H4]]]]]; [exact Hty' | | | | |].
      5:{ exists kt. split; [exact E|]. simpl in H1, H2, H3, H4.
          rewrite H1, H2, H3, H4, <- !app_assoc. simpl.
          repeat split. }
      all: simpl; unfold keys; rewrite ?map_app, <- ?app_assoc; simpl; assumption.
Qed.

(** Sorting a schema by declaration identifier: the entries of the
    declarations, in ascending order of their identifiers. *)
Lemma sort_props_loop (A : Type) (id name : A -> string)
  (P : A -> PyDict.t string) (l : list A) :
  NoDup (map id l) -> NoDup (map name l) ->
  forall l' acc,
    incl l' l ->
    NoDup (keys acc ++ map name l') ->
    for_each
      (fun acc key =>
         match getitem (map (fun x => (id x, name x)) l) key with
         | Raise e => Raise e
         | Ok nm =>
             match getitem (map (fun x => (name x, P x)) l) nm with
             | Raise e => Raise e
             | Ok p => Ok (set acc nm p)
             end
         end) (map id l') acc
    = Ok (acc ++ map (fun x => (name x, P x)) l').
Proof.
  intros NDi NDn. induction l' as [|x l' IH]; intros acc Hincl ND.
  - simpl. now rewrite app_nil_r.
  - simpl. unfold getitem.
    assert (Ix : In x l) by (apply Hincl; now left).
    rewrite (get_of_NoDup _ _ id name l x NDi Ix).
    rewrite (get_of_NoDup _ _ name P l x NDn Ix).
    simpl in ND.
    assert (G : get acc (name x) = None).
    { apply get_none_iff. apply NoDup_remove_2 in ND. rewrite in_app_iff in ND. tauto. }
    rewrite (set_absent _ _ _ _ G).
    rewrite IH.
    + now rewrite <- app_assoc.
    + intros y Hy. apply Hincl. now right.
    + unfold keys. rewrite map_app, <- app_assoc. simpl. exact ND.
Qed.

Lemma sort_props_spec (A : Type) (id name : A -> string)
  (P : A -> PyDict.t string) (l : list A) :
  NoDup (map id l) -> NoDup (map name l) ->
  sort_props (map (fun x => (id x, name x)) l) (map (fun x => (name x, P x)) l)
  = Ok (map (fun x => (name x, P x)) (sort_by id l)).
Proof.
  intros NDi NDn. unfold sort_props.
  assert (K : keys (map (fun x => (id x, name x)) l) = map id l).
  { unfold keys. rewrite map_map. reflexivity. }
  rewrite K, <- map_sort_by.
  apply (sort_props_loop A id name P l NDi NDn (sort_by id l) []).
  - intros x Hx. eapply Permutation_in; [apply sort_by_perm | exact Hx].
  - simpl. eapply Permutation_NoDup; [|exact NDn].
    apply Permutation_map. apply Permutation_sym, sort_by_perm.
Qed.

End ParserFacts.

Section ItemFacts.
Import PyDict PyDictFacts.
Variable m : PyDict.t string.

Lemma set_data_total item d :
  data_ok m d -> exists item', set_data m item d = Ok item'.
Proof.
  intros [Hk Hc]. unfold set_data, getitem.
  apply in_keys_get in Hk. destruct Hk as [mapped ->].
  destruct (firstChild d) as [c|]; [|eexists; reflexivity].
  destruct (Hc c eq_refl) as [t ->]. simpl. eexists; reflexivity.
Qed.

Lemma set_data_empty item d mapped :
  firstChild d = None ->
  get m (getAttribute d "key") = Some mapped ->
  set_data m item d = Ok (set item mapped "").
Proof.
  intros Hc Hk. unfold set_data, getitem. now rewrite Hk, Hc.
Qed.

(** What a data element does to the attributes: it sets the one its key
    names. *)
Lemma set_data_inv item d item' :
  set_data m item d = Ok item' ->
  exists mapped v,
    get m (getAttribute d "key") = Some mapped /\ item' = set item mapped v.
Proof.
  unfold set_data, getitem.
  destruct (get m (getAttribute d "key")) as [mapped|]; [|discriminate].
  destruct (firstChild d) as [c|].
  - destruct (node_data c) as [t|]; [|discriminate].
    intros H. inversion H. now exists mapped, t.
  - intros H. inversion H. now exists mapped, "".
Qed.

Lemma read_loop_total ds : forall item,
  (forall d, In d ds -> data_ok m d) ->
  exists attrs, for_each (set_data m) ds item = Ok attrs.
Proof.
  induction ds as [|d ds IH]; intros item Hok; simpl; [now exists item|].
  destruct (set_data_total item d) as [item' E]; [apply Hok; now left|].
  rewrite E. apply IH. intros d' I. apply Hok. now right.
Qed.

Lemma read_loop_keeps ds : forall item attrs x,
  for_each (set_data m) ds item = Ok attrs ->
  In x (keys item) -> In x (keys attrs).
Proof.
  induction ds as [|d ds IH]; intros item attrs x H I; simpl in H.
  - now inversion H; subst.
  - destruct (set_data m item d) as [item'|] eqn:E; [|discriminate].
    apply (IH item' attrs x H).
    destruct (set_data_inv _ _ _ E) as [mapped [v [_ ->]]].
    apply in_keys_set. now right.
Qed.

Lemma read_loop_other ds : forall item attrs x,
  for_each (set_data m) ds item = Ok attrs ->
  (forall d, In d ds -> get m (getAttribute d "key") <> Some x) ->
  get attrs x = get item x.
Proof.
  induction ds as [|d ds IH]; intros item attrs x H Hn; simpl in H.
  - now inversion H; subst.
  - destruct (set_data m item d) as [item'|] eqn:E; [|discriminate].
    rewrite (IH item' attrs x H); [|intros d' I; apply Hn; now right].
    destruct (set_data_inv _ _ _ E) as [mapped [v [G ->]]].
    apply get_set_other. intros ->. apply (Hn d); [now left | exact G].
Qed.

(** An empty data element among the data elements of an item: the
    attribute is there at the end, and it is the empty string unless a
    later data element sets the same attribute. *)
Lemma read_loop_empty pre d post item attrs mapped :
  firstChild d = None ->
  get m (getAttribute d "key") = Some mapped ->
  for_each (set_data m) (pre ++ d :: post) item = Ok attrs ->
  In mapped (keys attrs) /\
  ((forall d', In d' post -> get m (getAttribute d' "key") <> Some mapped) ->
   get attrs mapped = Some "").
Proof.
  intros Hc Hk H. rewrite for_each_app in H.
  destruct (for_each (set_data m) pre item) as [item1|]; [|discriminate].
  simpl in H. rewrite (set_data_empty item1 d mapped Hc Hk) in H. split.
  - apply (read_loop_keeps _ _ _ _ H). apply in_keys_set. now left.
  - intros Hpost. rewrite (read_loop_other _ _ _ _ H Hpost). apply get_set_same.
Qed.

End ItemFacts.

Section GraphFacts.
Variable m : PyDict.t string.

Lemma parse_nodes_inv els : forall g g',
  for_each (parse_node m) els g = Ok g' ->
  graph_name g' = graph_name g /\
  graph_edges g' = graph_edges g /\
  exists ns, graph_nodes g' = graph_nodes g ++ ns /\ Forall2 (node_read m) els ns.
Proof.
  induction els as [|el els IH]; intros g g' H; simpl in H.
  - inversion H; subst. repeat split. exists []. now rewrite app_nil_r.
  - unfold parse_node at 1 in H.
    destruct (read_node_data m el) as [attrs|] eqn:E; [|discriminate].
    destruct (IH _ _ H) as [Hn [He [ns [Hns F]]]]. simpl in *.
    repeat split; auto.
    exists ({| node_id := getAttribute el "id"; node_attr := attrs |} :: ns).
    split; [now rewrite Hns, <- app_assoc|].
    constructor; [|exact F]. split; [reflexivity | exact E].
Qed.

Lemma parse_nodes_total els : forall g,
  (forall el, In el els -> item_ok m el) ->
  exists g', for_each (parse_node m) els g = Ok g'.
Proof.
  induction els as [|el els IH]; intros g Hok; simpl; [now exists g|].
  unfold parse_node at 1.
  destruct (read_loop_total m (getElementsByTagName el "data")
              (node_attr (new_node (getAttribute el "id"))))
    as [attrs E]; [apply Hok; now left|].
  unfold read_node_data. rewrite E. apply IH. intros el' I. apply Hok. now right.
Qed.

Lemma find_node_some nodes id :
  In id (map node_id nodes) -> exists i, find_node nodes id = Some i.
Proof.
  induction nodes as [|n nodes IH]; simpl; [intros []|].
  intros [E|I].
  - rewrite E, String.eqb_refl. now exists 0%nat.
  - destruct (String.eqb (node_id n) id); [now exists 0%nat|].
    destruct (IH I) as [i ->]. now exists (Datatypes.S i).
Qed.

Lemma parse_edges_inv els : forall g g',
  for_each (parse_edge m) els g = Ok g' ->
  graph_name g' = graph_name g /\
  graph_nodes g' = graph_nodes g /\
  exists es,
    graph_edges g' = graph_edges g ++ es /\
    Forall2 (edge_read m (graph_nodes g)) els es.
Proof.
  induction els as [|el els IH]; intros g g' H; simpl in H.
  - inversion H; subst. repeat split. exists []. now rewrite app_nil_r.
  - unfold parse_edge at 1, edge_ends in H.
    destruct (find_node (graph_nodes g) (getAttribute el "source")) as [n1|] eqn:E1;
      [|discriminate].
    destruct (find_node (graph_nodes g) (getAttribute el "target")) as [n2|] eqn:E2;
      [|discriminate].
    destruct (read_data m el) as [attrs|] eqn:E; [|discriminate].
    destruct (IH _ _ H) as [Hn [Hnodes [es [Hes F]]]]. simpl in *.
    repeat split; auto.
    exists ({| edge_node1 := n1; edge_node2 := n2; edge_attr := attrs |} :: es).
    split; [now rewrite Hes, <- app_assoc|].
    constructor; [|exact F]. repeat split; assumption.
Qed.

Lemma parse_edges_total els : forall g,
  (forall el, In el els ->
              item_ok m el /\
              In (getAttribute el "source") (map node_id (graph_nodes g)) /\
              In (getAttribute el "target") (map node_id (graph_nodes g))) ->
  exists g', for_each (parse_edge m) els g = Ok g'.
Proof.
  induction els as [|el els IH]; intros g Hok; simpl; [now exists g|].
  destruct (Hok el (or_introl eq_refl)) as [Hi [Hs Ht]].
  unfold parse_edge at 1, edge_ends.
  destruct (find_node_some _ _ Hs) as [n1 ->].
  destruct (find_node_some _ _ Ht) as [n2 ->].
  destruct (read_loop_total m (getElementsByTagName el "data") PyDict.empty Hi)
    as [attrs E].
  unfold read_data. rewrite E. apply IH. intros el' I. simpl.
  apply Hok. now right.
Qed.

End GraphFacts.

(** What a successful parse returns: the nodes and edges of the graph are
    those read from the [<node>] and [<edge>] elements of the graph
    element, in document order, with the identifier-to-name maps of the
    scan, and the schemas are the sorted ones. *)
Lemma parse_graphml_file_inv dom g es ns :
  parse_graphml_file dom = Ok (g, es, ns) ->
  exists root graph kt,
    graph_element dom = Ok (root, graph) /\
    for_each scan_key (getElementsByTagName root "key") no_keys = Ok kt /\
    sort_props (node_map kt) (node_props kt) = Ok ns /\
    sort_props (edge_map kt) (edge_props kt) = Ok es /\
    graph_name g = getAttribute graph "id" /\
    Forall2 (node_read (node_map kt)) (getElementsByTagName graph "node")
            (graph_nodes g) /\
    Forall2 (edge_read (edge_map kt) (graph_nodes g))
            (getElementsByTagName graph "edge") (graph_edges g).
Proof.
  unfold parse_graphml_file.
  destruct (graph_element dom) as [[root graph]|] eqn:Eg; [|discriminate].
  destruct (for_each scan_key (getElementsByTagName root "key") no_keys)
    as [kt|] eqn:Ek; [|discriminate].
  destruct (sort_props (node_map kt) (node_props kt)) as [ns'|] eqn:En;
    [|discriminate].
  destruct (sort_props (edge_map kt) (edge_props kt)) as [es'|] eqn:Ee;
    [|discriminate].
  destruct (for_each (parse_node (node_map kt)) (getElementsByTagName graph "node")
              (new_graph (getAttribute graph "id"))) as [g1|] eqn:E1; [|discriminate].
  destruct (for_each (parse_edge (edge_map kt)) (getElementsByTagName graph "edge") g1)
    as [g2|] eqn:E2; [|discriminate].
  intros H. inversion H; subst.
  destruct (parse_nodes_inv _ _ _ _ E1) as [Hn1 [He1 [nodes [Hnodes F1]]]].
  destruct (parse_edges_inv _ _ _ _ E2) as [Hn2 [Hnodes2 [edges [Hedges F2]]]].
  simpl in Hn1, He1, Hnodes. rewrite He1 in Hedges. simpl in Hedges.
  exists root, graph, kt.
  split; [reflexivity|]. split; [exact Ek|]. split; [exact En|].
  split; [exact Ee|]. split; [congruence|]. split.
  - rewrite Hnodes2, Hnodes. exact F1.
  - rewrite Hnodes2, Hedges. exact F2.
Qed.

(** C8: a data element without content sets the attribute its key names
    to the empty string.  In the attributes read from a node or edge
    element that holds such a data element the attribute is present, and
    it is the empty string unless a later data element of the same item
    sets it again, whether the item starts without attributes, as an edge
    does, or with the label of a new node; and the attributes of the nodes
    and edges of a parsed graph are the ones read in this way. *)
Theorem C8_empty_data_is_empty_string
  (m : PyDict.t string) (d : dom_node) (mapped : string) :
  firstChild d = None ->
  PyDict.get m (getAttribute d "key") = Some mapped ->
  (forall item,
      set_data m item d = Ok (PyDict.set item mapped "") /\
      PyDict.get (PyDict.set item mapped "") mapped = Some "")
  /\
  (forall el pre post attrs,
      getElementsByTagName el "data" = pre ++ d :: post ->
      read_data m el = Ok attrs ->
      In mapped (PyDict.keys attrs) /\
      ((forall d', In d' post -> PyDict.get m (getAttribute d' "key") <> Some mapped) ->
       PyDict.get attrs mapped = Some ""))
  /\
  (forall el pre post attrs,
      getElementsByTagName el "data" = pre ++ d :: post ->
      read_node_data m el = Ok attrs ->
      In mapped (PyDict.keys attrs) /\
      ((forall d', In d' post -> PyDict.get m (getAttribute d' "key") <> Some mapped) ->
       PyDict.get attrs mapped = Some ""))
  /\
  (forall dom g es ns,
      parse_graphml_file dom = Ok (g, es, ns) ->
      exists root graph kt,
        graph_element dom = Ok (root, graph) /\
        for_each scan_key (getElementsByTagName root "key") no_keys = Ok kt /\
        Forall2 (node_read (node_map kt)) (getElementsByTagName graph "node")
                (graph_nodes g) /\
        Forall2 (edge_read (edge_map kt) (graph_nodes g))
                (getElementsByTagName graph "edge") (graph_edges g)).
Proof.
  intros Hc Hk. split; [|split; [|split]].
  - intros item. split; [now apply set_data_empty | apply PyDictFacts.get_set_same].
  - intros el pre post attrs Hel Hread. unfold read_data in Hread.
    rewrite Hel in Hread. eapply read_loop_empty; eauto.
  - intros el pre post attrs Hel Hread. unfold read_node_data in Hread.
    rewrite Hel in Hread. eapply read_loop_empty; eauto.
  - intros dom g es ns H.
    destruct (parse_graphml_file_inv _ _ _ _ H)
      as [root [graph [kt [Hg [Hs [_ [_ [_ [F1 F2]]]]]]]]].
    now exists root, graph, kt.
Qed.

(** The second node of the sample document has the zone attribute, with
    the empty string as its value. *)
Lemma C8_witness :
  exists g es ns n,
    parse_graphml_file sample_document = Ok (g, es, ns) /\
    nth_error (graph_nodes g) 1 = Some n /\
    PyDict.get (node_attr n) "zone" = Some "" /\
    set_data [("d0", "zone")] [] (Element "data" [("key", "d0")] [])
    = Ok [("zone", "")].
Proof.
  eexists. eexists. eexists. eexists. split; [vm_compute; reflexivity|].
  split; [reflexivity|]. split; [reflexivity|].
  apply (proj1 (proj1 (C8_empty_data_is_empty_string
                         [("d0", "zone")] (Element "data" [("key", "d0")] [])
                         "zone" eq_refl eq_refl) [])).
Defined.

Lemma node_read_ids m els ns :
  Forall2 (node_read m) els ns ->
  map node_id ns = map (fun el => getAttribute el "id") els.
Proof.
  induction 1 as [|el n els ns [Hid _] _ IH]; simpl; [reflexivity|].
  now rewrite Hid, IH.
Qed.

(** C6: parsing a well-formed GraphML document succeeds; the graph has as
    many nodes as the graph element has [<node>] elements and as many
    edges as it has [<edge>] elements; and the node schema and the edge
    schema list the node and the edge declarations in ascending order of
    the identifiers of their [<key>] elements. *)
Theorem C6_counts_and_schema_order (dom : Document) (root graph : dom_node) :
  well_formed_graphml dom root graph ->
  exists g es ns,
    parse_graphml_file dom = Ok (g, es, ns) /\
    length (graph_nodes g) = length (getElementsByTagName graph "node") /\
    length (graph_edges g) = length (getElementsByTagName graph "edge") /\
    in_key_id_order (node_keys root) ns /\
    in_key_id_order (edge_keys root) es.
Proof.
  intros [Hg [Hty [Ni [Nn [Ei [En [Hnodes Hedges]]]]]]].
  destruct (scan_keys_spec (getElementsByTagName root "key") no_keys Hty)
    as [kt [Ek [Hem [Hep [Hnm Hnp]]]]]; try assumption.
  simpl in Hem, Hep, Hnm, Hnp.
  fold (edge_keys root) in Hem, Hep. fold (node_keys root) in Hnm, Hnp.
  pose proof (sort_props_spec dom_node key_id key_name
                (fun k => [("data_type", sqlite_type k)]) (node_keys root) Ni Nn) as Sn.
  pose proof (sort_props_spec dom_node key_id key_name
                (fun k => [("data_type", sqlite_type k)]) (edge_keys root) Ei En) as Se.
  destruct (parse_nodes_total (node_map kt) (getElementsByTagName graph "node")
              (new_graph (getAttribute graph "id"))) as [g1 E1].
  { intros el I. rewrite Hnm. now apply Hnodes. }
  destruct (parse_nodes_inv _ _ _ _ E1) as [_ [He1 [ns1 [Hns1 F1]]]].
  simpl in He1, Hns1.
  destruct (parse_edges_total (edge_map kt) (getElementsByTagName graph "edge") g1)
    as [g2 E2].
  { intros el I. rewrite Hem, Hns1, (node_read_ids _ _ _ F1). now apply Hedges. }
  destruct (parse_edges_inv _ _ _ _ E2) as [_ [Hn2 [es2 [Hes2 F2]]]].
  exists g2, (map schema_entry (sort_by key_id (edge_keys root))),
    (map schema_entry (sort_by key_id (node_keys root))).
  split; [|split; [|split; [|split]]].
  - assert (Sn' : sort_props (node_map kt) (node_props kt)
                  = Ok (map schema_entry (sort_by key_id (node_keys root))))
      by (rewrite Hnm, Hnp; exact Sn).
    assert (Se' : sort_props (edge_map kt) (edge_props kt)
                  = Ok (map schema_entry (sort_by key_id (edge_keys root))))
      by (rewrite Hem, Hep; exact Se).
    unfold parse_graphml_file. rewrite Hg, Ek, Sn', Se', E1, E2. reflexivity.
  - rewrite Hn2, Hns1. symmetry. eapply Forall2_length; eauto.
  - rewrite Hes2, He1. simpl. symmetry. eapply Forall2_length; eauto.
  - exists (sort_by key_id (node_keys root)).
    split; [apply sort_by_perm | split; [apply sort_by_sorted | reflexivity]].
  - exists (sort_by key_id (edge_keys root)).
    split; [apply sort_by_perm | split; [apply sort_by_sorted | reflexivity]].
Qed.

Lemma sample_document_well_formed :
  well_formed_graphml sample_document sample_root sample_graph.
Proof.
  unfold well_formed_graphml.
  split; [reflexivity|].
  split.
  { intros k I. simpl in I.
    destruct I as [<-|[<-|[<-|[]]]]; vm_compute; tauto. }
  split; [vm_compute; repeat constructor; simpl; intuition discriminate|].
  split; [vm_compute; repeat constructor; simpl; intuition discriminate|].
  split; [vm_compute; repeat constructor; simpl; intuition discriminate|].
  split; [vm_compute; repeat constructor; simpl; intuition discriminate|].
  split.
  - intros n I. simpl in I. destruct I as [<-|[<-|[]]]; intros d Id; simpl in Id;
      destruct Id as [<-|[]]; split;
      try (vm_compute; tauto);
      intros c Hc; simpl in Hc; inversion Hc; eexists; reflexivity.
  - intros e I. simpl in I. destruct I as [<-|[]]. split; [|split].
    + intros d Id. simpl in Id. destruct Id as [<-|[]]. split.
      * vm_compute. tauto.
      * intros c Hc. simpl in Hc. inversion Hc. eexists; reflexivity.
    + vm_compute. tauto.
    + vm_compute. tauto.
Qed.

(** The sample document: two nodes, one edge, and a node schema that
    lists the zone (declared as [d0]) before the area (declared as [d2]),
    the other way round than the document declares them and than their
    names sort. *)
Lemma C6_witness :
  exists g es ns,
    parse_graphml_file sample_document = Ok (g, es, ns) /\
    length (graph_nodes g) = 2%nat /\
    length (graph_edges g) = 1%nat /\
    in_key_id_order (node_keys sample_root) ns /\
    in_key_id_order (edge_keys sample_root) es /\
    PyDict.keys ns = ["zone"; "area"].
Proof.
  destruct (C6_counts_and_schema_order sample_document sample_root sample_graph
              sample_document_well_formed)
    as [g [es [ns [Hp [Hn [He [On Oe]]]]]]].
  exists g, es, ns. repeat split; try assumption.
  vm_compute in Hp. inversion Hp. reflexivity.
Defined.

(* ================================================================== *)
(** * Further properties of the code *)

(** ** The table extractor: guards, reserved columns, records *)

Section ExtractorShape.
Import PyDict PyDictFacts.

(** The mapping the node extractor hands to the table library. *)
Lemma extract_nodes_shape cn g :
  ~ attribute_of (map snd (nodes_data g)) (ID_COLUMN_NAME cn) ->
  ~ attribute_of (map snd (nodes_data g)) (SOURCE_COLUMN_NAME cn) ->
  extract_nodes_as_table cn g
  = from_pydict
      (set (map (fun k => (k, padded_column snd (nodes_data g) k))
                (union_keys (map snd (nodes_data g))))
           (ID_COLUMN_NAME cn) (map fst (nodes_data g))).
Proof.
  intros Hid Hsrc. unfold extract_nodes_as_table.
  rewrite <- union_keys_spec in Hid, Hsrc.
  apply in_set_false_iff in Hid, Hsrc. now rewrite Hid, Hsrc.
Qed.

(** The mapping the edge extractor hands to the table library. *)
Lemma extract_edges_shape cn g :
  ~ attribute_of (map edge_dict (edges_data g)) (SOURCE_COLUMN_NAME cn) ->
  extract_edges_as_table cn g
  = from_pydict
      (update
         (set (set empty (SOURCE_COLUMN_NAME cn) (map edge_source (edges_data g)))
              (TARGET_COLUMN_NAME cn) (map edge_target (edges_data g)))
         (map (fun k => (k, padded_column edge_dict (edges_data g) k))
              (union_keys (map edge_dict (edges_data g))))).
Proof.
  intros Hsrc. unfold extract_edges_as_table.
  rewrite <- union_keys_spec in Hsrc.
  apply in_set_false_iff in Hsrc. now rewrite Hsrc.
Qed.

Lemma keyed_wf (V : Type) (f : string -> V) names :
  NoDup names -> wf (map (fun k => (k, f k)) names).
Proof. intros H. unfold wf. now rewrite keys_keyed. Qed.

Lemma nodes_table_rectangular cn (items : list (pyvalue * Attrs)) names :
  rectangular
    (set (map (fun k => (k, padded_column snd items k)) names)
         (ID_COLUMN_NAME cn) (map fst items))
    (length items).
Proof.
  intros k c Hc.
  destruct (string_dec k (ID_COLUMN_NAME cn)) as [->|Hk].
  - rewrite get_set_same in Hc. inversion Hc. apply length_map.
  - rewrite get_set_other, get_keyed in Hc by exact Hk.
    destruct (in_dec string_dec k names); [|discriminate].
    inversion Hc. apply length_map.
Qed.

Lemma edges_table_rectangular cn (items : list (pyvalue * pyvalue * Attrs)) names :
  NoDup names ->
  rectangular
    (update
       (set (set empty (SOURCE_COLUMN_NAME cn) (map edge_source items))
            (TARGET_COLUMN_NAME cn) (map edge_target items))
       (map (fun k => (k, padded_column edge_dict items k)) names))
    (length items).
Proof.
  intros ND k c Hc.
  rewrite get_update, get_keyed in Hc by (now apply keyed_wf).
  destruct (in_dec string_dec k names).
  - inversion Hc. apply length_map.
  - destruct (string_dec k (TARGET_COLUMN_NAME cn)) as [->|Ht].
    { rewrite get_set_same in Hc. inversion Hc. apply length_map. }
    rewrite get_set_other in Hc by exact Ht.
    destruct (string_dec k (SOURCE_COLUMN_NAME cn)) as [->|Hs].
    { rewrite get_set_same in Hc. inversion Hc. apply length_map. }
    rewrite get_set_other in Hc by exact Hs. discriminate.
Qed.

Lemma nodes_mapping_wf cn (items : list (pyvalue * Attrs)) names :
  NoDup names ->
  wf (set (map (fun k => (k, padded_column snd items k)) names)
          (ID_COLUMN_NAME cn) (map fst items)).
Proof. intros ND. apply wf_set. now apply keyed_wf. Qed.

Lemma edges_mapping_wf cn (items : list (pyvalue * pyvalue * Attrs)) names :
  NoDup names ->
  wf (update
        (set (set empty (SOURCE_COLUMN_NAME cn) (map edge_source items))
             (TARGET_COLUMN_NAME cn) (map edge_target items))
        (map (fun k => (k, padded_column edge_dict items k)) names)).
Proof. intros ND. apply wf_update. do 2 apply wf_set. constructor. Qed.

(** How an extraction ends once the guards are passed. *)
Lemma nodes_mapping_outcome cn g :
  let m := set (map (fun k => (k, padded_column snd (nodes_data g) k))
                    (union_keys (map snd (nodes_data g))))
               (ID_COLUMN_NAME cn) (map fst (nodes_data g)) in
  (forall t, from_pydict m = Ok t -> t = m /\ accepted_by_arrow m) /\
  (forall e, from_pydict m = Raise e -> e = ArrowInvalid \/ e = ArrowTypeError).
Proof.
  intros m.
  destruct (from_pydict_spec m (length (nodes_data g))) as [_ [A2 A3]].
  - apply nodes_mapping_wf, union_keys_NoDup.
  - apply nodes_table_rectangular.
  - split; assumption.
Qed.

Lemma edges_mapping_outcome cn g :
  let m := update
             (set (set empty (SOURCE_COLUMN_NAME cn) (map edge_source (edges_data g)))
                  (TARGET_COLUMN_NAME cn) (map edge_target (edges_data g)))
             (map (fun k => (k, padded_column edge_dict (edges_data g) k))
                  (union_keys (map edge_dict (edges_data g)))) in
  (forall t, from_pydict m = Ok t -> t = m /\ accepted_by_arrow m) /\
  (forall e, from_pydict m = Raise e -> e = ArrowInvalid \/ e = ArrowTypeError).
Proof.
  intros m.
  destruct (from_pydict_spec m (length (edges_data g))) as [_ [A2 A3]].
  - apply edges_mapping_wf, union_keys_NoDup.
  - apply edges_table_rectangular, union_keys_NoDup.
  - split; assumption.
Qed.

(** A nodes table that is returned: the guards were passed, and the table
    is the mapping, which the table library accepted. *)
Lemma extract_nodes_ok cn g t :
  extract_nodes_as_table cn g = Ok t ->
  ~ attribute_of (map snd (nodes_data g)) (ID_COLUMN_NAME cn) /\
  ~ attribute_of (map snd (nodes_data g)) (SOURCE_COLUMN_NAME cn) /\
  t = set (map (fun k => (k, padded_column snd (nodes_data g) k))
               (union_keys (map snd (nodes_data g))))
          (ID_COLUMN_NAME cn) (map fst (nodes_data g)) /\
  accepted_by_arrow t.
Proof.
  intros H.
  assert (Hid : ~ attribute_of (map snd (nodes_data g)) (ID_COLUMN_NAME cn)).
  { intros A. unfold extract_nodes_as_table in H.
    apply union_keys_spec, in_set_true_iff in A. rewrite A in H. discriminate. }
  assert (Hsrc : ~ attribute_of (map snd (nodes_data g)) (SOURCE_COLUMN_NAME cn)).
  { intros A. unfold extract_nodes_as_table in H.
    rewrite <- union_keys_spec in Hid. apply in_set_false_iff in Hid.
    apply union_keys_spec, in_set_true_iff in A. rewrite Hid, A in H.
    discriminate. }
  split; [exact Hid|]. split; [exact Hsrc|].
  rewrite (extract_nodes_shape cn g Hid Hsrc) in H.
  destruct (proj1 (nodes_mapping_outcome cn g) t H) as [-> A].
  split; [reflexivity | exact A].
Qed.

(** An edges table that is returned. *)
Lemma extract_edges_ok cn g t :
  extract_edges_as_table cn g = Ok t ->
  ~ attribute_of (map edge_dict (edges_data g)) (SOURCE_COLUMN_NAME cn) /\
  t = update
        (set (set empty (SOURCE_COLUMN_NAME cn) (map edge_source (edges_data g)))
             (TARGET_COLUMN_NAME cn) (map edge_target (edges_data g)))
        (map (fun k => (k, padded_column edge_dict (edges_data g) k))
             (union_keys (map edge_dict (edges_data g)))) /\
  accepted_by_arrow t.
Proof.
  intros H.
  assert (Hsrc : ~ attribute_of (map edge_dict (edges_data g)) (SOURCE_COLUMN_NAME cn)).
  { intros A. unfold extract_edges_as_table in H.
    apply union_keys_spec, in_set_true_iff in A. rewrite A in H. discriminate. }
  split; [exact Hsrc|].
  rewrite (extract_edges_shape cn g Hsrc) in H.
  destruct (proj1 (edges_mapping_outcome cn g) t H) as [-> A].
  split; [reflexivity | exact A].
Qed.

End ExtractorShape.




(** X3: the reserved columns of the extracted tables.  In a nodes table
    that is returned the identifier column lists the nodes in the order
    of the graph; in an edges table that is returned the source column
    lists the edges' first ends, and the target column lists their second
    ends when no edge attribute is named like it, and otherwise holds that
    attribute's padded values in place of the ends. *)
Theorem reserved_columns_of_extracted_tables (cn : Defaults) (g : nx_Graph) :
  (forall t,
      extract_nodes_as_table cn g = Ok t ->
      PyDict.get t (ID_COLUMN_NAME cn) = Some (map fst (nodes_data g)))
  /\
  (forall t,
      extract_edges_as_table cn g = Ok t ->
      (SOURCE_COLUMN_NAME cn <> TARGET_COLUMN_NAME cn ->
       PyDict.get t (SOURCE_COLUMN_NAME cn) = Some (map edge_source (edges_data g))) /\
      (~ attribute_of (map edge_dict (edges_data g)) (TARGET_COLUMN_NAME cn) ->
       PyDict.get t (TARGET_COLUMN_NAME cn) = Some (map edge_target (edges_data g))) /\
      (attribute_of (map edge_dict (edges_data g)) (TARGET_COLUMN_NAME cn) ->
       PyDict.get t (TARGET_COLUMN_NAME cn)
       = Some (padded_column edge_dict (edges_data g) (TARGET_COLUMN_NAME cn)))).
Proof.
  split.
  - intros t H. destruct (extract_nodes_ok cn g t H) as [_ [_ [-> _]]].
    apply PyDictFacts.get_set_same.
  - intros t H. destruct (extract_edges_ok cn g t H) as [Hsrc [-> _]].
    assert (W : PyDict.wf
                  (map (fun k => (k, padded_column edge_dict (edges_data g) k))
                       (union_keys (map edge_dict (edges_data g)))))
      by (apply keyed_wf, union_keys_NoDup).
    split; [|split].
    + intros Hne. rewrite get_update, get_keyed by exact W.
      destruct (in_dec string_dec (SOURCE_COLUMN_NAME cn)
                  (union_keys (map edge_dict (edges_data g)))) as [I|_].
      * apply union_keys_spec in I. contradiction.
      * rewrite PyDictFacts.get_set_other by exact Hne.
        apply PyDictFacts.get_set_same.
    + intros Ht. rewrite get_update, get_keyed by exact W.
      destruct (in_dec string_dec (TARGET_COLUMN_NAME cn)
                  (union_keys (map edge_dict (edges_data g)))) as [I|_].
      * apply union_keys_spec in I. contradiction.
      * apply PyDictFacts.get_set_same.
    + intros Ht. rewrite get_update, get_keyed by exact W.
      destruct (in_dec string_dec (TARGET_COLUMN_NAME cn)
                  (union_keys (map edge_dict (edges_data g)))) as [_|N].
      * reflexivity.
      * exfalso. apply N. now apply union_keys_spec.
Qed.

(** Two edges, the second with a number as an attribute called [target]:
    the table is returned, and its target column holds the placeholder and
    the attribute, not the end nodes. *)
Lemma reserved_columns_witness :
  exists t,
    extract_edges_as_table defaults
      {| nodes_data := [];
         edges_data := [(PyInt 1, PyInt 2, []);
                        (PyInt 2, PyInt 3, [("target", PyInt 7)])] |} = Ok t /\
    PyDict.get t "source" = Some [PyInt 1; PyInt 2] /\
    PyDict.get t "target" = Some [PyNaN; PyInt 7].
Proof.
  set (g := {| nodes_data := [];
               edges_data := [(PyInt 1, PyInt 2, []);
                              (PyInt 2, PyInt 3, [("target", PyInt 7)])] |}).
  assert (X : exists t, extract_edges_as_table defaults g = Ok t)
    by (eexists; vm_compute; reflexivity).
  destruct X as [t Ht].
  destruct (proj2 (reserved_columns_of_extracted_tables defaults g) t Ht)
    as [Hs [_ Hp]].
  exists t. split; [exact Ht|]. split.
  - apply Hs. discriminate.
  - apply Hp. exists [("target", PyInt 7)]. simpl. auto.
Defined.

Section Records.
Import PyDict PyDictFacts.

(** Every record of a batch has the batch's columns, in their order. *)
Lemma to_rows_keys (bd : Batch) r :
  wf bd -> In r (to_rows bd) -> keys r = keys bd.
Proof.
  intros W Hr. apply In_nth_error in Hr. destruct Hr as [i Hr].
  unfold to_rows in Hr. rewrite nth_error_map in Hr.
  destruct (nth_error (zip_star (values bd)) i) as [t|] eqn:E; [|discriminate].
  simpl in Hr. inversion Hr; subst. apply zip_star_row in E.
  unfold dict_zip. rewrite update_fresh.
  - simpl. eapply keys_combine_row; eauto.
  - simpl. unfold wf. erewrite keys_combine_row; eauto.
Qed.

End Records.

(** X4: the records made of an extracted nodes table, as the inserter
    makes them.  Of a nodes table that is returned there is one record
    per node, in the order of the graph, each with all the columns of the
    table, the node's identifier under the identifier column and, under
    every attribute name of the graph, the node's value or the
    placeholder. *)
Theorem records_of_extracted_nodes (cn : Defaults) (g : nx_Graph) (t : ColumnTable) :
  extract_nodes_as_table cn g = Ok t ->
  length (to_rows t) = length (nodes_data g) /\
  forall i n,
    nth_error (nodes_data g) i = Some n ->
    exists r,
      nth_error (to_rows t) i = Some r /\
      PyDict.keys r = PyDict.keys t /\
      PyDict.get r (ID_COLUMN_NAME cn) = Some (fst n) /\
      forall k,
        attribute_of (map snd (nodes_data g)) k ->
        PyDict.get r k = Some (get_default (snd n) k PyNaN).
Proof.
  intros Hex. destruct (extract_nodes_ok cn g t Hex) as [Hid [Hsrc [Et _]]].
  set (names := union_keys (map snd (nodes_data g))) in *.
  assert (W : PyDict.wf t).
  { rewrite Et. apply PyDictFacts.wf_set, keyed_wf, union_keys_NoDup. }
  assert (R : rectangular t (length (nodes_data g)))
    by (rewrite Et; apply nodes_table_rectangular).
  assert (Hne : t <> []).
  { intros E. assert (X : PyDict.get t (ID_COLUMN_NAME cn) = None) by now rewrite E.
    rewrite Et in X. rewrite PyDictFacts.get_set_same in X. discriminate. }
  pose proof (to_rows_length t _ Hne R W) as Hlen.
  split; [exact Hlen|].
  intros i n Hn.
  assert (Hi : (i < length (to_rows t))%nat).
  { rewrite Hlen. apply nth_error_Some. congruence. }
  destruct (nth_error (to_rows t) i) as [r|] eqn:Hr;
    [|apply nth_error_Some in Hi; congruence].
  exists r. split; [reflexivity|]. split.
  { apply to_rows_keys; [exact W | eapply nth_error_In; eauto]. }
  split.
  - destruct (to_rows_cell t i r (ID_COLUMN_NAME cn) (map fst (nodes_data g)) W Hr)
      as [x [Hx Gx]]; [rewrite Et; apply PyDictFacts.get_set_same|].
    rewrite nth_error_map, Hn in Hx. simpl in Hx. congruence.
  - intros k Hk.
    assert (Hne' : k <> ID_COLUMN_NAME cn) by (intros ->; contradiction).
    destruct (to_rows_cell t i r k (padded_column snd (nodes_data g) k) W Hr)
      as [x [Hx Gx]].
    { rewrite Et. rewrite PyDictFacts.get_set_other, get_keyed by exact Hne'.
      destruct (in_dec string_dec k names) as [_|N]; [reflexivity|].
      exfalso. apply N. now apply union_keys_spec. }
    unfold padded_column in Hx. rewrite nth_error_map, Hn in Hx. simpl in Hx.
    congruence.
Qed.

(** Node [A] has a weight, node [B] has none: two records, the second
    with the placeholder as its weight. *)
Lemma records_of_extracted_nodes_witness :
  length
    (to_rows [("weight", [PyInt 3; PyNaN]); ("id", [PyStr "A"; PyStr "B"])])
  = 2%nat /\
  exists r,
    nth_error
      (to_rows [("weight", [PyInt 3; PyNaN]); ("id", [PyStr "A"; PyStr "B"])]) 1
    = Some r /\
    PyDict.get r "id" = Some (PyStr "B") /\
    PyDict.get r "weight" = Some PyNaN.
Proof.
  destruct (records_of_extracted_nodes defaults
              {| nodes_data := [(PyStr "A", [("weight", PyInt 3)]); (PyStr "B", [])];
                 edges_data := [] |}
              [("weight", [PyInt 3; PyNaN]); ("id", [PyStr "A"; PyStr "B"])]
              eq_refl) as [Hl Hr].
  split; [exact Hl|].
  destruct (Hr 1%nat (PyStr "B", []) eq_refl) as [r [H1 [_ [H2 H3]]]].
  exists r. split; [exact H1|]. split; [exact H2|].
  apply (H3 "weight"). exists [("weight", PyInt 3)]. simpl. auto.
Defined.

(* ------------------------------------------------------------------ *)
(** ** The schema-mapping inserter: records, mapping, seen identifiers *)

Lemma zip_star_min_length cols : length (zip_star cols) = min_length cols.
Proof.
  induction cols as [|c cs IH]; [reflexivity|].
  simpl. destruct cs as [|c' cs'].
  - apply length_map.
  - rewrite length_map, length_combine, IH. reflexivity.
Qed.

(** X5: the records made of a batch.  There are as many as the shortest
    column is long (none when the batch has no column); each has the
    columns of the batch, in their order; and record [i] holds cell [i] of
    every column. *)
Theorem records_of_a_batch (b : Batch) :
  PyDict.wf b ->
  length (to_rows b) = min_length (PyDict.values b) /\
  forall i r,
    nth_error (to_rows b) i = Some r ->
    PyDict.keys r = PyDict.keys b /\
    forall k col,
      PyDict.get b k = Some col ->
      exists x, nth_error col i = Some x /\ PyDict.get r k = Some x.
Proof.
  intros W. split.
  - unfold to_rows. rewrite length_map. apply zip_star_min_length.
  - intros i r Hr. split.
    + apply to_rows_keys; [exact W | eapply nth_error_In; eauto].
    + intros k col Hk. eapply to_rows_cell; eauto.
Qed.

(** A batch whose second column is shorter: one record only. *)
Lemma records_of_a_batch_witness :
  length (to_rows [("id", [PyInt 1; PyInt 2]); ("name", [PyStr "a"])]) = 1%nat.
Proof.
  apply (proj1 (records_of_a_batch
                  [("id", [PyInt 1; PyInt 2]); ("name", [PyStr "a"])]
                  ltac:(repeat constructor; simpl; intuition discriminate))).
Defined.

Section MappingInvariants.
Import PyDict PyDictFacts.
Variable copy : string -> string -> bool.
Variable msg : string.
Local Abbreviation step := (column_step copy msg).

Lemma column_step_wf (b b1 : Batch) k v :
  step b (k, v) = Ok b1 -> wf b -> wf b1.
Proof.
  intros Hs W.
  destruct (column_step_cases copy msg b k v)
    as [[_ E]|[[d [_ [_ E]]]|[[d [_ [_ [_ E]]]]|[d [_ [_ [_ E]]]]]]];
    rewrite E in Hs; inversion Hs; subst; try assumption.
  - now apply wf_set.
  - now apply wf_set, wf_remove.
Qed.

(** A step makes no cells: every column after it was a column before. *)
Lemma column_step_cells (b b1 : Batch) k v x col :
  step b (k, v) = Ok b1 -> get b1 x = Some col -> exists k', get b k' = Some col.
Proof.
  intros Hs Hx.
  destruct (column_step_cases copy msg b k v)
    as [[_ E]|[[d [G [_ E]]]|[[d [_ [_ [_ E]]]]|[d [G [_ [_ E]]]]]]];
    rewrite E in Hs; inversion Hs; subst.
  - now exists x.
  - destruct (string_dec x v) as [->|N].
    + rewrite get_set_same in Hx. inversion Hx; subst. now exists k.
    + rewrite get_set_other in Hx by exact N. now exists x.
  - destruct (string_dec x v) as [->|N].
    + rewrite get_set_same in Hx. inversion Hx; subst. now exists k.
    + rewrite get_set_other in Hx by exact N.
      destruct (string_dec x k) as [->|N'].
      * rewrite get_remove_same in Hx. discriminate.
      * rewrite get_remove_other in Hx by exact N'. now exists x.
Qed.

Lemma column_map_wf cmap : forall b b' : Batch,
  for_each step cmap b = Ok b' -> wf b -> wf b'.
Proof.
  induction cmap as [|[k v] cmap IH]; intros b b' H W; simpl in H.
  - now inversion H; subst.
  - destruct (step b (k, v)) as [b1|] eqn:E; [|discriminate].
    apply (IH b1 b' H). eapply column_step_wf; eauto.
Qed.

Lemma column_map_cells cmap : forall (b b' : Batch) x col,
  for_each step cmap b = Ok b' -> get b' x = Some col ->
  exists k, get b k = Some col.
Proof.
  induction cmap as [|[k v] cmap IH]; intros b b' x col H Hx; simpl in H.
  - inversion H; subst. now exists x.
  - destruct (step b (k, v)) as [b1|] eqn:E; [|discriminate].
    destruct (IH b1 b' x col H Hx) as [k1 Hk1].
    eapply column_step_cells; eauto.
Qed.

(** The mapping adds no column but its targets. *)
Lemma column_map_adds cmap : forall (b b' : Batch) x,
  for_each step cmap b = Ok b' -> In x (keys b') ->
  In x (targets cmap) \/ In x (keys b).
Proof.
  induction cmap as [|[k v] cmap IH]; intros b b' x H Hx; simpl in H.
  - inversion H; subst. now right.
  - destruct (step b (k, v)) as [b1|] eqn:E; [|discriminate].
    destruct (IH b1 b' x H Hx) as [I|I]; [left; now right|].
    destruct (column_step_adds copy msg _ _ _ _ _ E I) as [->|I'];
      [left; now left | now right].
Qed.

(** The mapping leaves alone what it does not name. *)
Lemma column_map_frame cmap : forall (b b' : Batch) x,
  for_each step cmap b = Ok b' ->
  ~ In x (keys cmap) -> ~ In x (targets cmap) -> get b' x = get b x.
Proof.
  induction cmap as [|[k v] cmap IH]; intros b b' x H Hs Ht; simpl in H.
  - now inversion H; subst.
  - destruct (step b (k, v)) as [b1|] eqn:E; [|discriminate].
    simpl in Hs, Ht.
    rewrite (IH b1 b' x H) by tauto.
    apply (column_step_frame copy msg _ _ _ _ x E); intros ->; tauto.
Qed.

(** Pairs whose source is not in the batch do nothing. *)
Lemma column_map_skips cmap : forall b : Batch,
  (forall k v, In (k, v) cmap -> ~ In k (keys b)) ->
  for_each step cmap b = Ok b.
Proof.
  induction cmap as [|[k v] cmap IH]; intros b H; simpl; [reflexivity|].
  assert (G : get b k = None).
  { apply get_none_iff. apply (H k v). now left. }
  unfold column_step at 1. simpl. rewrite G.
  apply IH. intros k' v' I. apply (H k' v'). now right.
Qed.

End MappingInvariants.

(** X6: applying a column mapping, to a nodes or to an edges batch, makes
    no data and loses no shape.  When it goes through, the mapped batch is
    a dictionary again, each of its columns holds the cells of a column of
    the batch it came from (so a rectangular batch stays rectangular),
    every column is an old column or a target of the mapping, and the
    columns that the mapping names neither as a source nor as a target are
    as they were. *)
Theorem mapping_keeps_the_data (cn : Defaults) (schema : option SqliteTableSchema)
  (b b' : Batch) :
  map_nodes_columns cn schema b = Ok b' \/ map_edges_columns schema b = Ok b' ->
  PyDict.wf b ->
  PyDict.wf b' /\
  (forall x col, PyDict.get b' x = Some col -> exists k, PyDict.get b k = Some col) /\
  (forall n, rectangular b n -> rectangular b' n) /\
  (forall x, In x (PyDict.keys b') ->
             In x (targets (column_map_of schema)) \/ In x (PyDict.keys b)) /\
  (forall x, ~ In x (PyDict.keys (column_map_of schema)) ->
             ~ In x (targets (column_map_of schema)) ->
             PyDict.get b' x = PyDict.get b x).
Proof.
  intros H W.
  assert (G : exists copy msg,
             for_each (column_step copy msg) (column_map_of schema) b = Ok b').
  { destruct H as [H|H].
    - exists (is_id_to_label cn), "Duplicate nodes column name after mapping: {v}".
      exact H.
    - exists (fun _ _ => false), "Duplicate edges column name after mapping: {v}".
      exact H. }
  destruct G as [copy [msg G]].
  assert (C : forall x col, PyDict.get b' x = Some col ->
                            exists k, PyDict.get b k = Some col).
  { intros x col Hx. eapply column_map_cells; eauto. }
  split; [eapply column_map_wf; eauto|]. split; [exact C|]. split; [|split].
  - intros n R x col Hx. destruct (C x col Hx) as [k Hk]. now apply (R k).
  - intros x Hx. eapply column_map_adds; eauto.
  - intros x Hs Ht. eapply column_map_frame; eauto.
Qed.

(** An edges batch with a weight column, its ends renamed to the reserved
    names: the source column of the mapped batch holds the cells of a
    column of the batch. *)
Lemma mapping_keeps_the_data_witness :
  exists k,
    PyDict.get [("from", [PyInt 1; PyInt 2]); ("weight", [PyInt 5; PyInt 6]);
                ("to", [PyInt 2; PyInt 3])] k
    = Some [PyInt 1; PyInt 2].
Proof.
  apply (proj1 (proj2 (mapping_keeps_the_data defaults
           (schema_of [("from", "source"); ("to", "target")])
           [("from", [PyInt 1; PyInt 2]); ("weight", [PyInt 5; PyInt 6]);
            ("to", [PyInt 2; PyInt 3])]
           [("weight", [PyInt 5; PyInt 6]); ("source", [PyInt 1; PyInt 2]);
            ("target", [PyInt 2; PyInt 3])]
           (or_intror eq_refl)
           ltac:(repeat constructor; simpl; intuition discriminate)))
           "source" [PyInt 1; PyInt 2] eq_refl).
Defined.

(** X7: a pair of the mapping whose source column the batch does not have
    is passed over.  A mapping none of whose sources is a column of the
    batch (and so a missing schema, or an empty mapping) leaves the batch
    as it is, whatever its targets, and the edges batch goes to the store
    unmapped. *)
Theorem inapplicable_mapping_is_ignored (cn : Defaults)
  (schema : option SqliteTableSchema) (b : Batch) :
  (forall k v, In (k, v) (column_map_of schema) -> ~ In k (PyDict.keys b)) ->
  map_nodes_columns cn schema b = Ok b /\
  map_edges_columns schema b = Ok b /\
  forall (S : Type) (store : NetworkData S) (added : pyset) (s : S),
    edges_batch schema added b s
    = bind (insert_edges (to_rows b) added)
           (fun all_node_ids => ret (set_update added all_node_ids)) s.
Proof.
  intros H.
  assert (Hn : map_nodes_columns cn schema b = Ok b).
  { unfold map_nodes_columns, PyDict.items. rewrite nodes_column_step_shape.
    now apply column_map_skips. }
  assert (He : map_edges_columns schema b = Ok b).
  { unfold map_edges_columns, PyDict.items. rewrite edges_column_step_shape.
    now apply column_map_skips. }
  split; [exact Hn|]. split; [exact He|].
  intros S store added s. unfold edges_batch. unfold bind at 1.
  rewrite He. reflexivity.
Qed.

(** A schema written for other column names does nothing to a batch that
    already has the reserved ones, although its targets are columns of
    the batch. *)
Lemma inapplicable_mapping_witness :
  map_edges_columns (schema_of [("from", "source"); ("to", "target")])
    [("source", [PyInt 1]); ("target", [PyInt 2])]
  = Ok [("source", [PyInt 1]); ("target", [PyInt 2])].
Proof.
  apply (proj1 (proj2 (inapplicable_mapping_is_ignored defaults
           (schema_of [("from", "source"); ("to", "target")])
           [("source", [PyInt 1]); ("target", [PyInt 2])]
           ltac:(intros k v I; simpl in I;
                 destruct I as [I|[I|[]]]; inversion I; subst;
                 simpl; intuition discriminate)))).
Defined.

(** X8: the edges loop has no copy rule.  For an edges batch and a mapping
    (a dictionary) in which no applicable pair's target is a source of the
    mapping, no two applicable pairs share a target and no applicable pair
    targets a column of the batch, the mapping goes through and every
    applicable pair is a rename: the target holds the source's cells and
    the source is gone, identifier-to-label included; the columns no
    applicable pair names are as they were. *)
Theorem edges_mapping_renames (cmap : PyDict.t string) (b : Batch) :
  PyDict.wf cmap ->
  no_chaining cmap b ->
  distinct_targets cmap b ->
  fresh_targets (fun _ _ => false) cmap b ->
  exists b',
    map_edges_columns (schema_of cmap) b = Ok b' /\
    (forall k v data,
        In (k, v) cmap -> PyDict.get b k = Some data ->
        PyDict.get b' v = Some data /\ PyDict.get b' k = None) /\
    (forall x,
        ~ In x (PyDict.keys cmap) ->
        (forall k, In (k, x) cmap -> ~ In k (PyDict.keys b)) ->
        PyDict.get b' x = PyDict.get b x).
Proof.
  intros W NC DT FT.
  unfold map_edges_columns, schema_of, column_map_of, PyDict.items. simpl.
  rewrite edges_column_step_shape.
  destruct (column_map_renames (fun _ _ => false)
              "Duplicate edges column name after mapping: {v}" cmap b W NC DT FT)
    as [b' [E [P F]]].
  exists b'. split; [exact E|]. split; [|exact F].
  intros k v data I G. exact (P k v data I G).
Qed.

(** In an edges batch the identifier column mapped to the label is moved,
    not copied. *)
Lemma edges_mapping_renames_witness :
  exists b',
    map_edges_columns (schema_of [("id", "label")])
      [("id", [PyInt 7]); ("source", [PyInt 1]); ("target", [PyInt 2])] = Ok b' /\
    PyDict.get b' "label" = Some [PyInt 7] /\
    PyDict.get b' "id" = None.
Proof.
  destruct (edges_mapping_renames [("id", "label")]
              [("id", [PyInt 7]); ("source", [PyInt 1]); ("target", [PyInt 2])])
    as [b' [E [P _]]].
  - repeat constructor; simpl; intuition discriminate.
  - intros k v k' v' I _ I'. simpl in I, I'.
    destruct I as [I|[]]; destruct I' as [I'|[]]; inversion I; inversion I'; subst.
    discriminate.
  - intros k k' v I I' _ _. simpl in I, I'.
    destruct I as [I|[]]; destruct I' as [I'|[]]; inversion I; inversion I'; subst.
    reflexivity.
  - intros k v I _ _ Iv. simpl in I, Iv. destruct I as [I|[]]. inversion I; subst.
    intuition discriminate.
  - exists b'. split; [exact E|].
    apply (P "id" "label" [PyInt 7]); [simpl; auto | reflexivity].
Defined.

Section MissingIdentifier.
Context {S : Type} {store : NetworkData S}.

Lemma nodes_batch_without_id cn schema added (b : Batch) (s : S) :
  ~ In (ID_COLUMN_NAME cn) (PyDict.keys b) ->
  ~ In (ID_COLUMN_NAME cn) (targets (column_map_of schema)) ->
  exists e,
    nodes_batch cn schema added b s = (Raise e, s) /\
    (e = KeyError (ID_COLUMN_NAME cn) \/ e = duplicate_nodes_column).
Proof.
  intros Hb Ht.
  destruct (map_nodes_columns cn schema b) as [bd|e] eqn:E.
  - exists (KeyError (ID_COLUMN_NAME cn)). split; [|now left].
    assert (G : PyDict.get bd (ID_COLUMN_NAME cn) = None).
    { apply PyDictFacts.get_none_iff. intros I.
      unfold map_nodes_columns, PyDict.items in E.
      rewrite nodes_column_step_shape in E.
      destruct (column_map_adds _ _ _ _ _ _ E I); contradiction. }
    unfold nodes_batch. unfold bind at 1. rewrite E. simpl.
    unfold bind at 1. unfold PyDict.getitem. rewrite G. reflexivity.
  - exists e. split; [now apply nodes_batch_raises|]. right.
    unfold map_nodes_columns, PyDict.items in E.
    rewrite nodes_column_step_shape in E.
    apply column_map_raises in E. exact E.
Qed.

End MissingIdentifier.

(** X9: a nodes batch that has no identifier column, under a mapping that
    does not produce one, is never inserted: the batch raises a
    [KeyError] for the identifier column, or the duplicate-column
    exception if the mapping fails first, and the store is as it was.  The
    inserter stops there: the store keeps what the earlier nodes batches
    put in, and no edges batch is reached. *)
Theorem nodes_without_identifier_are_refused
  (S : Type) (store : NetworkData S) (cn : Defaults)
  (schema : option SqliteTableSchema) (b : Batch) :
  ~ In (ID_COLUMN_NAME cn) (PyDict.keys b) ->
  ~ In (ID_COLUMN_NAME cn) (targets (column_map_of schema)) ->
  (forall added s,
      exists e,
        nodes_batch cn schema added b s = (Raise e, s) /\
        (e = KeyError (ID_COLUMN_NAME cn) \/ e = duplicate_nodes_column))
  /\
  (forall edges_table edges_schema nodes_table chunk_size pre post acc1 s s1,
      to_batches nodes_table chunk_size = pre ++ b :: post ->
      for_eachM (nodes_batch cn schema) pre [] s = (Ok acc1, s1) ->
      exists e,
        insert_table_data_into_network_graph cn edges_table edges_schema
          (Some nodes_table) schema chunk_size s = (Raise e, s1) /\
        (e = KeyError (ID_COLUMN_NAME cn) \/ e = duplicate_nodes_column)).
Proof.
  intros Hb Ht. split.
  - intros added s. now apply nodes_batch_without_id.
  - intros edges_table edges_schema nodes_table chunk_size pre post acc1 s s1
           Hbs Hpre.
    destruct (nodes_batch_without_id cn schema acc1 b s1 Hb Ht) as [e [He Hor]].
    exists e. split; [|exact Hor].
    rewrite insert_table_data_two_loops. unfold bind, insert_nodes_table.
    rewrite Hbs.
    now rewrite (for_eachM_raises Batch pyset _ pre b post [] acc1 s s1 e Hpre He).
Qed.

(** A nodes table whose only batch has names but no identifiers, with no
    schema: a [KeyError], and an empty store. *)
Lemma nodes_without_identifier_witness :
  insert_table_data_into_network_graph (store := spec_store defaults) defaults
    {| to_batches := fun _ => [[("source", [PyInt 1]); ("target", [PyInt 2])]] |}
    None
    (Some {| to_batches := fun _ => [[("name", [PyStr "a"])]] |})
    None 1024 empty_store
  = (Raise (KeyError "id"), empty_store).
Proof.
  destruct (proj2 (nodes_without_identifier_are_refused SpecStore
                     (spec_store defaults) defaults None [("name", [PyStr "a"])]
                     ltac:(simpl; intuition discriminate)
                     ltac:(simpl; tauto))
              {| to_batches := fun _ => [[("source", [PyInt 1]); ("target", [PyInt 2])]] |}
              None
              {| to_batches := fun _ => [[("name", [PyStr "a"])]] |}
              1024%Z [] [] [] empty_store empty_store eq_refl eq_refl)
    as [e [He _]].
  rewrite He. vm_compute in He. inversion He. reflexivity.
Defined.

Section SeenSetExact.
Context {S : Type} {store : NetworkData S}.

Lemma nodes_loop_seen cn schema l : forall added (s : S) final s',
  for_eachM (nodes_batch cn schema) l added s = (Ok final, s') ->
  forall x, In x final <-> In x added \/ identifier_of_batches cn schema l x.
Proof.
  induction l as [|b l IH]; intros added s final s' H x; simpl in H.
  - unfold ret in H. inversion H; subst. split; [now left|].
    intros [I|[b [bd [ids [[] _]]]]]. exact I.
  - unfold bind in H.
    destruct (nodes_batch cn schema added b s) as [[added1|e] s1] eqn:E;
      [|discriminate].
    destruct (nodes_batch_ok _ _ _ _ _ _ _ E) as [bd [ids [Hm [Hg [_ ->]]]]].
    rewrite (IH _ _ _ _ H x), set_update_spec. split.
    + intros [[I|I]|[b' [bd' [ids' [Ib [Hm' [Hg' Ix]]]]]]].
      * now left.
      * right. exists b, bd, ids. repeat split; auto. now left.
      * right. exists b', bd', ids'. repeat split; auto. now right.
    + intros [I|[b' [bd' [ids' [[<-|Ib] [Hm' [Hg' Ix]]]]]]].
      * left. now left.
      * left. right. congruence.
      * right. exists b', bd', ids'. repeat split; auto.
Qed.

Lemma edges_loop_seen schema l : forall added (s : S) final s',
  for_eachM (edges_batch schema) l added s = (Ok final, s') ->
  forall x, In x final <-> In x added \/ In x (returned_in_run schema l added s).
Proof.
  induction l as [|b l IH]; intros added s final s' H x; simpl in H.
  - unfold ret in H. inversion H; subst. simpl. tauto.
  - unfold bind in H.
    destruct (edges_batch schema added b s) as [[added1|e] s1] eqn:E;
      [|discriminate].
    destruct (edges_batch_ok _ _ _ _ _ _ E) as [bd [ids [Hm [Hi ->]]]].
    rewrite (IH _ _ _ _ H x), set_update_spec. simpl. rewrite Hm, Hi.
    rewrite in_app_iff. tauto.
Qed.

End SeenSetExact.

(** X10: nothing else gets into the seen-set.  After a nodes batch it is
    the set before the batch together with the cells of the mapped
    identifier column; after an edges batch, the set before it together
    with the identifiers the store returned; after the nodes loop, the
    starting set and the identifier cells of the batches, no more and no
    less; after the edges loop, the starting set and the identifiers the
    store returned to the loop, batch after batch, no more and no less;
    and at the end of a run the members are the identifier cells of the
    nodes batches and the identifiers the store returned to the edges
    loop of that run. *)
Theorem seen_set_holds_nothing_else
  (S : Type) (store : NetworkData S) (cn : Defaults)
  (edges_schema nodes_schema : option SqliteTableSchema) :
  (forall added b s added' s',
      nodes_batch cn nodes_schema added b s = (Ok added', s') ->
      exists bd ids,
        map_nodes_columns cn nodes_schema b = Ok bd /\
        PyDict.get bd (ID_COLUMN_NAME cn) = Some ids /\
        forall x, In x added' <-> In x added \/ In x ids)
  /\
  (forall added b s added' s',
      edges_batch edges_schema added b s = (Ok added', s') ->
      exists bd ids,
        map_edges_columns edges_schema b = Ok bd /\
        insert_edges (to_rows bd) added s = (Ok ids, s') /\
        forall x, In x added' <-> In x added \/ In x ids)
  /\
  (forall l added s final s',
      for_eachM (nodes_batch cn nodes_schema) l added s = (Ok final, s') ->
      forall x,
        In x final <-> In x added \/ identifier_of_batches cn nodes_schema l x)
  /\
  (forall l added s final s',
      for_eachM (edges_batch edges_schema) l added s = (Ok final, s') ->
      forall x,
        In x final <-> In x added \/ In x (returned_in_run edges_schema l added s))
  /\
  (forall edges_table nodes_table chunk_size s final s',
      insert_table_data_into_network_graph cn edges_table edges_schema
        nodes_table nodes_schema chunk_size s = (Ok final, s') ->
      exists seen_nodes s0,
        insert_nodes_table cn nodes_table nodes_schema chunk_size s
        = (Ok seen_nodes, s0) /\
        forall x,
          In x final <->
          (exists nt, nodes_table = Some nt /\
                      identifier_of_batches cn nodes_schema
                        (to_batches nt chunk_size) x) \/
          In x (returned_in_run edges_schema (to_batches edges_table chunk_size)
                  seen_nodes s0)).
Proof.
  split; [|split; [|split; [|split]]].
  - intros added b s added' s' H.
    destruct (nodes_batch_ok _ _ _ _ _ _ _ H) as [bd [ids [Hm [Hg [_ ->]]]]].
    exists bd, ids. repeat split; auto; apply set_update_spec.
  - intros added b s added' s' H.
    destruct (edges_batch_ok _ _ _ _ _ _ H) as [bd [ids [Hm [Hi ->]]]].
    exists bd, ids. repeat split; auto; apply set_update_spec.
  - intros l added s final s' H. eapply nodes_loop_seen; eauto.
  - intros l added s final s' H. eapply edges_loop_seen; eauto.
  - intros edges_table nodes_table chunk_size s final s' H.
    rewrite insert_table_data_two_loops in H. unfold bind at 1 in H.
    destruct (insert_nodes_table cn nodes_table nodes_schema chunk_size s)
      as [[seen|e] s0] eqn:En; [|discriminate].
    exists seen, s0. split; [reflexivity|].
    intros x. rewrite (edges_loop_seen _ _ _ _ _ _ H x).
    assert (Hseen : In x seen <->
                    exists nt, nodes_table = Some nt /\
                               identifier_of_batches cn nodes_schema
                                 (to_batches nt chunk_size) x).
    { unfold insert_nodes_table in En. destruct nodes_table as [nt|].
      - rewrite (nodes_loop_seen _ _ _ _ _ _ _ En x). split.
        + intros [[]|J]. exists nt. now split.
        + intros [nt' [Hnt J]]. inversion Hnt; subst. now right.
      - unfold ret in En. inversion En; subst. split; [intros []|].
        intros [nt [Hnt _]]. discriminate. }
    rewrite Hseen. reflexivity.
Qed.

(** Two edges batches into an empty store, with nothing seen: the final
    seen-set holds the end points the store created and returned, those
    of the second batch without the one the first had brought in. *)
Lemma seen_set_witness :
  exists final s',
    for_eachM (edges_batch (store := spec_store defaults) None)
      [[("source", [PyInt 1]); ("target", [PyInt 2])];
       [("source", [PyInt 2]); ("target", [PyInt 3])]] [] empty_store
    = (Ok final, s') /\
    returned_in_run (store := spec_store defaults) None
      [[("source", [PyInt 1]); ("target", [PyInt 2])];
       [("source", [PyInt 2]); ("target", [PyInt 3])]] [] empty_store
    = [PyInt 1; PyInt 2; PyInt 3] /\
    (In (PyInt 3) final <->
     In (PyInt 3) [] \/ In (PyInt 3) [PyInt 1; PyInt 2; PyInt 3]).
Proof.
  eexists. eexists. split; [vm_compute; reflexivity|].
  split; [vm_compute; reflexivity|].
  exact (proj1 (proj2 (proj2 (proj2 (seen_set_holds_nothing_else SpecStore
           (spec_store defaults) defaults None None))))
           [[("source", [PyInt 1]); ("target", [PyInt 2])];
            [("source", [PyInt 2]); ("target", [PyInt 3])]] [] empty_store
           _ _ eq_refl (PyInt 3)).
Defined.

(* ------------------------------------------------------------------ *)
(** ** The tabular view adapter: materializing rows *)

Section Materialize.
Import PyDict PyDictFacts.

(** The dictionary [materialize] starts from: an empty column per name. *)
Lemma empty_columns names : forall acc : PyDict.t (list pyvalue),
  NoDup (keys acc ++ names) ->
  fold_left (fun d cn => set d cn []) names acc
  = acc ++ map (fun cn => (cn, [])) names.
Proof.
  induction names as [|cn names IH]; intros acc ND; simpl.
  - now rewrite app_nil_r.
  - rewrite set_absent.
    + rewrite IH.
      * now rewrite <- app_assoc.
      * unfold keys. rewrite map_app, <- app_assoc. exact ND.
    + apply get_none_iff. apply NoDup_remove_2 in ND.
      rewrite in_app_iff in ND. tauto.
Qed.

(** One row appended to the columns named [l], which are cells [j],
    [j + 1], ... of the row. *)
Lemma append_row (r : list pyvalue) l : forall j (d : PyDict.t (list pyvalue)),
  NoDup l ->
  (forall cn, In cn l -> In cn (keys d)) ->
  j + length l <= length r ->
  exists d',
    for_each (append_cell r) (combine (seq j (length l)) l) d = Ok d' /\
    keys d' = keys d /\
    (forall i cn,
        nth_error l i = Some cn ->
        exists col x,
          get d cn = Some col /\ nth_error r (j + i) = Some x /\
          get d' cn = Some (col ++ [x])) /\
    (forall k, ~ In k l -> get d' k = get d k).
Proof.
  induction l as [|cn l IH]; intros j d ND Hin Hlen.
  - exists d. simpl. repeat split; auto. intros i cn H. destruct i; discriminate.
  - inversion ND as [|? ? Hn ND']; subst. simpl in Hlen.
    destruct (in_keys_get _ d cn (Hin cn (or_introl eq_refl))) as [col Hcol].
    destruct (nth_error r j) as [x|] eqn:Hx;
      [|apply nth_error_None in Hx; lia].
    simpl. unfold append_cell at 1. simpl. unfold getitem. rewrite Hcol, Hx.
    set (d1 := set d cn (col ++ [x])).
    assert (K1 : keys d1 = keys d).
    { apply keys_set_present. now apply Hin; left. }
    destruct (IH (Datatypes.S j) d1 ND') as [d' [E [K [P F]]]].
    { intros cn' I. rewrite K1. apply Hin. now right. }
    { lia. }
    exists d'. split; [exact E|]. split; [congruence|]. split.
    + intros i cn' Hi. destruct i as [|i]; simpl in Hi.
      * inversion Hi; subst cn'. exists col, x.
        rewrite Nat.add_0_r. repeat split; auto.
        rewrite (F cn Hn). apply get_set_same.
      * destruct (P i cn' Hi) as [col' [x' [G1 [Hx' G']]]].
        assert (cn' <> cn).
        { intros ->. apply Hn. eapply nth_error_In; eauto. }
        exists col', x'. unfold d1 in G1. rewrite get_set_other in G1 by assumption.
        replace (j + Datatypes.S i) with (Datatypes.S j + i) by lia. auto.
    + intros k Hk. simpl in Hk. rewrite F by tauto.
      apply get_set_other. intros ->. tauto.
Qed.

(** All the rows appended: column [j] grows by cell [j] of every row. *)
Lemma append_rows names rows : forall d : PyDict.t (list pyvalue),
  NoDup names ->
  (forall cn, In cn names -> In cn (keys d)) ->
  (forall r, In r rows -> length names <= length r) ->
  exists d',
    for_each (fun d r => for_each (append_cell r) (enumerate names) d) rows d
    = Ok d' /\
    keys d' = keys d /\
    (forall j cn,
        nth_error names j = Some cn ->
        exists col cells,
          get d cn = Some col /\ get d' cn = Some (col ++ cells) /\
          Forall2 (fun r x => nth_error r j = Some x) rows cells).
Proof.
  induction rows as [|r rows IH]; intros d ND Hin Hlen.
  - exists d. simpl. repeat split; auto. intros j cn Hj.
    destruct (in_keys_get _ d cn (Hin cn (nth_error_In _ _ Hj))) as [col Hcol].
    exists col, []. rewrite app_nil_r. repeat split; auto.
  - destruct (append_row r names 0 d ND Hin) as [d1 [E1 [K1 [P1 _]]]].
    { simpl. apply Hlen. now left. }
    destruct (IH d1 ND) as [d' [E [K P]]].
    { intros cn I. rewrite K1. now apply Hin. }
    { intros r' I. apply Hlen. now right. }
    exists d'. simpl. unfold enumerate at 1. rewrite E1.
    split; [exact E|]. split; [congruence|].
    intros j cn Hj.
    destruct (P1 j cn Hj) as [col [x [G [Hx G1]]]].
    destruct (P j cn Hj) as [col1 [cells [G1' [G' F]]]].
    assert (col1 = col ++ [x]) by congruence. subst col1.
    exists col, (x :: cells). rewrite <- app_assoc in G'. simpl in G'.
    repeat split; auto.
Qed.

(** What [materialize] returns for distinct column names and rows that
    have a cell for every column. *)
Lemma materialize_columns names rows :
  NoDup names ->
  (forall r, In r rows -> length names <= length r) ->
  exists d,
    materialize names rows = Ok d /\
    keys d = names /\
    (forall j cn,
        nth_error names j = Some cn ->
        exists cells,
          get d cn = Some cells /\
          Forall2 (fun r x => nth_error r j = Some x) rows cells).
Proof.
  intros ND Hlen. unfold materialize.
  rewrite (empty_columns names empty) by exact ND. simpl.
  assert (K0 : keys (map (fun cn : string => (cn, @nil pyvalue)) names) = names).
  { unfold keys. rewrite map_map. apply map_id. }
  destruct (append_rows names rows (map (fun cn => (cn, [])) names) ND) as [d [E [K P]]].
  { intros cn I. now rewrite K0. }
  { exact Hlen. }
  exists d. split; [exact E|]. split; [congruence|].
  intros j cn Hj. destruct (P j cn Hj) as [col [cells [G [G' F]]]].
  assert (col = []).
  { rewrite (get_keyed (list pyvalue) (fun _ => []) names cn) in G.
    destruct (in_dec string_dec cn names); congruence. }
  subst col. exists cells. auto.
Qed.

End Materialize.

(** X11: materializing the rows of a query turns them into columns.  For
    distinct column names and rows that have a cell for every column, the
    result has the columns in their order, each as long as there are rows,
    and cell [i] of column [j] is cell [j] of row [i]. *)
Theorem materialize_turns_rows_into_columns
  (column_names : list string) (rows : list (list pyvalue)) :
  NoDup column_names ->
  (forall r, In r rows -> length column_names <= length r) ->
  exists d,
    materialize column_names rows = Ok d /\
    PyDict.keys d = column_names /\
    rectangular d (length rows) /\
    forall j cn i r,
      nth_error column_names j = Some cn ->
      nth_error rows i = Some r ->
      cell d cn i = nth_error r j.
Proof.
  intros ND Hlen.
  destruct (materialize_columns column_names rows ND Hlen) as [d [E [K P]]].
  exists d. split; [exact E|]. split; [exact K|]. split.
  - intros k col Hk.
    assert (I : In k column_names).
    { rewrite <- K. eapply PyDictFacts.get_some_in_keys; eauto. }
    apply In_nth_error in I. destruct I as [j Hj].
    destruct (P j k Hj) as [cells [G F]].
    assert (cells = col) by congruence. subst. symmetry.
    eapply Forall2_length; eauto.
  - intros j cn i r Hj Hi.
    destruct (P j cn Hj) as [cells [G F]].
    unfold cell. rewrite G. clear - F Hi.
    revert i Hi. induction F as [|r0 x rows cells Hx F IH]; intros i Hi.
    + destruct i; discriminate.
    + destruct i as [|i]; simpl in *; [inversion Hi; subst; now rewrite Hx|].
      now apply IH.
Qed.

(** Two rows of two columns. *)
Lemma materialize_witness :
  exists d,
    materialize ["id"; "label"] [[PyInt 1; PyStr "a"]; [PyInt 2; PyStr "b"]] = Ok d /\
    PyDict.keys d = ["id"; "label"] /\
    cell d "label" 1 = Some (PyStr "b").
Proof.
  destruct (materialize_turns_rows_into_columns ["id"; "label"]
              [[PyInt 1; PyStr "a"]; [PyInt 2; PyStr "b"]])
    as [d [E [K [_ C]]]].
  - repeat constructor; simpl; intuition discriminate.
  - intros r [<-|[<-|[]]]; simpl; lia.
  - exists d. repeat split; auto.
    apply (C 1%nat "label" 1%nat [PyInt 2; PyStr "b"]); reflexivity.
Defined.

Section ShortRow.
Import PyDict PyDictFacts.

Lemma append_short_row (r : list pyvalue) l : forall j (d : PyDict.t (list pyvalue)),
  (forall cn, In cn l -> In cn (keys d)) ->
  j <= length r ->
  length r < j + length l ->
  for_each (append_cell r) (combine (seq j (length l)) l) d = Raise IndexError.
Proof.
  induction l as [|cn l IH]; intros j d Hin Hj Hlen; simpl in *; [lia|].
  destruct (in_keys_get _ d cn (Hin cn (or_introl eq_refl))) as [col Hcol].
  unfold append_cell at 1. simpl. unfold getitem. rewrite Hcol.
  destruct (nth_error r j) as [x|] eqn:Hx; [|reflexivity].
  assert (j < length r) by (apply nth_error_Some; congruence).
  apply IH; [|lia|lia].
  intros cn' I. apply in_keys_set. right. apply Hin. now right.
Qed.

End ShortRow.

(** X12: a row with fewer cells than there are columns makes
    materializing fail with an [IndexError], at the first such row. *)
Theorem materialize_short_row_raises
  (column_names : list string) (pre post : list (list pyvalue))
  (r : list pyvalue) :
  NoDup column_names ->
  (forall r', In r' pre -> length column_names <= length r') ->
  length r < length column_names ->
  materialize column_names (pre ++ r :: post) = Raise IndexError.
Proof.
  intros ND Hpre Hr. unfold materialize.
  rewrite (empty_columns column_names PyDict.empty) by exact ND. simpl.
  rewrite for_each_app.
  destruct (append_rows column_names pre (map (fun cn => (cn, [])) column_names) ND)
    as [d [E [K _]]].
  { intros cn I. unfold PyDict.keys. rewrite map_map. simpl. now rewrite map_id. }
  { exact Hpre. }
  rewrite E. simpl. unfold enumerate.
  rewrite append_short_row; [reflexivity | | lia | simpl; exact Hr].
  intros cn I. rewrite K. unfold PyDict.keys. rewrite map_map. simpl.
  now rewrite map_id.
Qed.

(** A second row that lacks its label. *)
Lemma materialize_short_row_witness :
  materialize ["id"; "label"] [[PyInt 1; PyStr "a"]; [PyInt 2]] = Raise IndexError.
Proof.
  apply (materialize_short_row_raises ["id"; "label"] [[PyInt 1; PyStr "a"]] []
           [PyInt 2]).
  - repeat constructor; simpl; intuition discriminate.
  - intros r' [<-|[]]. simpl. lia.
  - simpl. lia.
Defined.

(** X13: what a slice selects.  A positive length bounds the rows from
    the offset on; an offset that is not positive is no offset; and the
    full materialization [to_pydict] is the slice from the start with the
    length left out. *)
Theorem slice_selects_rows (self : NetworkDataTabularWrap) (t : SqlTable)
  (offset : Z) (length : option Z) :
  PyDict.get (_db self) (_table_name self) = Some t ->
  (forall n, (0 < n)%Z ->
             slice self offset (Some n)
             = materialize (sql_columns t)
                 (firstn (Z.to_nat n) (skipn (Z.to_nat offset) (sql_rows t)))) /\
  ((offset <= 0)%Z -> slice self offset length = slice self 0 length) /\
  to_pydict self = slice self 0 None.
Proof.
  intros Ht. split; [|split].
  - intros n Hn.
    unfold slice, slice_query, retrieve_column_names, execute, truthy.
    assert (E0 : (n =? 0)%Z = false) by (apply Z.eqb_neq; lia).
    assert (E1 : (n <? 0)%Z = false) by (apply Z.ltb_ge; lia).
    rewrite E0. simpl.
    destruct (offset >? 0)%Z eqn:Ho; simpl; rewrite Ht, E1; [reflexivity|].
    assert (Hz : Z.to_nat offset = 0%nat)
      by (rewrite Z.gtb_ltb in Ho; apply Z.ltb_ge in Ho; lia).
    rewrite Hz. reflexivity.
  - intros Ho. unfold slice, slice_query.
    assert (E : (offset >? 0)%Z = false)
      by (rewrite Z.gtb_ltb; apply Z.ltb_ge; exact Ho).
    rewrite E. reflexivity.
  - unfold to_pydict, slice, slice_query, retrieve_number_of_rows,
      retrieve_column_names, execute. simpl. rewrite Ht. simpl. rewrite Ht.
    assert (E1 : (Z.of_nat (Datatypes.length (sql_rows t)) <? 0)%Z = false)
      by (apply Z.ltb_ge; lia).
    rewrite E1.
    pose proof (rest_within_count _ (sql_rows t) 0) as R. simpl in R.
    rewrite R. reflexivity.
Qed.

(** The second of three rows: offset 1, length 1. *)
Lemma slice_selects_rows_witness :
  slice {| _db := [("nodes",
                    {| sql_columns := ["id"];
                       sql_rows := [[PyInt 1]; [PyInt 2]; [PyInt 3]] |})];
           _table_type := NODES |} 1 (Some 1%Z)
  = Ok [("id", [PyInt 2])].
Proof.
  rewrite (proj1 (slice_selects_rows
                    {| _db := [("nodes",
                                {| sql_columns := ["id"];
                                   sql_rows := [[PyInt 1]; [PyInt 2]; [PyInt 3]] |})];
                       _table_type := NODES |}
                    {| sql_columns := ["id"];
                       sql_rows := [[PyInt 1]; [PyInt 2]; [PyInt 3]] |}
                    1 None eq_refl) 1%Z ltac:(lia)).
  reflexivity.
Defined.

(* ------------------------------------------------------------------ *)
(** ** From columns to records and back *)

Section RoundTrip.
Import PyDict PyDictFacts.

Lemma Forall2_at (A B : Type) (R : A -> B -> Prop) l1 l2 :
  Forall2 R l1 l2 ->
  forall j a, nth_error l1 j = Some a ->
              exists b, nth_error l2 j = Some b /\ R a b.
Proof.
  induction 1 as [|x y l1 l2 HR F IH]; intros j a Hj.
  - destruct j; discriminate.
  - destruct j as [|j]; simpl in *; [inversion Hj; subst; now exists y|].
    now apply IH.
Qed.

Lemma keys_combine_same (A : Type) (names : list string) (t : list A) :
  length names = length t -> keys (combine names t) = names.
Proof.
  revert t. induction names as [|n names IH]; intros [|x t] H; simpl in *;
    try discriminate; [reflexivity|].
  f_equal. apply IH. lia.
Qed.

Lemma values_combine_same (A : Type) (names : list string) (t : list A) :
  length names = length t -> values (combine names t) = t.
Proof.
  revert t. induction names as [|n names IH]; intros [|x t] H; simpl in *;
    try discriminate; [reflexivity|].
  f_equal. apply IH. lia.
Qed.

(** The cells of a record, in the order of its columns, are the row it
    was made of. *)
Lemma values_dict_zip names (t : list pyvalue) :
  NoDup names -> length names = length t -> values (dict_zip names t) = t.
Proof.
  intros ND Hl. unfold dict_zip. rewrite update_fresh.
  - simpl. now apply values_combine_same.
  - simpl. unfold wf. now rewrite keys_combine_same.
Qed.

Lemma values_to_rows (b : Batch) :
  wf b -> map (@values pyvalue) (to_rows b) = zip_star (values b).
Proof.
  intros W. unfold to_rows. rewrite map_map.
  rewrite <- (map_id (zip_star (values b))) at 2.
  apply map_ext_in. intros t Ht.
  apply values_dict_zip; [exact W|].
  apply In_nth_error in Ht. destruct Ht as [i Hi].
  apply zip_star_row in Hi. apply Forall2_length in Hi.
  unfold keys, values in *. rewrite length_map in *. exact Hi.
Qed.

(** In a dictionary, the key at a position has the value at that
    position. *)
Lemma get_at (V : Type) (d : PyDict.t V) : forall j k,
  wf d -> nth_error (keys d) j = Some k ->
  exists v, nth_error (values d) j = Some v /\ get d k = Some v.
Proof.
  induction d as [|[k0 v0] d IH]; intros j k W Hj.
  - destruct j; discriminate.
  - unfold wf in W. simpl in W. inversion W as [|? ? Hn W']; subst.
    destruct j as [|j]; simpl in *.
    + inversion Hj; subst. exists v0. now rewrite String.eqb_refl.
    + destruct (IH j k W' Hj) as [v [Hv G]]. exists v. split; [exact Hv|].
      destruct (String.eqb_spec k k0) as [->|_]; [|exact G].
      exfalso. apply Hn. eapply nth_error_In; eauto.
Qed.

(** Two dictionaries with the same keys in the same order and the same
    value for each are the same. *)
Lemma dict_ext (V : Type) (d1 : PyDict.t V) : forall d2,
  keys d1 = keys d2 -> wf d1 ->
  (forall k, In k (keys d1) -> get d1 k = get d2 k) ->
  d1 = d2.
Proof.
  induction d1 as [|[k1 v1] d1 IH]; intros [|[k2 v2] d2] K W H; simpl in K;
    try discriminate; [reflexivity|].
  injection K as Hk Hks. subst k2. unfold wf in W. simpl in W.
  inversion W as [|? ? Hn W']; subst.
  pose proof (H k1 (or_introl eq_refl)) as H0. simpl in H0.
  rewrite String.eqb_refl in H0. injection H0 as Hv. subst v2.
  f_equal. apply IH; [exact Hks | exact W' |].
  intros k I. pose proof (H k (or_intror I)) as Hk. simpl in Hk.
  destruct (String.eqb_spec k k1) as [E|_]; [|exact Hk].
  subst k. contradiction.
Qed.

End RoundTrip.

(** X14: columns to records and back.  The records the inserter makes of
    a rectangular batch, read as rows of cells and materialized as the
    adapter materializes the rows of a query, give the batch again: same
    columns, same order, same cells. *)
Theorem records_materialize_to_the_batch (b : Batch) (n : nat) :
  PyDict.wf b ->
  rectangular b n ->
  materialize (PyDict.keys b) (map (@PyDict.values pyvalue) (to_rows b)) = Ok b.
Proof.
  intros W R. rewrite values_to_rows by exact W.
  assert (Hcols : Forall (fun c => length c = n) (PyDict.values b)).
  { apply Forall_forall. intros c Hc. apply In_nth_error in Hc.
    destruct Hc as [j Hj].
    assert (Hjk : exists k, nth_error (PyDict.keys b) j = Some k).
    { destruct (nth_error (PyDict.keys b) j) as [k|] eqn:E; [now exists k|].
      apply nth_error_None in E. unfold PyDict.keys in E. rewrite length_map in E.
      assert (j < length (PyDict.values b))%nat by (apply nth_error_Some; congruence).
      unfold PyDict.values in *. rewrite length_map in *. lia. }
    destruct Hjk as [k Hk].
    destruct (get_at _ b j k W Hk) as [v [Hv G]].
    assert (v = c) by congruence. subst. now apply (R k). }
  destruct (materialize_columns (PyDict.keys b) (zip_star (PyDict.values b)) W)
    as [d [E [K P]]].
  { intros t Ht. apply In_nth_error in Ht. destruct Ht as [i Hi].
    apply zip_star_row in Hi. apply Forall2_length in Hi.
    unfold PyDict.keys, PyDict.values in *. rewrite length_map in *. lia. }
  rewrite E. f_equal.
  apply dict_ext; [exact K | unfold PyDict.wf; now rewrite K |].
  intros k Ik. rewrite K in Ik. apply In_nth_error in Ik. destruct Ik as [j Hj].
  destruct (P j k Hj) as [cells [G F]].
  destruct (get_at _ b j k W Hj) as [col [Hcol Gb]].
  rewrite G, Gb. f_equal.
  assert (Hne : PyDict.values b <> []).
  { intros X. rewrite X in Hcol. destruct j; discriminate. }
  pose proof (zip_star_length (PyDict.values b) n Hne Hcols) as Hlen.
  assert (Lcol : length col = n).
  { rewrite Forall_forall in Hcols. apply Hcols. eapply nth_error_In; eauto. }
  assert (Lcells : length cells = n).
  { apply Forall2_length in F. congruence. }
  apply nth_error_ext. intros i.
  destruct (nth_error (zip_star (PyDict.values b)) i) as [t|] eqn:Ht.
  - destruct (Forall2_at _ _ _ _ _ F i t Ht) as [x [Hx Htj]].
    apply zip_star_row in Ht.
    destruct (Forall2_at _ _ _ _ _ Ht j col Hcol) as [y [Hy Hci]].
    rewrite Hx. congruence.
  - apply nth_error_None in Ht. rewrite Hlen in Ht.
    assert (X1 : nth_error cells i = None) by (apply nth_error_None; lia).
    assert (X2 : nth_error col i = None) by (apply nth_error_None; lia).
    congruence.
Qed.

(** A batch of two columns and two rows. *)
Lemma records_materialize_witness :
  materialize ["id"; "name"]
    (map (@PyDict.values pyvalue)
         (to_rows [("id", [PyInt 1; PyInt 2]); ("name", [PyStr "a"; PyStr "b"])]))
  = Ok [("id", [PyInt 1; PyInt 2]); ("name", [PyStr "a"; PyStr "b"])].
Proof.
  apply (records_materialize_to_the_batch
           [("id", [PyInt 1; PyInt 2]); ("name", [PyStr "a"; PyStr "b"])] 2).
  - repeat constructor; simpl; intuition discriminate.
  - intros k col H. simpl in H.
    destruct (String.eqb k "id"); [inversion H; reflexivity|].
    destruct (String.eqb k "name"); [inversion H; reflexivity | discriminate].
Defined.

(* ------------------------------------------------------------------ *)
(** ** The GraphML parser: what a parse builds, and when it fails *)

Section ParseFailures.
Import PyDict PyDictFacts.

Lemma unrecognized_type_raises s :
  ~ In s recognized_types ->
  convert_graphml_type_to_sqlite s = Raise (KeyError s).
Proof.
  intros Hs.
  unfold convert_graphml_type_to_sqlite, getitem, type_map. simpl.
  repeat match goal with
         | |- context [String.eqb s ?c] =>
             destruct (String.eqb_spec s c) as [->|_];
             [exfalso; apply Hs; unfold recognized_types; simpl; tauto|]
         end.
  reflexivity.
Qed.

Lemma scan_key_total kt k :
  In (key_type k) recognized_types -> exists kt', scan_key kt k = Ok kt'.
Proof.
  intros H. destruct (recognized_type_converts _ H) as [ty Hc].
  unfold scan_key. fold (key_type k). rewrite Hc.
  destruct (getAttribute k "for" =? "edge")%string; eexists; reflexivity.
Qed.

Lemma scan_key_raises kt k :
  ~ In (key_type k) recognized_types ->
  scan_key kt k = Raise (KeyError (key_type k)).
Proof.
  intros H. unfold scan_key. fold (key_type k).
  rewrite (unrecognized_type_raises _ H).
  destruct (getAttribute k "for" =? "edge")%string; reflexivity.
Qed.

Lemma scan_keys_total ks : forall kt,
  (forall k, In k ks -> In (key_type k) recognized_types) ->
  exists kt', for_each scan_key ks kt = Ok kt'.
Proof.
  induction ks as [|k ks IH]; intros kt H; simpl; [now exists kt|].
  destruct (scan_key_total kt k) as [kt1 E]; [apply H; now left|].
  rewrite E. apply IH. intros k' I. apply H. now right.
Qed.

End ParseFailures.

(** X16: when the parser fails before it builds anything.  A document
    without a [graphml] element, or whose first [graphml] element holds no
    [graph] element, fails with an [IndexError]; and the first [<key>]
    whose type is not one of the six makes the parse fail with a
    [KeyError] for that type, wherever the declaration applies, so that
    no graph is returned. *)
Theorem parse_fails_early (dom : Document) :
  (document_getElementsByTagName dom "graphml" = [] ->
   parse_graphml_file dom = Raise IndexError) /\
  (forall root rest,
      document_getElementsByTagName dom "graphml" = root :: rest ->
      getElementsByTagName root "graph" = [] ->
      parse_graphml_file dom = Raise IndexError) /\
  (forall root graph pre k post,
      graph_element dom = Ok (root, graph) ->
      getElementsByTagName root "key" = pre ++ k :: post ->
      (forall k', In k' pre -> In (key_type k') recognized_types) ->
      ~ In (key_type k) recognized_types ->
      parse_graphml_file dom = Raise (KeyError (key_type k))).
Proof.
  split; [|split].
  - intros H. unfold parse_graphml_file, graph_element. now rewrite H.
  - intros root rest H1 H2. unfold parse_graphml_file, graph_element.
    rewrite H1. simpl. now rewrite H2.
  - intros root graph pre k post Hg Hk Hpre Hbad.
    unfold parse_graphml_file. rewrite Hg, Hk, for_each_app.
    destruct (scan_keys_total pre no_keys Hpre) as [kt E]. rewrite E.
    simpl. now rewrite (scan_key_raises kt k Hbad).
Qed.

(** A document with a declaration of type [date]. *)
Lemma parse_fails_early_witness :
  parse_graphml_file
    {| documentElement :=
         Element "graphml" []
           [ Element "key"
               [("id", "d0"); ("for", "node"); ("attr.name", "born");
                ("attr.type", "date")] [];
             Element "graph" [("id", "G")] [] ] |}
  = Raise (KeyError "date").
Proof.
  apply (proj2 (proj2 (parse_fails_early _))
           (Element "graphml" []
              [ Element "key"
                  [("id", "d0"); ("for", "node"); ("attr.name", "born");
                   ("attr.type", "date")] [];
                Element "graph" [("id", "G")] [] ])
           (Element "graph" [("id", "G")] [])
           []
           (Element "key"
              [("id", "d0"); ("for", "node"); ("attr.name", "born");
               ("attr.type", "date")] [])
           []).
  - reflexivity.
  - reflexivity.
  - intros k' [].
  - vm_compute. intuition discriminate.
Defined.

Section ScanFacts.
Import PyDict PyDictFacts.

Lemma converted_type s ty :
  convert_graphml_type_to_sqlite s = Ok ty ->
  In s recognized_types /\ In ty sqlite_types.
Proof.
  intros H. destruct (in_dec string_dec s recognized_types) as [I|N].
  - split; [exact I|]. unfold recognized_types in I. simpl in I.
    unfold sqlite_types.
    destruct I as [<-|[<-|[<-|[<-|[<-|[<-|[]]]]]]];
      vm_compute in H; inversion H; simpl; tauto.
  - rewrite (unrecognized_type_raises s N) in H. discriminate.
Qed.

(** What one declaration does to the four dictionaries. *)
Lemma scan_key_inv kt k kt' :
  scan_key kt k = Ok kt' ->
  convert_graphml_type_to_sqlite (key_type k) = Ok (sqlite_type k) /\
  if for_edge k then
    edge_map kt' = set (edge_map kt) (key_id k) (key_name k) /\
    edge_props kt' = set (edge_props kt) (key_name k) [("data_type", sqlite_type k)] /\
    node_map kt' = node_map kt /\ node_props kt' = node_props kt
  else
    node_map kt' = set (node_map kt) (key_id k) (key_name k) /\
    node_props kt' = set (node_props kt) (key_name k) [("data_type", sqlite_type k)] /\
    edge_map kt' = edge_map kt /\ edge_props kt' = edge_props kt.
Proof.
  unfold scan_key, sqlite_type. fold (key_type k) (for_edge k) (key_id k) (key_name k).
  destruct (for_edge k);
    destruct (convert_graphml_type_to_sqlite (key_type k)) as [ty|]; try discriminate;
    intros H; inversion H; subst; simpl; repeat split.
Qed.

Lemma scan_keys_types ks : forall kt0 kt,
  for_each scan_key ks kt0 = Ok kt ->
  forall k, In k ks ->
    In (key_type k) recognized_types /\ In (sqlite_type k) sqlite_types.
Proof.
  induction ks as [|k0 ks IH]; intros kt0 kt H k I; [destruct I|].
  simpl in H. destruct (scan_key kt0 k0) as [kt1|] eqn:E; [|discriminate].
  destruct I as [<-|I]; [|exact (IH _ _ H k I)].
  destruct (scan_key_inv _ _ _ E) as [Hc _]. exact (converted_type _ _ Hc).
Qed.

(** The dictionaries after the scan, by what they give for a key. *)
Lemma scan_keys_get ks : forall kt0 kt,
  for_each scan_key ks kt0 = Ok kt ->
  forall x,
    get (node_map kt) x
    = fold_left
        (fun acc k => if String.eqb (key_id k) x then Some (key_name k) else acc)
        (filter (fun k => negb (for_edge k)) ks) (get (node_map kt0) x) /\
    get (node_props kt) x
    = fold_left
        (fun acc k => if String.eqb (key_name k) x
                      then Some [("data_type", sqlite_type k)] else acc)
        (filter (fun k => negb (for_edge k)) ks) (get (node_props kt0) x) /\
    get (edge_map kt) x
    = fold_left
        (fun acc k => if String.eqb (key_id k) x then Some (key_name k) else acc)
        (filter for_edge ks) (get (edge_map kt0) x) /\
    get (edge_props kt) x
    = fold_left
        (fun acc k => if String.eqb (key_name k) x
                      then Some [("data_type", sqlite_type k)] else acc)
        (filter for_edge ks) (get (edge_props kt0) x).
Proof.
  induction ks as [|k ks IH]; intros kt0 kt H x; simpl in H.
  - inversion H; subst. simpl. repeat split.
  - destruct (scan_key kt0 k) as [kt1|] eqn:E; [|discriminate].
    destruct (IH _ _ H x) as [H1 [H2 [H3 H4]]].
    destruct (scan_key_inv _ _ _ E) as [_ Hk].
    assert (G : forall (V : Type) (d : t V) a (v : V),
               get (set d a v) x = if String.eqb a x then Some v else get d x).
    { intros V d a v. destruct (String.eqb_spec a x) as [->|N].
      - apply get_set_same.
      - apply get_set_other. congruence. }
    rewrite H1, H2, H3, H4. simpl.
    destruct (for_edge k); simpl; destruct Hk as [K1 [K2 [K3 K4]]];
      rewrite K1, K2, K3, K4, ?G; repeat split.
Qed.

Lemma declared_type_entry ks x : forall acc,
  fold_left
    (fun acc k => if String.eqb (key_name k) x
                  then Some [("data_type", sqlite_type k)] else acc)
    ks (option_map (fun ty => [("data_type", ty)]) acc)
  = option_map (fun ty : string => [("data_type", ty)])
      (fold_left
         (fun acc k => if String.eqb (key_name k) x then Some (sqlite_type k) else acc)
         ks acc).
Proof.
  induction ks as [|k ks IH]; intros acc; simpl; [reflexivity|].
  destruct (String.eqb (key_name k) x); [apply (IH (Some (sqlite_type k)))|apply IH].
Qed.

Lemma declared_type_in ks x : forall acc ty,
  fold_left
    (fun acc k => if String.eqb (key_name k) x then Some (sqlite_type k) else acc)
    ks acc = Some ty ->
  acc = Some ty \/ exists k, In k ks /\ sqlite_type k = ty.
Proof.
  induction ks as [|k ks IH]; intros acc ty H; simpl in H; [now left|].
  destruct (IH _ _ H) as [E|[k' [I E]]].
  - destruct (String.eqb (key_name k) x); [|now left].
    inversion E. right. exists k. split; [now left | reflexivity].
  - right. exists k'. split; [now right | exact E].
Qed.

Lemma declared_name_in ks x : forall acc,
  fold_left
    (fun acc k => if String.eqb (key_id k) x then Some (key_name k) else acc)
    ks acc <> None <->
  acc <> None \/ In x (map key_id ks).
Proof.
  induction ks as [|k ks IH]; intros acc; simpl; [tauto|].
  rewrite IH. destruct (String.eqb_spec (key_id k) x) as [E|N].
  - split; [intros _; right; now left|intros _; left; discriminate].
  - tauto.
Qed.

End ScanFacts.

Section SortFacts.
Import PyDict PyDictFacts.
Variables (m : PyDict.t string) (props : Schema).

Local Abbreviation sort_step := (sort_props_step m props).

Lemma sort_step_inv acc key acc' :
  sort_step acc key = Ok acc' ->
  exists name p,
    get m key = Some name /\ get props name = Some p /\ acc' = set acc name p.
Proof.
  unfold sort_props_step, getitem.
  destruct (get m key) as [name|]; simpl; [|discriminate].
  destruct (get props name) as [p|] eqn:Gp; simpl; [|discriminate].
  intros H. inversion H. exists name, p. repeat split. exact Gp.
Qed.

Lemma sort_loop_wf l : forall acc res,
  for_each sort_step l acc = Ok res -> wf acc -> wf res.
Proof.
  induction l as [|key l IH]; intros acc res H W; simpl in H.
  - now inversion H; subst.
  - destruct (sort_step acc key) as [acc'|] eqn:E; [|discriminate].
    apply (IH _ _ H).
    destruct (sort_step_inv _ _ _ E) as [name [p [_ [_ ->]]]]. now apply wf_set.
Qed.

Lemma sort_loop_stable l : forall acc res name,
  for_each sort_step l acc = Ok res ->
  get acc name = get props name -> get res name = get props name.
Proof.
  induction l as [|key l IH]; intros acc res name H G; simpl in H.
  - now inversion H; subst.
  - destruct (sort_step acc key) as [acc'|] eqn:E; [|discriminate].
    apply (IH _ _ _ H).
    destruct (sort_step_inv _ _ _ E) as [nm [p [_ [Gp ->]]]].
    destruct (String.eqb_spec name nm) as [->|N].
    + now rewrite get_set_same.
    + now rewrite get_set_other.
Qed.

Lemma sort_loop_hit l : forall acc res name key,
  for_each sort_step l acc = Ok res ->
  In key l -> get m key = Some name ->
  get res name = get props name.
Proof.
  induction l as [|key0 l IH]; intros acc res name key H I G; [destruct I|].
  simpl in H. destruct (sort_step acc key0) as [acc'|] eqn:E; [|discriminate].
  destruct I as [->|I]; [|exact (IH _ _ _ _ H I G)].
  apply (sort_loop_stable _ _ _ _ H).
  destruct (sort_step_inv _ _ _ E) as [nm [p [Gm [Gp ->]]]].
  assert (nm = name) by congruence. subst nm.
  now rewrite get_set_same.
Qed.

Lemma sort_loop_in l : forall acc res name p,
  for_each sort_step l acc = Ok res ->
  get res name = Some p ->
  get acc name = Some p \/ exists key, In key l /\ get m key = Some name.
Proof.
  induction l as [|key0 l IH]; intros acc res name p H G; simpl in H.
  - inversion H; subst. now left.
  - destruct (sort_step acc key0) as [acc'|] eqn:E; [|discriminate].
    destruct (IH _ _ _ _ H G) as [G'|[key [I Gk]]].
    + destruct (sort_step_inv _ _ _ E) as [nm [q [Gm [_ ->]]]].
      destruct (String.eqb_spec name nm) as [->|N].
      * right. exists key0. split; [now left | exact Gm].
      * left. now rewrite get_set_other in G'.
    + right. exists key. split; [now right | exact Gk].
Qed.

End SortFacts.

Lemma in_insert_sorted x y l : In x (insert_sorted y l) <-> x = y \/ In x l.
Proof.
  induction l as [|z l IH]; simpl; [intuition|].
  destruct (String.leb y z); simpl; [intuition|]. rewrite IH. intuition.
Qed.

Lemma in_sorted x l : In x (sorted l) <-> In x l.
Proof.
  induction l as [|y l IH]; simpl; [tauto|].
  unfold sorted in *. simpl. rewrite in_insert_sorted, IH. intuition.
Qed.

(** A sorted schema, by what it gives for a name. *)
Lemma sort_props_get m props res :
  sort_props m props = Ok res ->
  PyDict.wf res /\
  forall name p,
    PyDict.get res name = Some p <->
    (exists id, PyDict.get m id = Some name) /\ PyDict.get props name = Some p.
Proof.
  unfold sort_props. intros H.
  change (for_each (sort_props_step m props) (sorted (PyDict.keys m)) PyDict.empty
          = Ok res) in H.
  split.
  - apply (sort_loop_wf _ _ _ _ _ H). constructor.
  - intros name p. split.
    + intros G. destruct (sort_loop_in _ _ _ _ _ _ _ H G) as [G0|[key [I Gk]]];
        [discriminate|].
      split; [now exists key|].
      now rewrite <- (sort_loop_hit _ _ _ _ _ _ _ H I Gk).
    + intros [[id Gid] Gp].
      rewrite (sort_loop_hit _ _ _ _ _ name id H); [exact Gp| |exact Gid].
      apply in_sorted. eapply PyDictFacts.get_some_in_keys. exact Gid.
Qed.

Section ReadFacts.
Import PyDict PyDictFacts.
Variable m : PyDict.t string.

Lemma set_data_value item d item' :
  set_data m item d = Ok item' ->
  exists mapped,
    get m (getAttribute d "key") = Some mapped /\
    item' = set item mapped (data_value d).
Proof.
  unfold set_data, getitem, data_value.
  destruct (get m (getAttribute d "key")) as [mapped|]; [|discriminate].
  destruct (firstChild d) as [[tag attrs children|t]|]; simpl;
    intros H; inversion H; now exists mapped.
Qed.

Lemma set_data_ok item d item' :
  set_data m item d = Ok item' -> data_ok m d.
Proof.
  unfold set_data, getitem, data_ok.
  destruct (get m (getAttribute d "key")) as [mapped|] eqn:G; [|discriminate].
  intros H. split; [eapply get_some_in_keys; exact G|].
  intros c Hc. rewrite Hc in H.
  destruct c as [tag attrs children|t]; [discriminate|now exists t].
Qed.

Lemma read_loop_ok ds : forall item attrs,
  for_each (set_data m) ds item = Ok attrs ->
  forall d, In d ds -> data_ok m d.
Proof.
  induction ds as [|d0 ds IH]; intros item attrs H d I; [destruct I|].
  simpl in H. destruct (set_data m item d0) as [item'|] eqn:E; [|discriminate].
  destruct I as [<-|I]; [exact (set_data_ok _ _ _ E) | exact (IH _ _ H d I)].
Qed.

Lemma read_loop_wf ds : forall item attrs,
  for_each (set_data m) ds item = Ok attrs -> wf item -> wf attrs.
Proof.
  induction ds as [|d ds IH]; intros item attrs H W; simpl in H.
  - now inversion H; subst.
  - destruct (set_data m item d) as [item'|] eqn:E; [|discriminate].
    apply (IH _ _ H).
    destruct (set_data_value _ _ _ E) as [mapped [_ ->]]. now apply wf_set.
Qed.

(** The last data element that names an attribute gives it its value. *)
Lemma read_loop_last pre d post item attrs x :
  get m (getAttribute d "key") = Some x ->
  (forall d', In d' post -> get m (getAttribute d' "key") <> Some x) ->
  for_each (set_data m) (pre ++ d :: post) item = Ok attrs ->
  get attrs x = Some (data_value d).
Proof.
  intros Hk Hpost H. rewrite for_each_app in H.
  destruct (for_each (set_data m) pre item) as [item1|]; [|discriminate].
  simpl in H. destruct (set_data m item1 d) as [item2|] eqn:E; [|discriminate].
  destruct (set_data_value _ _ _ E) as [mapped [G ->]].
  assert (mapped = x) by congruence. subst mapped.
  rewrite (read_loop_other _ _ _ _ _ H Hpost). apply get_set_same.
Qed.

(** Among data elements, either none names the attribute or there is a
    last one that does. *)
Lemma last_named (l : list dom_node) x :
  (forall d, In d l -> get m (getAttribute d "key") <> Some x) \/
  exists pre d post,
    l = pre ++ d :: post /\
    get m (getAttribute d "key") = Some x /\
    forall d', In d' post -> get m (getAttribute d' "key") <> Some x.
Proof.
  induction l as [|a l IHl]; [left; intros d' []|].
  destruct IHl as [Hn|[pre [d1 [post [-> [Gk Hpost]]]]]].
  - destruct (get m (getAttribute a "key")) as [y|] eqn:Ga.
    + destruct (string_dec y x) as [->|Ny].
      * right. exists [], a, l. repeat split; assumption.
      * left. intros d' [<-|I]; [congruence | now apply Hn].
    + left. intros d' [<-|I]; [congruence | now apply Hn].
  - right. exists (a :: pre), d1, post. repeat split; assumption.
Qed.

(** What the loop over the data elements leaves for an attribute: what
    the item had, when no data element names it, and else the value of
    the last data element that does. *)
Lemma read_loop_get ds item attrs x :
  for_each (set_data m) ds item = Ok attrs ->
  ((forall d, In d ds -> get m (getAttribute d "key") <> Some x) /\
   get attrs x = get item x) \/
  exists pre d post,
    ds = pre ++ d :: post /\
    get m (getAttribute d "key") = Some x /\
    (forall d', In d' post -> get m (getAttribute d' "key") <> Some x) /\
    get attrs x = Some (data_value d).
Proof.
  intros H. destruct (last_named ds x) as [Hn|[pre [d [post [E [Gk Hpost]]]]]].
  - left. split; [exact Hn|]. exact (read_loop_other _ _ _ _ _ H Hn).
  - right. exists pre, d, post. split; [exact E|]. split; [exact Gk|].
    split; [exact Hpost|]. rewrite E in H.
    exact (read_loop_last _ _ _ _ _ _ Gk Hpost H).
Qed.

Lemma read_data_attributes el attrs :
  read_data m el = Ok attrs ->
  attributes_of_item (get m) el attrs /\ wf attrs.
Proof.
  unfold read_data. intros H. split; [|apply (read_loop_wf _ _ _ H); constructor].
  intros x v.
  destruct (read_loop_get _ _ _ x H) as [[Hn G]|[pre [d [post [E [Gk [Hpost G]]]]]]];
    rewrite G; split.
  - discriminate.
  - intros [d [[pre [post [E [Gk _]]]] _]]. exfalso.
    apply (Hn d); [rewrite E; apply in_elt | exact Gk].
  - intros Hv. exists d. split; [now exists pre, post | congruence].
  - intros [d' [[pre' [post' [E' [Gk' Hpost']]]] ->]].
    rewrite <- G. rewrite E' in H.
    exact (read_loop_last _ _ _ _ _ _ Gk' Hpost' H).
Qed.

Lemma read_node_data_attributes el attrs :
  read_node_data m el = Ok attrs ->
  node_attributes_of_item (get m) el attrs /\ wf attrs.
Proof.
  unfold read_node_data. simpl. intros H. split.
  2:{ apply (read_loop_wf _ _ _ H). repeat constructor. simpl. tauto. }
  intros x v.
  destruct (read_loop_get _ _ _ x H) as [[Hn G]|[pre [d [post [E [Gk [Hpost G]]]]]]];
    rewrite G; split.
  - simpl. destruct (String.eqb_spec x "label") as [->|N]; [|discriminate].
    intros Hv. right. split; [reflexivity|]. split; [congruence | exact Hn].
  - intros [[d [[pre [post [E [Gk _]]]] _]]|[-> [-> _]]].
    + exfalso. apply (Hn d); [rewrite E; apply in_elt | exact Gk].
    + reflexivity.
  - intros Hv. left. exists d. split; [now exists pre, post | congruence].
  - intros [[d' [[pre' [post' [E' [Gk' Hpost']]]] ->]]|[-> [_ Hn]]].
    + rewrite <- G. rewrite E' in H.
      exact (read_loop_last _ _ _ _ _ _ Gk' Hpost' H).
    + exfalso. apply (Hn d); [rewrite E; apply in_elt | exact Gk].
Qed.

End ReadFacts.

Lemma attributes_of_item_ext f f' el attrs :
  (forall x, f x = f' x) ->
  attributes_of_item f el attrs -> attributes_of_item f' el attrs.
Proof.
  intros E H x v. rewrite (H x v). unfold last_data_for.
  split; intros [d [[pre [post [E1 [G Hp]]]] Hv]]; exists d; (split; [|exact Hv]);
    exists pre, post; (split; [exact E1|]); split.
  - now rewrite <- E.
  - intros d' I. rewrite <- E. now apply Hp.
  - now rewrite E.
  - intros d' I. rewrite E. now apply Hp.
Qed.

Lemma node_attributes_of_item_ext f f' el attrs :
  (forall x, f x = f' x) ->
  node_attributes_of_item f el attrs -> node_attributes_of_item f' el attrs.
Proof.
  intros E H x v. rewrite (H x v). unfold last_data_for.
  split; (intros [[d [[pre [post [E1 [G Hp]]]] Hv]]|[Hx [Hv Hn]]];
          [left; exists d; (split; [|exact Hv]);
           exists pre, post; (split; [exact E1|]); split
          |right; split; [exact Hx|]; split; [exact Hv|]]).
  - now rewrite <- E.
  - intros d' I. rewrite <- E. now apply Hp.
  - intros d I. rewrite <- E. now apply Hn.
  - now rewrite E.
  - intros d' I. rewrite E. now apply Hp.
  - intros d I. rewrite E. now apply Hn.
Qed.

Lemma Forall2_in_l (A B : Type) (R : A -> B -> Prop) l l' x :
  Forall2 R l l' -> In x l -> exists y, In y l' /\ R x y.
Proof.
  induction 1 as [|a b l l' Hab F IH]; intros I; [destruct I|].
  destruct I as [<-|I].
  - exists b. split; [now left | exact Hab].
  - destruct (IH I) as [y [Iy Hy]]. exists y. split; [now right | exact Hy].
Qed.

(** The maps of the scan are the names the declarations give. *)
Lemma scan_declared root kt :
  for_each scan_key (getElementsByTagName root "key") no_keys = Ok kt ->
  (forall x, PyDict.get (node_map kt) x = declared_name (node_keys root) x) /\
  (forall x, PyDict.get (edge_map kt) x = declared_name (edge_keys root) x) /\
  (forall x, PyDict.get (node_props kt) x
             = option_map (fun ty : string => [("data_type", ty)])
                 (declared_type (node_keys root) x)) /\
  (forall x, PyDict.get (edge_props kt) x
             = option_map (fun ty : string => [("data_type", ty)])
                 (declared_type (edge_keys root) x)).
Proof.
  intros H. repeat split; intros x;
    destruct (scan_keys_get _ _ _ H x) as [H1 [H2 [H3 H4]]]; simpl in *.
  - exact H1.
  - exact H3.
  - rewrite H2. apply (declared_type_entry _ x None).
  - rewrite H4. apply (declared_type_entry _ x None).
Qed.

Lemma find_node_spec nodes id i :
  find_node nodes id = Some i ->
  exists n, nth_error nodes i = Some n /\ node_id n = id.
Proof.
  revert i. induction nodes as [|n nodes IH]; intros i H; simpl in H;
    [discriminate|].
  destruct (String.eqb_spec (node_id n) id) as [E|_].
  - inversion H; subst. now exists n.
  - destruct (find_node nodes id) as [j|]; [|discriminate].
    simpl in H. inversion H; subst. simpl. now apply IH.
Qed.

Lemma Forall2_in_r (A B : Type) (R : A -> B -> Prop) l l' y :
  Forall2 R l l' -> In y l' -> exists x, In x l /\ R x y.
Proof.
  induction 1 as [|a b l l' Hab F IH]; intros I; [destruct I|].
  destruct I as [<-|I].
  - exists a. split; [now left | exact Hab].
  - destruct (IH I) as [x [Ix Hx]]. exists x. split; [now right | exact Hx].
Qed.

Lemma schema_of_sorted ks m props res :
  (forall k, In k ks -> In (sqlite_type k) sqlite_types) ->
  (forall x, PyDict.get m x = declared_name ks x) ->
  (forall x, PyDict.get props x
             = option_map (fun ty : string => [("data_type", ty)])
                 (declared_type ks x)) ->
  sort_props m props = Ok res ->
  schema_of_declarations ks res.
Proof.
  intros Hty Hm Hp H. destruct (sort_props_get _ _ _ H) as [W G].
  split; [exact W|]. intros name p. rewrite G, Hp. split.
  - intros [[id Gid] E]. split; [exists id; now rewrite <- Hm|].
    destruct (declared_type ks name) as [ty|] eqn:D; [|discriminate].
    exists ty. split; [reflexivity|]. split; [|now inversion E].
    destruct (declared_type_in _ _ _ _ D) as [?|[k [I <-]]]; [discriminate|].
    now apply Hty.
  - intros [[id Gid] [ty [D [_ ->]]]]. split; [exists id; now rewrite Hm|].
    now rewrite D.
Qed.

Lemma data_ok_declared ks m d :
  (forall x, PyDict.get m x = declared_name ks x) ->
  data_ok m d -> data_ok (declared_map ks) d.
Proof.
  intros Hm [Hk Hc]. split; [|exact Hc].
  apply PyDictFacts.in_keys_get in Hk. destruct Hk as [v Gv].
  rewrite Hm in Gv.
  assert (N : declared_name ks (getAttribute d "key") <> None) by congruence.
  apply (declared_name_in ks _ None) in N. destruct N as [N|I]; [congruence|].
  unfold declared_map, PyDict.keys. rewrite map_map. exact I.
Qed.

(** X15: the nodes a successful parse builds.  The graph is named by the
    [id] of the graph element, and its nodes are the [<node>] elements of
    the graph element, in document order: each has the [id] of its element
    as identifier, and as attributes exactly those its data elements name
    through the node declarations, the last declaration of an identifier
    and the last data element of an attribute being the ones that count,
    together with the empty label the graph library gives every node,
    unless a data element names the label. *)
Theorem parse_builds_the_nodes (dom : Document) (g : Graph) (es ns : Schema)
  (root graph : dom_node) :
  parse_graphml_file dom = Ok (g, es, ns) ->
  graph_element dom = Ok (root, graph) ->
  graph_name g = getAttribute graph "id" /\
  Forall2
    (fun el n =>
       node_id n = getAttribute el "id" /\
       node_attributes_of_item (declared_name (node_keys root)) el (node_attr n))
    (getElementsByTagName graph "node") (graph_nodes g).
Proof.
  intros H Hg.
  destruct (parse_graphml_file_inv _ _ _ _ H)
    as [root' [graph' [kt [Hg' [Hk [_ [_ [Hn [F1 _]]]]]]]]].
  rewrite Hg in Hg'. inversion Hg'; subst root' graph'.
  split; [exact Hn|].
  destruct (scan_declared _ _ Hk) as [Hm _].
  eapply Forall2_impl; [|exact F1].
  intros el n [Hid Hr]. split; [exact Hid|].
  apply (node_attributes_of_item_ext (PyDict.get (node_map kt))); [exact Hm|].
  exact (proj1 (read_node_data_attributes _ _ _ Hr)).
Qed.

(** The sample document: a graph named [G] whose first node, [n0], has
    the zone its data element gives it and the empty label, and nothing
    else. *)
Lemma parse_builds_the_nodes_witness :
  exists g es ns n,
    parse_graphml_file sample_document = Ok (g, es, ns) /\
    graph_name g = "G" /\
    nth_error (graph_nodes g) 0 = Some n /\
    node_id n = "n0" /\
    PyDict.get (node_attr n) "zone" = Some "north" /\
    PyDict.get (node_attr n) "label" = Some "" /\
    PyDict.get (node_attr n) "area" = None.
Proof.
  assert (H : exists g es ns, parse_graphml_file sample_document = Ok (g, es, ns))
    by (eexists; eexists; eexists; vm_compute; reflexivity).
  destruct H as [g [es [ns H]]].
  destruct (parse_builds_the_nodes sample_document g es ns sample_root sample_graph
              H eq_refl) as [Hname F].
  destruct (Forall2_at _ _ _ _ _ F 0%nat
              (Element "node" [("id", "n0")]
                 [Element "data" [("key", "d0")] [Text "north"]]) eq_refl)
    as [n [Hn [Hid Ha]]].
  exists g, es, ns, n. split; [exact H|]. split; [exact Hname|].
  split; [exact Hn|]. split; [exact Hid|]. split; [|split].
  - apply Ha. left. exists (Element "data" [("key", "d0")] [Text "north"]).
    split; [|reflexivity]. exists [], []. split; [reflexivity|].
    split; [reflexivity | intros d' []].
  - apply Ha. right. split; [reflexivity|]. split; [reflexivity|].
    intros d [<-|[]]. vm_compute. discriminate.
  - destruct (PyDict.get (node_attr n) "area") as [v|] eqn:G; [|reflexivity].
    exfalso. apply Ha in G.
    destruct G as [[d [[pre [post [E [Gk _]]]] _]]|[Hx _]]; [|discriminate].
    assert (I : In d [Element "data" [("key", "d0")] [Text "north"]]).
    { change (In d (getElementsByTagName
                      (Element "node" [("id", "n0")]
                         [Element "data" [("key", "d0")] [Text "north"]]) "data")).
      rewrite E. apply in_elt. }
    destruct I as [<-|[]]. vm_compute in Gk. discriminate.
Defined.

(** X17: the edges a successful parse builds.  Every edge of the graph
    comes from an [<edge>] element of the graph element: its ends are
    nodes that carry the [source] and the [target] of the element, and its
    attributes are exactly those the data elements of the element name
    through the edge declarations. *)
Theorem parse_builds_the_edges (dom : Document) (g : Graph) (es ns : Schema)
  (root graph : dom_node) :
  parse_graphml_file dom = Ok (g, es, ns) ->
  graph_element dom = Ok (root, graph) ->
  forall e, In e (graph_edges g) ->
    exists el,
      In el (getElementsByTagName graph "edge") /\
      end_node g (edge_node1 e) (getAttribute el "source") /\
      end_node g (edge_node2 e) (getAttribute el "target") /\
      attributes_of_item (declared_name (edge_keys root)) el (edge_attr e).
Proof.
  intros H Hg e Ie.
  destruct (parse_graphml_file_inv _ _ _ _ H)
    as [root' [graph' [kt [Hg' [Hk [_ [_ [_ [_ F2]]]]]]]]].
  rewrite Hg in Hg'. inversion Hg'; subst root' graph'.
  destruct (Forall2_in_r _ _ _ _ _ _ F2 Ie) as [el [Iel [Hr [H1 H2]]]].
  destruct (scan_declared _ _ Hk) as [_ [Hm _]].
  exists el. split; [exact Iel|].
  split; [now apply find_node_spec|]. split; [now apply find_node_spec|].
  apply (attributes_of_item_ext (PyDict.get (edge_map kt))); [exact Hm|].
  exact (proj1 (read_data_attributes _ _ _ Hr)).
Qed.

(** The edge of the sample document, from [n0] to [n1]. *)
Lemma parse_builds_the_edges_witness :
  exists g es ns e,
    parse_graphml_file sample_document = Ok (g, es, ns) /\
    In e (graph_edges g) /\
    exists el,
      In el (getElementsByTagName sample_graph "edge") /\
      end_node g (edge_node1 e) (getAttribute el "source") /\
      end_node g (edge_node2 e) (getAttribute el "target") /\
      attributes_of_item (declared_name (edge_keys sample_root)) el (edge_attr e).
Proof.
  eexists. eexists. eexists. eexists.
  split; [vm_compute; reflexivity|].
  split; [left; reflexivity|].
  apply (parse_builds_the_edges sample_document _ _ _ sample_root sample_graph
           eq_refl eq_refl).
  left. reflexivity.
Defined.

(** X18: the schemas of a successful parse, read off the declarations.
    The node schema has no name twice; it has an entry for a name exactly
    when the node declarations give that name to an identifier, and the
    entry is the relational type, one of the three, of the last node
    declaration with that name.  The edge schema is the same for the edge
    declarations. *)
Theorem schemas_follow_the_declarations (dom : Document) (g : Graph)
  (es ns : Schema) (root graph : dom_node) :
  parse_graphml_file dom = Ok (g, es, ns) ->
  graph_element dom = Ok (root, graph) ->
  schema_of_declarations (node_keys root) ns /\
  schema_of_declarations (edge_keys root) es.
Proof.
  intros H Hg.
  destruct (parse_graphml_file_inv _ _ _ _ H)
    as [root' [graph' [kt [Hg' [Hk [Sn [Se _]]]]]]].
  rewrite Hg in Hg'. inversion Hg'; subst root' graph'.
  destruct (scan_declared _ _ Hk) as [Mn [Me [Pn Pe]]].
  assert (T : forall f k, In k (filter f (getElementsByTagName root "key")) ->
                          In (sqlite_type k) sqlite_types).
  { intros f k I. apply filter_In in I.
    exact (proj2 (scan_keys_types _ _ _ Hk k (proj1 I))). }
  split.
  - exact (schema_of_sorted _ _ _ _ (T _) Mn Pn Sn).
  - exact (schema_of_sorted _ _ _ _ (T _) Me Pe Se).
Qed.

(** The sample document: its node schema has the two declared names. *)
Lemma schemas_follow_the_declarations_witness :
  exists g es ns,
    parse_graphml_file sample_document = Ok (g, es, ns) /\
    schema_of_declarations (node_keys sample_root) ns /\
    schema_of_declarations (edge_keys sample_root) es.
Proof.
  eexists. eexists. eexists. split; [vm_compute; reflexivity|].
  apply (schemas_follow_the_declarations sample_document _ _ _ sample_root
           sample_graph eq_refl eq_refl).
Defined.

(** X19: what a successful parse presupposes.  When the parse returns,
    every declared type is one of the six, and every data element of a
    node refers to a node declaration, every data element of an edge to
    an edge declaration, and each holds character data first or nothing:
    a document that fails one of these is refused. *)
Theorem parse_presupposes (dom : Document) (g : Graph) (es ns : Schema)
  (root graph : dom_node) :
  parse_graphml_file dom = Ok (g, es, ns) ->
  graph_element dom = Ok (root, graph) ->
  (forall k, In k (getElementsByTagName root "key") ->
             In (key_type k) recognized_types) /\
  (forall el, In el (getElementsByTagName graph "node") ->
              item_ok (declared_map (node_keys root)) el) /\
  (forall el, In el (getElementsByTagName graph "edge") ->
              item_ok (declared_map (edge_keys root)) el).
Proof.
  intros H Hg.
  destruct (parse_graphml_file_inv _ _ _ _ H)
    as [root' [graph' [kt [Hg' [Hk [_ [_ [_ [F1 F2]]]]]]]]].
  rewrite Hg in Hg'. inversion Hg'; subst root' graph'.
  destruct (scan_declared _ _ Hk) as [Mn [Me _]].
  split; [|split].
  - intros k I. exact (proj1 (scan_keys_types _ _ _ Hk k I)).
  - intros el I d Id.
    destruct (Forall2_in_l _ _ _ _ _ _ F1 I) as [n [_ [_ Hr]]].
    apply (data_ok_declared _ (node_map kt)); [exact Mn|].
    exact (read_loop_ok _ _ _ _ Hr d Id).
  - intros el I d Id.
    destruct (Forall2_in_l _ _ _ _ _ _ F2 I) as [e [_ [Hr _]]].
    apply (data_ok_declared _ (edge_map kt)); [exact Me|].
    exact (read_loop_ok _ _ _ _ Hr d Id).
Qed.

(** The sample document: the type of its first declaration. *)
Lemma parse_presupposes_witness :
  In (key_type (Element "key"
                  [("id", "d1"); ("for", "edge"); ("attr.name", "weight");
                   ("attr.type", "double")] []))
     recognized_types.
Proof.
  assert (H : exists g es ns, parse_graphml_file sample_document = Ok (g, es, ns))
    by (eexists; eexists; eexists; vm_compute; reflexivity).
  destruct H as [g [es [ns H]]].
  apply (proj1 (parse_presupposes sample_document g es ns sample_root sample_graph
                  H eq_refl)).
  left. reflexivity.
Defined.
